(** * Lut1DOpData: the data of the 1D LUT operator

    A shallow embedding of [Lut1DOpData.cpp] (OpenColorIO): the sample array
    [Lut3by1DArray], validation, finalization and its cache identifier, the
    preparation of an inverse LUT ([prepareArray]), composition and the fast
    inverse factory.

    Conventions.
    - [unsigned long] quantities are integers of [Z]; every array length is
      bounded by [Lut3by1DArray::resize] (at most 1024 x 1024 rows of three
      floats), so the index arithmetic of the source never wraps.
    - [float] is IEEE 754 binary32, given by [SpecFloat] at precision 24 and
      maximal exponent 128 (NaN payloads are not represented).
    - A [std::vector<float>] is a [list float]; [vget] and [vset] are the
      indexed read and write.
    - A C++ exception is the [Throw] result carrying the message. *)

From Stdlib Require Import ZArith Lia Bool String Ascii.
From Stdlib Require Import Floats.SpecFloat.
From stdpp Require Import base list.

Open Scope Z_scope.

(** ** Exceptions *)

Inductive result (A : Type) : Type :=
| OK (a : A)
| Throw (what : string).

Arguments OK {A} a.
Arguments Throw {A} what.

Definition bind {A B : Type} (r : result A) (k : A -> result B) : result B :=
  match r with
  | OK a => k a
  | Throw what => Throw what
  end.

Notation "'do' x <- r ; k" := (bind r (fun x => k))
  (at level 10, x name, r at level 100, k at level 200).

Definition throws {A : Type} (r : result A) : Prop :=
  exists what, r = Throw what.

Definition succeeds {A : Type} (r : result A) : Prop :=
  exists a, r = OK a.

(** ** Single-precision arithmetic *)

Definition float : Type := spec_float.

Definition f32_add : float -> float -> float := SFadd 24 128.
Definition f32_sub : float -> float -> float := SFsub 24 128.
Definition f32_mul : float -> float -> float := SFmul 24 128.
Definition f32_div : float -> float -> float := SFdiv 24 128.

(** [a < b], [a > b] and [a == b] on floats: false as soon as one side is NaN. *)
Definition f32_lt (a b : float) : bool := SFltb a b.
Definition f32_gt (a b : float) : bool := SFltb b a.
Definition f32_eq (a b : float) : bool := SFeqb a b.
Definition f32_le (a b : float) : bool := SFleb a b.

Definition IsNan (x : float) : bool :=
  match x with
  | S754_nan => true
  | _ => false
  end.

(** [(float)n] for an [unsigned long] [n]. *)
Definition float_of_ulong (n : Z) : float := binary_normalize 24 128 n 0 false.

Definition f32_0 : float := S754_zero false.
Definition f32_1 : float := S754_finite false 8388608 (-23).
(** The literal [1e-5f]: 10995116 * 2^-40. *)
Definition f32_1em5 : float := S754_finite false 10995116 (-40).

(** Modelled from the spec: the [half] class is not in the sources; row [i]
    of a half-domain LUT "corresponds to the float value obtained by
    reinterpreting the 16-bit pattern [i] as an IEEE 754 half". Every half
    is a float, so the conversion is exact. *)
Definition half_to_float (bits : Z) : float :=
  let s := Z.testbit bits 15 in
  let e := Z.land (Z.shiftr bits 10) 31 in
  let m := Z.land bits 1023 in
  if e =? 0 then
    if m =? 0 then S754_zero s
    else binary_normalize 24 128 (cond_Zopp s m) (-24) s
  else if e =? 31 then
    if m =? 0 then S754_infinity s else S754_nan
  else binary_normalize 24 128 (cond_Zopp s (1024 + m)) (e - 25) s.

(** ** Loops *)

(** [for (idx = start; idx < stop; idx += step) s = body idx s]. The fuel
    [stop - start] is enough for every positive [step]. *)
Fixpoint for_fuel {S : Type} (fuel : nat) (idx stop step : Z)
    (body : Z -> S -> S) (s : S) : S :=
  match fuel with
  | O => s
  | Datatypes.S fuel' =>
      if idx <? stop
      then for_fuel fuel' (idx + step) stop step body (body idx s)
      else s
  end.

Definition for_lt {S : Type} (start stop step : Z)
    (body : Z -> S -> S) (s : S) : S :=
  for_fuel (Z.to_nat (stop - start)) start stop step body s.

(** [while (cond s) s = body s], for at most [fuel] turns. *)
Fixpoint while_fuel {S : Type} (fuel : nat) (cond : S -> bool)
    (body : S -> S) (s : S) : S :=
  match fuel with
  | O => s
  | Datatypes.S fuel' =>
      if cond s then while_fuel fuel' cond body (body s) else s
  end.

(** ** Vectors of floats *)

Abbreviation Values := (list float) (only parsing).

Definition vget (values : Values) (i : Z) : float :=
  default f32_0 (values !! Z.to_nat i).

Definition vset (values : Values) (i : Z) (x : float) : Values :=
  <[Z.to_nat i := x]> values.

(** [std::vector::resize]: keeps the leading elements, pads with zeros. *)
Definition vector_resize (values : Values) (n : Z) : Values :=
  take (Z.to_nat n) values
    ++ replicate (Z.to_nat n - length values)%nat f32_0.

(** ** Enumerations *)

Inductive Interpolation : Set :=
| INTERP_UNKNOWN
| INTERP_NEAREST
| INTERP_LINEAR
| INTERP_TETRAHEDRAL
| INTERP_CUBIC
| INTERP_DEFAULT
| INTERP_BEST.

Inductive TransformDirection : Set :=
| TRANSFORM_DIR_FORWARD
| TRANSFORM_DIR_INVERSE.

Inductive Lut1DHueAdjust : Set :=
| HUE_NONE
| HUE_DW3.

Inductive LutInversionQuality : Set :=
| LUT_INVERSION_EXACT
| LUT_INVERSION_FAST.

Inductive BitDepth : Set :=
| BIT_DEPTH_UNKNOWN
| BIT_DEPTH_UINT8
| BIT_DEPTH_UINT10
| BIT_DEPTH_UINT12
| BIT_DEPTH_UINT14
| BIT_DEPTH_UINT16
| BIT_DEPTH_UINT32
| BIT_DEPTH_F16
| BIT_DEPTH_F32.

Inductive ComposeMethod : Set :=
| COMPOSE_RESAMPLE_NO
| COMPOSE_RESAMPLE_BIG
| COMPOSE_RESAMPLE_HD.

#[global] Instance Interpolation_eq_dec : EqDecision Interpolation.
Proof. solve_decision. Defined.
#[global] Instance TransformDirection_eq_dec : EqDecision TransformDirection.
Proof. solve_decision. Defined.
#[global] Instance Lut1DHueAdjust_eq_dec : EqDecision Lut1DHueAdjust.
Proof. solve_decision. Defined.
#[global] Instance BitDepth_eq_dec : EqDecision BitDepth.
Proof. solve_decision. Defined.
#[global] Instance ComposeMethod_eq_dec : EqDecision ComposeMethod.
Proof. solve_decision. Defined.

(** Modelled from the spec: the [HalfFlags] enumeration is declared in the
    header, which is not in the sources; it is a "set over {INPUT_HALF_CODE,
    OUTPUT_HALF_CODE}", kept as the bit mask the setters of the source
    compute with. *)
Definition HalfFlags : Type := Z.
Definition LUT_STANDARD : HalfFlags := 0.
Definition LUT_INPUT_HALF_CODE : HalfFlags := 1.
Definition LUT_OUTPUT_HALF_CODE : HalfFlags := 2.
Definition LUT_INPUT_OUTPUT_HALF_CODE : HalfFlags := 3.

Definition IsInputHalfDomain (halfFlags : HalfFlags) : bool :=
  Z.land halfFlags LUT_INPUT_HALF_CODE =? LUT_INPUT_HALF_CODE.

(** Number of possible values for the half domain. *)
Definition HALF_DOMAIN_REQUIRED_ENTRIES : Z := 65536.

(** ** The sample array *)

Record Array : Type := mkArray {
  m_length : Z;
  m_numColorComponents : Z;
  m_data : Values
}.

Definition getLength (a : Array) : Z := m_length a.
Definition getNumColorComponents (a : Array) : Z := m_numColorComponents a.
Definition getMaxColorComponents : Z := 3.
Definition getValues (a : Array) : Values := m_data a.

Definition setValues (a : Array) (values : Values) : Array :=
  {| m_length := m_length a;
     m_numColorComponents := m_numColorComponents a;
     m_data := values |}.

(** [Lut3by1DArray::getNumValues] *)
Definition getNumValues (a : Array) : Z := getLength a * getMaxColorComponents.

(** Modelled from the spec: the base class [Array] is not in the sources.
    Its [resize] records the dimensions and resizes the vector to
    [num_values() = length * max_channels] entries. *)
Definition Array_resize (a : Array) (length numColorComponents : Z) : Array :=
  {| m_length := length;
     m_numColorComponents := numColorComponents;
     m_data := vector_resize (m_data a) (length * getMaxColorComponents) |}.

(** Modelled from the spec: the base class [Array] is not in the sources.
    The array's "own structural check": the array is not empty and holds
    [num_values()] floats. *)
Definition Array_validate (a : Array) : result unit :=
  if getLength a =? 0 then Throw "Array content is empty."
  else if Z.of_nat (length (m_data a)) =? getNumValues a then OK tt
  else Throw "Array content does not have the expected number of values.".

(** Modelled from the spec: [adjustColorComponentNumber] is not in the
    sources. It "collapses to 1 if all three channels are identical within
    the array's own equality, else leaves as 3". *)
Definition rows_identical (a : Array) : bool :=
  for_lt 0 (getLength a) 1
    (fun idx same =>
       same
       && f32_eq (vget (m_data a) (3 * idx)) (vget (m_data a) (3 * idx + 1))
       && f32_eq (vget (m_data a) (3 * idx)) (vget (m_data a) (3 * idx + 2)))
    true.

Definition adjustColorComponentNumber (a : Array) : Array :=
  if (getNumColorComponents a =? 3) && rows_identical a
  then {| m_length := m_length a;
          m_numColorComponents := 1;
          m_data := m_data a |}
  else a.

(** [Lut3by1DArray::resize] *)
Definition Lut3by1DArray_resize (a : Array) (length numColorComponents : Z)
  : result Array :=
  if length <? 2 then Throw "LUT 1D length needs to be at least 2."
  else if length >? 1024 * 1024
  then Throw "LUT 1D: Length must not be greater than 1024x1024 (1048576)."
  else OK (Array_resize a length numColorComponents).

(** [Lut3by1DArray::fill] *)
Definition fill (halfFlags : HalfFlags) (a : Array) : Array :=
  let dim := getLength a in
  let maxChannels := getMaxColorComponents in
  let values := getValues a in
  if IsInputHalfDomain halfFlags then
    setValues a
      (for_lt 0 dim 1
         (fun idx values =>
            let ftemp := half_to_float (idx mod 65536) in
            let row := maxChannels * idx in
            for_lt 0 maxChannels 1
              (fun channel values => vset values (channel + row) ftemp)
              values)
         values)
  else
    let stepValue := f32_div f32_1 (f32_sub (float_of_ulong dim) f32_1) in
    setValues a
      (for_lt 0 dim 1
         (fun idx values =>
            let ftemp := f32_mul (float_of_ulong idx) stepValue in
            let row := maxChannels * idx in
            for_lt 0 maxChannels 1
              (fun channel values => vset values (channel + row) ftemp)
              values)
         values).

(** The default-constructed base [Array]. *)
Definition Array_empty : Array :=
  {| m_length := 0; m_numColorComponents := 0; m_data := [] |}.

(** [Lut3by1DArray::Lut3by1DArray(halfFlags, length)] *)
Definition Lut3by1DArray_new (halfFlags : HalfFlags) (length : Z)
  : result Array :=
  if length <? 2 then Throw "LUT 1D length needs to be at least 2."
  else
    do a <- Lut3by1DArray_resize Array_empty length getMaxColorComponents;
    OK (fill halfFlags a).

(** ** Component metadata of an inverse LUT *)

Record ComponentProperties : Type := mkComponentProperties {
  isIncreasing : bool;
  startDomain : Z;
  endDomain : Z;
  negStartDomain : Z;
  negEndDomain : Z
}.

Definition ComponentProperties_default : ComponentProperties :=
  {| isIncreasing := false; startDomain := 0; endDomain := 0;
     negStartDomain := 0; negEndDomain := 0 |}.

(** The array [m_componentProperties[3]]. *)
Definition ComponentArray : Type :=
  ComponentProperties * ComponentProperties * ComponentProperties.

Definition getProps (props : ComponentArray) (c : Z) : ComponentProperties :=
  let '(p0, p1, p2) := props in
  if c =? 0 then p0 else if c =? 1 then p1 else p2.

Definition setProps (props : ComponentArray) (c : Z)
    (p : ComponentProperties) : ComponentArray :=
  let '(p0, p1, p2) := props in
  if c =? 0 then (p, p1, p2)
  else if c =? 1 then (p0, p, p2)
  else if c =? 2 then (p0, p1, p)
  else props.

(** ** Reversal flattening

    One turn of the three flattening loops of [prepareArray]: the state is
    [prevValue] and the vector. *)
Definition flatten_step (isIncreasing : bool) (idx : Z)
    (st : float * Values) : float * Values :=
  let '(prevValue, values) := st in
  if negb (eqb isIncreasing (f32_gt (vget values idx) prevValue))
  then (prevValue, vset values idx prevValue)
  else (vget values idx, values).

(** The flattening block of [prepareArray] for channel [c]. *)
Definition flattenReversals (halfDomain : bool) (length maxChannels c : Z)
    (isIncreasing : bool) (values : Values) : Values :=
  if negb halfDomain then
    let prevValue := vget values c in
    snd (for_lt (c + maxChannels) (length * maxChannels) maxChannels
           (flatten_step isIncreasing) (prevValue, values))
  else
    (* Do positive numbers. *)
    let startInd := 0 * maxChannels + c in
    let endInd := 31744 * maxChannels in
    let prevValue := vget values startInd in
    let values :=
      snd (for_lt (startInd + maxChannels) (endInd + 1) maxChannels
             (flatten_step isIncreasing) (prevValue, values)) in
    (* Do negative numbers. *)
    let isIncreasing := negb isIncreasing in
    let startInd := 32768 * maxChannels + c in
    let endInd := 64512 * maxChannels in
    let prevValue := vget values c in
    snd (for_lt startInd (endInd + 1) maxChannels
           (flatten_step isIncreasing) (prevValue, values)).

(** ** Effective domain: the scans over the flat spots at both ends *)

Definition scanEnd (values : Values) (maxChannels c : Z)
    (lowest endDomain : Z) : Z :=
  let endValue := vget values (endDomain * maxChannels + c) in
  while_fuel (Z.to_nat (endDomain - lowest))
    (fun endDomain =>
       (endDomain >? lowest)
       && f32_eq (vget values ((endDomain - 1) * maxChannels + c)) endValue)
    (fun endDomain => endDomain - 1)
    endDomain.

Definition scanStart (values : Values) (maxChannels c : Z)
    (startDomain endDomain : Z) : Z :=
  let startValue := vget values (startDomain * maxChannels + c) in
  while_fuel (Z.to_nat (endDomain - startDomain))
    (fun startDomain =>
       (startDomain <? endDomain)
       && f32_eq (vget values ((startDomain + 1) * maxChannels + c))
            startValue)
    (fun startDomain => startDomain + 1)
    startDomain.

(** The body of the loop over the active channels of [prepareArray]. *)
Definition prepareChannel (halfDomain : bool) (length maxChannels : Z)
    (c : Z) (st : ComponentArray * Values)
  : ComponentArray * Values :=
  let '(props, values) := st in
  (* Determine if the LUT is overall increasing or decreasing. *)
  let lowInd := if halfDomain then 0 * maxChannels + c else c in
  let highInd :=
    if halfDomain then 15360 * maxChannels + c
    else (length - 1) * maxChannels + c in
  let increasing := f32_lt (vget values lowInd) (vget values highInd) in
  (* Flatten reversals. *)
  let values :=
    flattenReversals halfDomain length maxChannels c increasing values in
  (* Determine effective domain from the starting/ending flat spots. *)
  let p :=
    if negb halfDomain then
      let endDomain := scanEnd values maxChannels c 0 (length - 1) in
      let startDomain := scanStart values maxChannels c 0 endDomain in
      {| isIncreasing := increasing;
         startDomain := startDomain;
         endDomain := endDomain;
         negStartDomain := negStartDomain (getProps props c);
         negEndDomain := negEndDomain (getProps props c) |}
    else
      let endDomain := scanEnd values maxChannels c 0 31743 in
      let startDomain := scanStart values maxChannels c 0 endDomain in
      let negEndDomain := scanEnd values maxChannels c 32768 64511 in
      let negStartDomain :=
        scanStart values maxChannels c 32768 negEndDomain in
      {| isIncreasing := increasing;
         startDomain := startDomain;
         endDomain := endDomain;
         negStartDomain := negStartDomain;
         negEndDomain := negEndDomain |} in
  (setProps props c p, values).

(** [prepareArray] on the members it reads and writes: the half flags, the
    array and the component properties. *)
Definition prepareArray_core (halfFlags : HalfFlags) (a : Array)
    (props : ComponentArray)
  : Array * ComponentArray :=
  let length := getLength a in
  let maxChannels := getMaxColorComponents in
  let activeChannels := getNumColorComponents a in
  let '(props, values) :=
    for_lt 0 activeChannels 1
      (prepareChannel (IsInputHalfDomain halfFlags) length maxChannels)
      (props, getValues a) in
  let props :=
    if activeChannels =? 1
    then (getProps props 0, getProps props 0, getProps props 0)
    else props in
  (setValues a values, props).

(** [hasExtendedRange] on the vector of values. *)
Definition normalMin : float := f32_sub f32_0 f32_1em5.
Definition normalMax : float := f32_add f32_1 f32_1em5.

Fixpoint hasExtendedRange_values (values : Values) : bool :=
  match values with
  | [] => false
  | val :: rest =>
      if IsNan val then hasExtendedRange_values rest
      else if f32_lt val normalMin then true
      else if f32_gt val normalMax then true
      else hasExtendedRange_values rest
  end.

(** Modelled from the spec: [BitDepthUtils.h] is not in the sources.
    [IsFloatBitDepth] holds of the float depths; [GetBitDepthMaxValue] is
    the "max_value" of an integer depth. *)
Definition IsFloatBitDepth (depth : BitDepth) : bool :=
  match depth with
  | BIT_DEPTH_F16 | BIT_DEPTH_F32 => true
  | _ => false
  end.

Definition GetBitDepthMaxValue (depth : BitDepth) : Z :=
  match depth with
  | BIT_DEPTH_UINT8 => 255
  | BIT_DEPTH_UINT10 => 1023
  | BIT_DEPTH_UINT12 => 4095
  | BIT_DEPTH_UINT14 => 16383
  | BIT_DEPTH_UINT16 => 65535
  | _ => 1
  end.

(** [GetLutIdealSize(incomingBitDepth)] *)
Definition GetLutIdealSize1 (incomingBitDepth : BitDepth) : result Z :=
  match incomingBitDepth with
  | BIT_DEPTH_UINT8 | BIT_DEPTH_UINT10 | BIT_DEPTH_UINT12
  | BIT_DEPTH_UINT14 | BIT_DEPTH_UINT16 =>
      OK (GetBitDepthMaxValue incomingBitDepth + 1)
  | BIT_DEPTH_F16 | BIT_DEPTH_F32 => OK 65536
  | BIT_DEPTH_UNKNOWN | BIT_DEPTH_UINT32 =>
      Throw "Bit-depth is not supported: "
  end.

(** [GetLutIdealSize(inputBitDepth, halfFlags)] *)
Definition GetLutIdealSize (inputBitDepth : BitDepth) (halfFlags : HalfFlags)
  : result Z :=
  let size := HALF_DOMAIN_REQUIRED_ENTRIES in
  if IsInputHalfDomain halfFlags then OK size
  else GetLutIdealSize1 inputBitDepth.

(** [IsValid(interpolation)] *)
Definition IsValid (interpolation : Interpolation) : bool :=
  match interpolation with
  | INTERP_BEST | INTERP_DEFAULT | INTERP_LINEAR | INTERP_NEAREST => true
  | INTERP_CUBIC | INTERP_TETRAHEDRAL | INTERP_UNKNOWN => false
  end.

(** [GetHueAdjustName] *)
Definition GetHueAdjustName (algo : Lut1DHueAdjust) : string :=
  match algo with
  | HUE_DW3 => "dw3"
  | HUE_NONE => "none"
  end.

(** ** Sample collaborators

    Functions to run the definitions of the next section on: the names that
    OpenColorIO prints for the directions and the interpolations, and a
    digest that tells two vectors apart by their number of floats only. *)
Definition sample_direction_name (dir : TransformDirection) : string :=
  match dir with
  | TRANSFORM_DIR_FORWARD => "forward"
  | TRANSFORM_DIR_INVERSE => "inverse"
  end.

Definition sample_interpolation_name (interp : Interpolation) : string :=
  match interp with
  | INTERP_UNKNOWN => "unknown"
  | INTERP_NEAREST => "nearest"
  | INTERP_LINEAR => "linear"
  | INTERP_TETRAHEDRAL => "tetrahedral"
  | INTERP_CUBIC => "cubic"
  | INTERP_DEFAULT => "default"
  | INTERP_BEST => "best"
  end.

Definition sample_digest (values : Values) : string :=
  String.concat "" (map (fun _ => "0f"%string) values).

(** ** The LUT 1D data

    The collaborators that the sources only call are parameters: the format
    metadata of the base class [OpData] and its [combine], the names of the
    directions and interpolations, the printable MD5 digest of the raw bytes
    of a vector of floats, and the renderer [EvalTransform] that pipes
    three-channel pixels through a chain of operators. *)
Section Lut1D.

Set Default Proof Using "Type".

Variable FormatMetadata : Type.
Variable emptyMetadata : FormatMetadata.
Variable combine : FormatMetadata -> FormatMetadata -> FormatMetadata.
Variable TransformDirectionToString : TransformDirection -> string.
Variable InterpolationToString : Interpolation -> string.
Variable md5_hex : Values -> string.

Record Lut1DOpData : Type := mkLut1DOpData {
  m_metadata : FormatMetadata;
  m_interpolation : Interpolation;
  m_array : Array;
  m_halfFlags : HalfFlags;
  m_hueAdjust : Lut1DHueAdjust;
  m_direction : TransformDirection;
  m_invQuality : LutInversionQuality;
  m_componentProperties : ComponentArray;
  m_fileOutBitDepth : BitDepth;
  m_cacheID : string
}.

(** The operators of an evaluator chain: only LUT 1D operators are built
    here. *)
Inductive Op : Type :=
| Lut1DOp (data : Lut1DOpData).

Abbreviation OpRcPtrVec := (list Op) (only parsing).

Variable EvalTransform : Values -> Z -> OpRcPtrVec -> Values.

Definition getArray (L : Lut1DOpData) : Array := m_array L.
Definition getDirection (L : Lut1DOpData) : TransformDirection := m_direction L.
Definition getInterpolation (L : Lut1DOpData) : Interpolation :=
  m_interpolation L.
Definition getHueAdjust (L : Lut1DOpData) : Lut1DHueAdjust := m_hueAdjust L.
Definition getFormatMetadata (L : Lut1DOpData) : FormatMetadata :=
  m_metadata L.
Definition getFileOutputBitDepth (L : Lut1DOpData) : BitDepth :=
  m_fileOutBitDepth L.
Definition getCacheID (L : Lut1DOpData) : string := m_cacheID L.
Definition isInputHalfDomain (L : Lut1DOpData) : bool :=
  IsInputHalfDomain (m_halfFlags L).

Definition setArray (L : Lut1DOpData) (a : Array) : Lut1DOpData :=
  mkLut1DOpData (m_metadata L) (m_interpolation L) a (m_halfFlags L)
    (m_hueAdjust L) (m_direction L) (m_invQuality L)
    (m_componentProperties L) (m_fileOutBitDepth L) (m_cacheID L).

Definition setFormatMetadata (L : Lut1DOpData) (md : FormatMetadata)
  : Lut1DOpData :=
  mkLut1DOpData md (m_interpolation L) (m_array L) (m_halfFlags L)
    (m_hueAdjust L) (m_direction L) (m_invQuality L)
    (m_componentProperties L) (m_fileOutBitDepth L) (m_cacheID L).

Definition setInterpolation (L : Lut1DOpData) (algo : Interpolation)
  : Lut1DOpData :=
  mkLut1DOpData (m_metadata L) algo (m_array L) (m_halfFlags L)
    (m_hueAdjust L) (m_direction L) (m_invQuality L)
    (m_componentProperties L) (m_fileOutBitDepth L) (m_cacheID L).

Definition setInversionQuality (L : Lut1DOpData)
    (style : LutInversionQuality) : Lut1DOpData :=
  mkLut1DOpData (m_metadata L) (m_interpolation L) (m_array L)
    (m_halfFlags L) (m_hueAdjust L) (m_direction L) style
    (m_componentProperties L) (m_fileOutBitDepth L) (m_cacheID L).

Definition setHueAdjust (L : Lut1DOpData) (algo : Lut1DHueAdjust)
  : Lut1DOpData :=
  mkLut1DOpData (m_metadata L) (m_interpolation L) (m_array L)
    (m_halfFlags L) algo (m_direction L) (m_invQuality L)
    (m_componentProperties L) (m_fileOutBitDepth L) (m_cacheID L).

Definition setDirection (L : Lut1DOpData) (dir : TransformDirection)
  : Lut1DOpData :=
  mkLut1DOpData (m_metadata L) (m_interpolation L) (m_array L)
    (m_halfFlags L) (m_hueAdjust L) dir (m_invQuality L)
    (m_componentProperties L) (m_fileOutBitDepth L) (m_cacheID L).

Definition setHalfFlags (L : Lut1DOpData) (halfFlags : HalfFlags)
  : Lut1DOpData :=
  mkLut1DOpData (m_metadata L) (m_interpolation L) (m_array L) halfFlags
    (m_hueAdjust L) (m_direction L) (m_invQuality L)
    (m_componentProperties L) (m_fileOutBitDepth L) (m_cacheID L).

Definition setCacheID (L : Lut1DOpData) (id : string) : Lut1DOpData :=
  mkLut1DOpData (m_metadata L) (m_interpolation L) (m_array L)
    (m_halfFlags L) (m_hueAdjust L) (m_direction L) (m_invQuality L)
    (m_componentProperties L) (m_fileOutBitDepth L) id.

Definition setComponentProperties (L : Lut1DOpData)
    (props : ComponentArray) : Lut1DOpData :=
  mkLut1DOpData (m_metadata L) (m_interpolation L) (m_array L)
    (m_halfFlags L) (m_hueAdjust L) (m_direction L) (m_invQuality L)
    props (m_fileOutBitDepth L) (m_cacheID L).

(** [setInputHalfDomain] and [setOutputRawHalfs] *)
Definition setInputHalfDomain (L : Lut1DOpData) (isHalfDomain : bool)
  : Lut1DOpData :=
  setHalfFlags L
    (if isHalfDomain then Z.lor (m_halfFlags L) LUT_INPUT_HALF_CODE
     else Z.land (m_halfFlags L) (Z.lnot LUT_INPUT_HALF_CODE)).

Definition setOutputRawHalfs (L : Lut1DOpData) (isRawHalfs : bool)
  : Lut1DOpData :=
  setHalfFlags L
    (if isRawHalfs then Z.lor (m_halfFlags L) LUT_OUTPUT_HALF_CODE
     else Z.land (m_halfFlags L) (Z.lnot LUT_OUTPUT_HALF_CODE)).

(** [Lut1DOpData::Lut1DOpData(halfFlags, dimension)] *)
Definition Lut1DOpData_new (halfFlags : HalfFlags) (dimension : Z)
  : result Lut1DOpData :=
  do a <- Lut3by1DArray_new halfFlags dimension;
  OK {| m_metadata := emptyMetadata;
        m_interpolation := INTERP_DEFAULT;
        m_array := a;
        m_halfFlags := halfFlags;
        m_hueAdjust := HUE_NONE;
        m_direction := TRANSFORM_DIR_FORWARD;
        m_invQuality := LUT_INVERSION_FAST;
        m_componentProperties :=
          (ComponentProperties_default, ComponentProperties_default,
           ComponentProperties_default);
        m_fileOutBitDepth := BIT_DEPTH_UNKNOWN;
        m_cacheID := "" |}.

(** [Lut1DOpData::Lut1DOpData(dimension, dir)] *)
Definition Lut1DOpData_new_dir (dimension : Z) (dir : TransformDirection)
  : result Lut1DOpData :=
  do L <- Lut1DOpData_new LUT_STANDARD dimension;
  OK (setDirection L dir).

Definition getConcreteInterpolation (L : Lut1DOpData) : Interpolation :=
  INTERP_LINEAR.

Definition hasChannelCrosstalk (L : Lut1DOpData) : bool :=
  if decide (getHueAdjust L <> HUE_NONE) then true else false.

(** Modelled from the spec: [OpData::validate] of the base class is not in
    the sources; the spec gives it no way to fail. *)
Definition OpData_validate (L : Lut1DOpData) : result unit := OK tt.

(** [Lut1DOpData::validate] *)
Definition validate (L : Lut1DOpData) : result unit :=
  do _ <- OpData_validate L;
  if negb (IsValid (m_interpolation L))
  then Throw ("1D LUT does not support interpolation algorithm: "
              ++ InterpolationToString (getInterpolation L) ++ ".")%string
  else
    match Array_validate (getArray L) with
    | Throw what => Throw ("1D LUT content array issue: " ++ what)%string
    | OK _ =>
        if isInputHalfDomain L
           && negb (getLength (getArray L) =? HALF_DOMAIN_REQUIRED_ENTRIES)
        then Throw "1D LUT: entries found, 65536 required for halfDomain 1D LUT."
        else OK tt
    end.

(** [Lut1DOpData::mayLookup] *)
Definition mayLookup (L : Lut1DOpData) (incomingDepth : BitDepth) : bool :=
  if isInputHalfDomain L then
    if decide (incomingDepth = BIT_DEPTH_F16) then true else false
  else if negb (IsFloatBitDepth incomingDepth)
  then getLength (m_array L) =? GetBitDepthMaxValue incomingDepth + 1
  else false.

(** [Lut1DOpData::MakeLookupDomain] *)
Definition MakeLookupDomain (incomingDepth : BitDepth) : result Lut1DOpData :=
  let domainType :=
    if IsFloatBitDepth incomingDepth then LUT_INPUT_HALF_CODE
    else LUT_STANDARD in
  do idealSize <- GetLutIdealSize incomingDepth domainType;
  Lut1DOpData_new domainType idealSize.

(** Modelled from the spec: the equality of the base class [Array] is not
    in the sources; "equal value arrays" compares the dimensions and the
    floats one by one. *)
Fixpoint Values_eq (v w : Values) : bool :=
  match v, w with
  | [], [] => true
  | x :: v', y :: w' => f32_eq x y && Values_eq v' w'
  | _, _ => false
  end.

Definition Array_eq (a b : Array) : bool :=
  (m_length a =? m_length b)
  && (m_numColorComponents a =? m_numColorComponents b)
  && Values_eq (m_data a) (m_data b).

(** [Lut1DOpData::haveEqualBasics] *)
Definition haveEqualBasics (A B : Lut1DOpData) : bool :=
  (m_halfFlags A =? m_halfFlags B)
  && (if decide (m_hueAdjust A = m_hueAdjust B) then true else false)
  && Array_eq (m_array A) (m_array B).

(** Modelled from the spec: [OpData::operator==] of the base class is not
    in the sources; the spec's [equals] compares nothing beyond what
    [Lut1DOpData::operator==] itself compares. *)
Definition OpData_equals (A B : Lut1DOpData) : bool := true.

(** [Lut1DOpData::operator==] *)
Definition equals (A B : Lut1DOpData) : bool :=
  if negb (OpData_equals A B) then false
  else if (if decide (m_direction A <> m_direction B) then true else false)
          || (if decide (getConcreteInterpolation A
                         <> getConcreteInterpolation B)
              then true else false)
  then false
  else haveEqualBasics A B.

(** [Lut1DOpData::clone]: the copy constructor. *)
Definition clone (L : Lut1DOpData) : Lut1DOpData := L.

(** [Lut1DOpData::isInverse] *)
Definition isInverse (A B : Lut1DOpData) : bool :=
  match m_direction A, m_direction B with
  | TRANSFORM_DIR_FORWARD, TRANSFORM_DIR_INVERSE
  | TRANSFORM_DIR_INVERSE, TRANSFORM_DIR_FORWARD => haveEqualBasics A B
  | _, _ => false
  end.

(** [Lut1DOpData::mayCompose] *)
Definition mayCompose (A B : Lut1DOpData) : bool :=
  (if decide (getDirection A = TRANSFORM_DIR_FORWARD) then true else false)
  && (if decide (getDirection B = TRANSFORM_DIR_FORWARD) then true else false)
  && (if decide (getHueAdjust A = HUE_NONE) then true else false)
  && (if decide (getHueAdjust B = HUE_NONE) then true else false).

(** [Lut1DOpData::inverse] *)
Definition inverse (L : Lut1DOpData) : Lut1DOpData :=
  let invLut := clone L in
  setDirection invLut
    (match m_direction L with
     | TRANSFORM_DIR_FORWARD => TRANSFORM_DIR_INVERSE
     | TRANSFORM_DIR_INVERSE => TRANSFORM_DIR_FORWARD
     end).

(** [Lut1DOpData::prepareArray] and [initializeFromForward] *)
Definition prepareArray (L : Lut1DOpData) : Lut1DOpData :=
  let '(a, props) :=
    prepareArray_core (m_halfFlags L) (getArray L) (m_componentProperties L) in
  setComponentProperties (setArray L a) props.

Definition initializeFromForward (L : Lut1DOpData) : Lut1DOpData :=
  prepareArray L.

(** [Lut1DOpData::hasExtendedRange] *)
Definition hasExtendedRange (L : Lut1DOpData) : bool :=
  hasExtendedRange_values (getValues (getArray L)).

(** [Lut1DOpData::finalize] *)
Definition finalize (L : Lut1DOpData) : result Lut1DOpData :=
  let L :=
    match m_direction L with
    | TRANSFORM_DIR_INVERSE => initializeFromForward L
    | TRANSFORM_DIR_FORWARD => L
    end in
  let L := setArray L (adjustColorComponentNumber (m_array L)) in
  do _ <- validate L;
  let cacheID :=
    (md5_hex (getValues (getArray L)) ++ " "
     ++ TransformDirectionToString (m_direction L) ++ " "
     ++ InterpolationToString (m_interpolation L) ++ " "
     ++ (if isInputHalfDomain L then "half domain " else "standard domain ")
     ++ GetHueAdjustName (m_hueAdjust L))%string in
  OK (setCacheID L cacheID).

(** ** Composition *)

(** Modelled from the spec: [CreateLut1DOp] is not in the sources; it
    appends to the chain an evaluator for the LUT, applied in the given
    direction. *)
Definition CreateLut1DOp (ops : OpRcPtrVec) (lut : Lut1DOpData)
    (direction : TransformDirection) : OpRcPtrVec :=
  ops ++ [Lut1DOp (match direction with
                   | TRANSFORM_DIR_FORWARD => lut
                   | TRANSFORM_DIR_INVERSE => inverse lut
                   end)].

(** [Lut1DOpData::ComposeVec]: [A] is the in/out parameter. *)
Definition ComposeVec (A : Lut1DOpData) (B : OpRcPtrVec)
  : result Lut1DOpData :=
  if (length B =? 0)%nat
  then Throw "There is nothing to compose the 1D LUT with"
  else
    let numPixels := getLength (getArray A) in
    do a <- Lut3by1DArray_resize (getArray A) numPixels 3;
    let inValues := getValues a in
    OK (setArray A (setValues a (EvalTransform inValues numPixels B))).

Definition compose_min_size (compFlag : ComposeMethod) : Z :=
  match compFlag with
  | COMPOSE_RESAMPLE_NO => 0
  | COMPOSE_RESAMPLE_BIG => 65536
  | COMPOSE_RESAMPLE_HD => 65536
  end.

Definition compose_needHalfDomain (compFlag : ComposeMethod) : bool :=
  match compFlag with
  | COMPOSE_RESAMPLE_HD => true
  | _ => false
  end.

(** The evaluator chain and the domain that [Compose] hands to
    [ComposeVec]. *)
Definition Compose_setup (A B : Lut1DOpData) (compFlag : ComposeMethod)
  : result (Lut1DOpData * OpRcPtrVec) :=
  let ops : OpRcPtrVec := [] in
  let min_size := compose_min_size compFlag in
  let needHalfDomain := compose_needHalfDomain compFlag in
  let Asz := getLength (getArray A) in
  let goodDomain :=
    isInputHalfDomain A || ((Asz >=? min_size) && negb needHalfDomain) in
  let useOrigDomain :=
    if decide (compFlag = COMPOSE_RESAMPLE_NO) then true else false in
  do Aops <-
    (if negb goodDomain && negb useOrigDomain then
       (* Interpolate through both LUTs in this case (resample). *)
       let ops := CreateLut1DOp ops A TRANSFORM_DIR_FORWARD in
       (* Create identity with finer domain. *)
       let metadata := getFormatMetadata A in
       do A' <- Lut1DOpData_new
                  (if needHalfDomain then LUT_INPUT_HALF_CODE
                   else LUT_STANDARD)
                  min_size;
       let A' := setInterpolation A' (getInterpolation A') in
       let A' := setFormatMetadata A' metadata in
       OK (A', ops)
     else OK (A, ops));
  let '(A, ops) := Aops in
  let bCloned := clone B in
  let ops := CreateLut1DOp ops bCloned TRANSFORM_DIR_FORWARD in
  OK (A, ops).

(** [Lut1DOpData::Compose]: [A] is the in/out parameter. *)
Definition Compose (A B : Lut1DOpData) (compFlag : ComposeMethod)
  : result Lut1DOpData :=
  do Aops <- Compose_setup A B compFlag;
  let '(A, ops) := Aops in
  (* Create the result LUT by composing the domain through the desired ops. *)
  do A <- ComposeVec A ops;
  (* Configure the metadata of the result LUT. *)
  let A :=
    setFormatMetadata A
      (combine (getFormatMetadata A) (getFormatMetadata B)) in
  OK (setHueAdjust A (getHueAdjust B)).

(** ** The fast inverse factory *)

(** [Lut1DOpData::MakeFastLut1DFromInverse]. The source LUT is held through
    a pointer and overridden in place by the style guard, so the function
    returns, next to its result, the source LUT as it is left on exit.

    Modelled from the spec: [LutStyleGuard] is declared in the header, which
    is not in the sources; while it is alive the source LUT is observed with
    [inversion_quality = EXACT], and its stored value is restored on exit. *)
Definition MakeFastLut1DFromInverse (lut : Lut1DOpData) (forGPU : bool)
  : result Lut1DOpData * Lut1DOpData :=
  if decide (getDirection lut <> TRANSFORM_DIR_INVERSE)
  then (Throw "MakeFastLut1DFromInverse expects an inverse 1D LUT", lut)
  else
    let depth := getFileOutputBitDepth lut in
    let depth :=
      match depth with
      | BIT_DEPTH_UNKNOWN | BIT_DEPTH_UINT14 | BIT_DEPTH_UINT32 =>
          BIT_DEPTH_UINT12
      | _ => depth
      end in
    let depth :=
      if forGPU
         && (if decide (depth <> BIT_DEPTH_UINT16) then true else false)
      then BIT_DEPTH_UINT12 else depth in
    (* But if the LUT has values outside [0,1], use a half-domain fastLUT. *)
    let depth := if hasExtendedRange lut then BIT_DEPTH_F16 else depth in
    (* Make a domain for the composed 1D LUT. *)
    match MakeLookupDomain depth with
    | Throw what => (Throw what, lut)
    | OK newDomainLut =>
        (* Change inv style to INV_EXACT to avoid recursion. *)
        let saved := m_invQuality lut in
        let guarded := setInversionQuality lut LUT_INVERSION_EXACT in
        let r := Compose newDomainLut guarded COMPOSE_RESAMPLE_NO in
        (r, setInversionQuality guarded saved)
    end.

(** ** Definitions used to state and prove the properties *)

(** [n] turns of a loop from [idx] by [step], whatever the bound. *)
Fixpoint for_n {S : Type} (n : nat) (idx step : Z)
    (body : Z -> S -> S) (s : S) : S :=
  match n with
  | O => s
  | Datatypes.S n' => for_n n' (idx + step) step body (body idx s)
  end.

(** The samples at [idx], [idx + step], ... ([n] of them), and the write of
    a list of samples back at the same places. *)
Fixpoint gather (values : Values) (idx step : Z) (n : nat) : list float :=
  match n with
  | O => []
  | Datatypes.S n' => vget values idx :: gather values (idx + step) step n'
  end.

Fixpoint scatter (values : Values) (idx step : Z) (l : list float) : Values :=
  match l with
  | [] => values
  | x :: l' => scatter (vset values idx x) (idx + step) step l'
  end.

(** The flattening walk on the samples of one channel, in row order. *)
Fixpoint flatten_list (increasing : bool) (prevValue : float)
    (l : list float) : list float :=
  match l with
  | [] => []
  | v :: l' =>
      if negb (eqb increasing (f32_gt v prevValue))
      then prevValue :: flatten_list increasing prevValue l'
      else v :: flatten_list increasing v l'
  end.

(** The order of a direction: [a] may come before [b]. *)
Definition dir_le (increasing : bool) (a b : float) : bool :=
  if increasing then f32_le a b else f32_le b a.

(** Channel [c] of the vector is weakly monotonic over the rows [lo..hi]. *)
Definition weakly_monotonic (increasing : bool) (values : Values)
    (c lo hi : Z) : Prop :=
  forall i j, lo <= i -> i <= j -> j <= hi ->
    dir_le increasing (vget values (3 * i + c)) (vget values (3 * j + c))
    = true.

(** No stored value of channel [c] is a NaN over the rows [lo..hi]. *)
Definition no_nan_rows (values : Values) (c lo hi : Z) : Prop :=
  forall i, lo <= i -> i <= hi -> IsNan (vget values (3 * i + c)) = false.

(** The value of row [row], channel [c]. *)
Definition sample (a : Array) (row c : Z) : float :=
  vget (m_data a) (row * getMaxColorComponents + c).

(** The row of a fresh identity array. *)
Definition ideal_value (halfFlags : HalfFlags) (dim idx : Z) : float :=
  if IsInputHalfDomain halfFlags then half_to_float (idx mod 65536)
  else f32_mul (float_of_ulong idx)
         (f32_div f32_1 (f32_sub (float_of_ulong dim) f32_1)).

(** The direction that [prepareArray] reads for channel [c], and the values
    after the flattening of that channel. *)
Definition detectIncreasing (halfDomain : bool) (length c : Z)
    (values : Values) : bool :=
  let lowInd := if halfDomain then 0 * 3 + c else c in
  let highInd :=
    if halfDomain then 15360 * 3 + c else (length - 1) * 3 + c in
  f32_lt (vget values lowInd) (vget values highInd).

Definition flattenChannel (halfDomain : bool) (length c : Z)
    (values : Values) : Values :=
  flattenReversals halfDomain length 3 c
    (detectIncreasing halfDomain length c values) values.

(** The number of turns of the two half-domain walks for channel [c]. *)
Definition posRows (c : Z) : nat := Z.to_nat ((95232 - c) / 3).
Definition negRows (c : Z) : nat := Z.to_nat ((95235 - c) / 3).

(** One walk: the samples from [start] on, flattened and written back. *)
Definition walk (increasing : bool) (prev : float) (values : Values)
    (start : Z) (n : nat) : Values :=
  scatter values start 3
    (flatten_list increasing prev (gather values start 3 n)).

(** Channel [c] is settled: its walks would change nothing. *)
Definition settled_walk (increasing : bool) (prev : float) (values : Values)
    (start : Z) (n : nat) : Prop :=
  flatten_list increasing prev (gather values start 3 n)
  = gather values start 3 n.

Definition settled (halfDomain : bool) (length c : Z) (values : Values)
  : Prop :=
  let increasing := detectIncreasing halfDomain length c values in
  if halfDomain then
    settled_walk increasing (vget values c) values (c + 3) (posRows c)
    /\ settled_walk (negb increasing) (vget values c) values (98304 + c)
         (negRows c)
  else
    settled_walk increasing (vget values c) values (c + 3)
      (Z.to_nat (length - 1)).

(** The vector holds three floats for each of the [length] rows, and a
    half-domain vector has its 65536 rows: what [validate] checks. *)
Definition valid_sizes (halfDomain : bool) (length : Z) (values : Values)
  : Prop :=
  Z.of_nat (List.length values) = length * 3
  /\ 1 <= length
  /\ (halfDomain = true -> length = 65536).

(** The values after the loop of [prepareArray] over the active channels. *)
Definition prepareValues (halfDomain : bool) (length activeChannels : Z)
    (values : Values) : Values :=
  for_lt 0 activeChannels 1 (flattenChannel halfDomain length) values.

(** The state of [finalize] when it reaches [validate]. *)
Definition finalize_prepared (L : Lut1DOpData) : Lut1DOpData :=
  let L :=
    match m_direction L with
    | TRANSFORM_DIR_INVERSE => initializeFromForward L
    | TRANSFORM_DIR_FORWARD => L
    end in
  setArray L (adjustColorComponentNumber (m_array L)).

(** The cache identifier that [finalize] builds. *)
Definition cacheID_of (L : Lut1DOpData) : string :=
  (md5_hex (getValues (getArray L)) ++ " "
   ++ TransformDirectionToString (m_direction L) ++ " "
   ++ InterpolationToString (m_interpolation L) ++ " "
   ++ (if isInputHalfDomain L then "half domain " else "standard domain ")
   ++ GetHueAdjustName (m_hueAdjust L))%string.


(** The fresh standard-domain LUT of two rows. *)
Definition identity2 : Lut1DOpData :=
  {| m_metadata := emptyMetadata;
     m_interpolation := INTERP_DEFAULT;
     m_array := {| m_length := 2;
                   m_numColorComponents := 3;
                   m_data := [f32_0; f32_0; f32_0; f32_1; f32_1; f32_1] |};
     m_halfFlags := LUT_STANDARD;
     m_hueAdjust := HUE_NONE;
     m_direction := TRANSFORM_DIR_FORWARD;
     m_invQuality := LUT_INVERSION_FAST;
     m_componentProperties :=
       (ComponentProperties_default, ComponentProperties_default,
        ComponentProperties_default);
     m_fileOutBitDepth := BIT_DEPTH_UNKNOWN;
     m_cacheID := "" |}.

(** The rows that the flattening makes monotonic: all the rows of a
    standard domain; in a half domain the finite positive rows 0..31743
    and the finite negative rows 32768..64511. *)
Definition nan_free (halfDomain : bool) (length c : Z) (values : Values)
  : Prop :=
  if halfDomain
  then no_nan_rows values c 0 31743 /\ no_nan_rows values c 32768 64511
  else no_nan_rows values c 0 (length - 1).

Definition monotonic_rows (halfDomain : bool) (length : Z)
    (increasing : bool) (values : Values) (c : Z) : Prop :=
  if halfDomain
  then weakly_monotonic increasing values c 0 31743
       /\ weakly_monotonic (negb increasing) values c 32768 64511
  else weakly_monotonic increasing values c 0 (length - 1).

(** A half-domain inverse LUT whose three channels hold the same curve:
    0 at row 0, 1 over the rows 1..31743, and 0 from the row of +infinity
    (31744) on. *)
Definition step_values : Values :=
  replicate 3 f32_0
    ++ replicate (Z.to_nat (3 * 31743)) f32_1
    ++ replicate (Z.to_nat (3 * (65536 - 31744))) f32_0.

Definition step_lut : Lut1DOpData :=
  {| m_metadata := emptyMetadata;
     m_interpolation := INTERP_DEFAULT;
     m_array := {| m_length := 65536;
                   m_numColorComponents := 3;
                   m_data := step_values |};
     m_halfFlags := LUT_INPUT_HALF_CODE;
     m_hueAdjust := HUE_NONE;
     m_direction := TRANSFORM_DIR_INVERSE;
     m_invQuality := LUT_INVERSION_FAST;
     m_componentProperties :=
       (ComponentProperties_default, ComponentProperties_default,
        ComponentProperties_default);
     m_fileOutBitDepth := BIT_DEPTH_UNKNOWN;
     m_cacheID := "" |}.

(** A standard-domain inverse LUT of four rows with a reversal: every
    channel holds 0, 1, 0, 1. *)
Definition reversal_lut : Lut1DOpData :=
  {| m_metadata := emptyMetadata;
     m_interpolation := INTERP_LINEAR;
     m_array := {| m_length := 4;
                   m_numColorComponents := 3;
                   m_data := [f32_0; f32_0; f32_0; f32_1; f32_1; f32_1;
                              f32_0; f32_0; f32_0; f32_1; f32_1; f32_1] |};
     m_halfFlags := LUT_STANDARD;
     m_hueAdjust := HUE_NONE;
     m_direction := TRANSFORM_DIR_INVERSE;
     m_invQuality := LUT_INVERSION_FAST;
     m_componentProperties :=
       (ComponentProperties_default, ComponentProperties_default,
        ComponentProperties_default);
     m_fileOutBitDepth := BIT_DEPTH_UNKNOWN;
     m_cacheID := "" |}.

(** A standard-domain inverse LUT of four rows that stores a NaN: every
    channel holds 0, NaN, 1, 0. *)
Definition nan_lut : Lut1DOpData :=
  {| m_metadata := emptyMetadata;
     m_interpolation := INTERP_LINEAR;
     m_array := {| m_length := 4;
                   m_numColorComponents := 3;
                   m_data := [f32_0; f32_0; f32_0;
                              S754_nan; S754_nan; S754_nan;
                              f32_1; f32_1; f32_1; f32_0; f32_0; f32_0] |};
     m_halfFlags := LUT_STANDARD;
     m_hueAdjust := HUE_NONE;
     m_direction := TRANSFORM_DIR_INVERSE;
     m_invQuality := LUT_INVERSION_FAST;
     m_componentProperties :=
       (ComponentProperties_default, ComponentProperties_default,
        ComponentProperties_default);
     m_fileOutBitDepth := BIT_DEPTH_UNKNOWN;
     m_cacheID := "" |}.

(** A standard-domain inverse LUT of two rows that maps 1 to 2: its values
    leave the range [0, 1]. *)
Definition f32_2 : float := S754_finite false 8388608 (-22).

Definition extended_lut : Lut1DOpData :=
  {| m_metadata := emptyMetadata;
     m_interpolation := INTERP_LINEAR;
     m_array := {| m_length := 2;
                   m_numColorComponents := 3;
                   m_data := [f32_0; f32_0; f32_0; f32_2; f32_2; f32_2] |};
     m_halfFlags := LUT_STANDARD;
     m_hueAdjust := HUE_NONE;
     m_direction := TRANSFORM_DIR_INVERSE;
     m_invQuality := LUT_INVERSION_FAST;
     m_componentProperties :=
       (ComponentProperties_default, ComponentProperties_default,
        ComponentProperties_default);
     m_fileOutBitDepth := BIT_DEPTH_UNKNOWN;
     m_cacheID := "" |}.

(** ** Further definitions *)

(** The component properties that [prepareArray] stores for channel [c]:
    the direction read for the channel and the effective domains scanned
    on the flattened values; a standard domain keeps the negative domain
    that the properties held. *)
Definition channelProperties (halfDomain : bool) (length c : Z)
    (old : ComponentProperties) (increasing : bool) (values : Values)
  : ComponentProperties :=
  if negb halfDomain then
    let endDomain := scanEnd values 3 c 0 (length - 1) in
    let startDomain := scanStart values 3 c 0 endDomain in
    {| isIncreasing := increasing;
       startDomain := startDomain;
       endDomain := endDomain;
       negStartDomain := negStartDomain old;
       negEndDomain := negEndDomain old |}
  else
    let endDomain := scanEnd values 3 c 0 31743 in
    let startDomain := scanStart values 3 c 0 endDomain in
    let negEndDomain := scanEnd values 3 c 32768 64511 in
    let negStartDomain := scanStart values 3 c 32768 negEndDomain in
    {| isIncreasing := increasing;
       startDomain := startDomain;
       endDomain := endDomain;
       negStartDomain := negStartDomain;
       negEndDomain := negEndDomain |}.

(** The samples of channel [c] over the rows [lo..hi] compare equal to
    [x]. *)
Definition flat_rows (a : Array) (c lo hi : Z) (x : float) : Prop :=
  forall row, lo <= row -> row <= hi -> f32_eq (sample a row c) x = true.

(** Halves are kept as their 16 bits. The conversion of a float to a half
    and the comparison [HalfsDiffer] of [MathUtils.h] are not in the
    sources: they are parameters. *)
Variable float_to_half : float -> Z.
Variable HalfsDiffer : Z -> Z -> Z -> bool.

(** [Lut3by1DArray::isIdentity]. The loops leave by [return false]: the
    state of the loops is the answer so far, and no sample is looked at
    once it is false. *)
Definition Array_isIdentity (halfFlags : HalfFlags) (a : Array) : bool :=
  let dim := getLength a in
  let values := getValues a in
  let maxChannels := getMaxColorComponents in
  if IsInputHalfDomain halfFlags then
    for_lt 0 dim 1
      (fun idx (identity : bool) =>
         let aimHalf := idx mod 65536 in
         let row := maxChannels * idx in
         for_lt 0 maxChannels 1
           (fun channel (identity : bool) =>
              if identity then
                let valHalf := float_to_half (vget values (channel + row)) in
                (* Must be different by at least two ULPs to not be an
                   identity. *)
                if HalfsDiffer aimHalf valHalf 1 then false else true
              else false)
           identity)
      true
  else
    let abs_tol := f32_1em5 in
    let stepValue := f32_div f32_1 (f32_sub (float_of_ulong dim) f32_1) in
    for_lt 0 dim 1
      (fun idx (identity : bool) =>
         let aim := f32_mul (float_of_ulong idx) stepValue in
         let row := maxChannels * idx in
         for_lt 0 maxChannels 1
           (fun channel (identity : bool) =>
              if identity then
                let err := f32_sub (vget values (channel + row)) aim in
                if f32_gt (SFabs err) abs_tol then false else true
              else false)
           identity)
      true.

(** [Lut1DOpData::isIdentity] and [isNoOp] *)
Definition isIdentity (L : Lut1DOpData) : bool :=
  Array_isIdentity (m_halfFlags L) (m_array L).

Definition isNoOp (L : Lut1DOpData) : bool :=
  if isInputHalfDomain L then isIdentity L else false.

(** Every sample of channel [c] of [v'] is a sample of channel [c] of
    [values], from the same or an earlier row. *)
Definition sourced (c : Z) (values v' : Values) : Prop :=
  forall row, 0 <= row ->
    exists row', 0 <= row' <= row
                 /\ vget v' (3 * row + c) = vget values (3 * row' + c).

(** A standard-domain inverse LUT of three rows, every sample 1; and one of
    two rows, every sample a NaN. *)
Definition flat_lut : Lut1DOpData :=
  {| m_metadata := emptyMetadata;
     m_interpolation := INTERP_LINEAR;
     m_array := {| m_length := 3;
                   m_numColorComponents := 3;
                   m_data := replicate 9 f32_1 |};
     m_halfFlags := LUT_STANDARD;
     m_hueAdjust := HUE_NONE;
     m_direction := TRANSFORM_DIR_INVERSE;
     m_invQuality := LUT_INVERSION_FAST;
     m_componentProperties :=
       (ComponentProperties_default, ComponentProperties_default,
        ComponentProperties_default);
     m_fileOutBitDepth := BIT_DEPTH_UNKNOWN;
     m_cacheID := "" |}.

Definition all_nan_lut : Lut1DOpData :=
  {| m_metadata := emptyMetadata;
     m_interpolation := INTERP_LINEAR;
     m_array := {| m_length := 2;
                   m_numColorComponents := 3;
                   m_data := replicate 6 S754_nan |};
     m_halfFlags := LUT_STANDARD;
     m_hueAdjust := HUE_NONE;
     m_direction := TRANSFORM_DIR_FORWARD;
     m_invQuality := LUT_INVERSION_FAST;
     m_componentProperties :=
       (ComponentProperties_default, ComponentProperties_default,
        ComponentProperties_default);
     m_fileOutBitDepth := BIT_DEPTH_UNKNOWN;
     m_cacheID := "" |}.

(** ** Loops: unfolding and invariants *)

Lemma for_fuel_irrelevant {S : Type} (f1 : nat) :
  forall (f2 : nat) (idx stop step : Z) (body : Z -> S -> S) (s : S),
    0 < step ->
    (Z.to_nat (stop - idx) <= f1)%nat -> (Z.to_nat (stop - idx) <= f2)%nat ->
    for_fuel f1 idx stop step body s = for_fuel f2 idx stop step body s.
Proof.
  induction f1 as [|f1 IH]; intros [|f2] idx stop step body s Hstep H1 H2;
    simpl; try reflexivity.
  - destruct (Z.ltb_spec idx stop); [lia|reflexivity].
  - destruct (Z.ltb_spec idx stop); [lia|reflexivity].
  - destruct (Z.ltb_spec idx stop); [|reflexivity].
    apply IH; lia.
Qed.

Lemma for_fuel_enough {S : Type} (fuel : nat)
    (idx stop step : Z) (body : Z -> S -> S) (s : S) :
  0 < step -> (Z.to_nat (stop - idx) <= fuel)%nat ->
  for_fuel fuel idx stop step body s = for_lt idx stop step body s.
Proof.
  intros Hstep Hfuel. unfold for_lt. apply for_fuel_irrelevant; lia.
Qed.

Lemma for_lt_done {S : Type} (idx stop step : Z) (body : Z -> S -> S) (s : S) :
  stop <= idx -> for_lt idx stop step body s = s.
Proof.
  intros H. unfold for_lt.
  destruct (Z.to_nat (stop - idx)) as [|n] eqn:En; [reflexivity|lia].
Qed.

Lemma for_lt_step {S : Type} (idx stop step : Z) (body : Z -> S -> S) (s : S) :
  0 < step -> idx < stop ->
  for_lt idx stop step body s = for_lt (idx + step) stop step body (body idx s).
Proof.
  intros Hstep Hlt. unfold for_lt at 1.
  destruct (Z.to_nat (stop - idx)) as [|n] eqn:En; [lia|].
  simpl. destruct (Z.ltb_spec idx stop); [|lia].
  apply for_fuel_enough; lia.
Qed.

Lemma for_lt_for_n {S : Type} (n : nat) :
  forall (idx stop step : Z) (body : Z -> S -> S) (s : S),
    0 < step -> n = Z.to_nat ((stop - idx + step - 1) / step) ->
    for_lt idx stop step body s = for_n n idx step body s.
Proof.
  induction n as [|n IH]; intros idx stop step body s Hstep Hn.
  - simpl. apply for_lt_done.
    destruct (Z.le_gt_cases stop idx) as [|Hgt]; [assumption|].
    assert (1 <= (stop - idx + step - 1) / step).
    { apply Z.div_le_lower_bound; lia. }
    lia.
  - assert (Hlt : idx < stop).
    { destruct (Z.lt_ge_cases idx stop) as [|Hge]; [assumption|].
      assert ((stop - idx + step - 1) / step <= 0).
      { apply Z.lt_succ_r. apply Z.div_lt_upper_bound; lia. }
      lia. }
    rewrite for_lt_step by assumption. simpl. apply IH; [assumption|].
    replace (stop - (idx + step) + step - 1)
      with ((stop - idx + step - 1) + (-1) * step) by ring.
    rewrite Z.div_add by lia. lia.
Qed.

Lemma for_lt_invariant {S : Type} (P : Z -> S -> Prop)
    (start stop : Z) (body : Z -> S -> S) (s : S) :
  start <= stop ->
  P start s ->
  (forall i t, start <= i -> i < stop -> P i t -> P (i + 1) (body i t)) ->
  P stop (for_lt start stop 1 body s).
Proof.
  intros Hle H0 Hstep.
  rewrite (for_lt_for_n (Z.to_nat (stop - start))).
  2: lia.
  2: { f_equal. rewrite Z.div_1_r. lia. }
  remember (Z.to_nat (stop - start)) as n eqn:En.
  revert start s Hle H0 Hstep En.
  induction n as [|n IH]; intros start s Hle H0 Hstep En.
  - simpl. replace stop with start by lia. assumption.
  - simpl. apply IH.
    + lia.
    + apply Hstep; [lia|lia|assumption].
    + intros i t Hi1 Hi2 HP. apply Hstep; [lia|lia|assumption].
    + lia.
Qed.

(** ** Vectors: read after write *)

Lemma vset_length (values : Values) (i : Z) (x : float) :
  length (vset values i x) = length values.
Proof. unfold vset. apply length_insert. Qed.

Lemma vget_vset_eq (values : Values) (i : Z) (x : float) :
  0 <= i -> i < Z.of_nat (length values) ->
  vget (vset values i x) i = x.
Proof.
  intros H0 H1. unfold vget, vset.
  rewrite list_lookup_insert_eq by lia. reflexivity.
Qed.

Lemma vget_vset_ne (values : Values) (i j : Z) (x : float) :
  0 <= i -> 0 <= j -> i <> j ->
  vget (vset values i x) j = vget values j.
Proof.
  intros Hi Hj Hne. unfold vget, vset.
  rewrite list_lookup_insert_ne by lia. reflexivity.
Qed.

Lemma vset_vget_id (values : Values) (i : Z) :
  vset values i (vget values i) = values.
Proof.
  unfold vget, vset.
  destruct (values !! Z.to_nat i) as [x|] eqn:E.
  - simpl. apply list_insert_id. assumption.
  - apply list_insert_ge. apply lookup_ge_None. assumption.
Qed.

Lemma vget_in_range (values : Values) (i : Z) :
  0 <= i -> i < Z.of_nat (length values) ->
  values !! Z.to_nat i = Some (vget values i).
Proof.
  intros H0 H1. unfold vget.
  destruct (lookup_lt_is_Some_2 values (Z.to_nat i)) as [x Hx]; [lia|].
  rewrite Hx. reflexivity.
Qed.

(** ** The order of floats

    [SFcompare] orders the floats that are not NaN by sign, exponent and
    mantissa; the lemmas below are what the flattening walk needs of it. *)

Ltac float_order :=
  unfold dir_le, f32_lt, f32_le, f32_gt, f32_eq, SFltb, SFleb, SFeqb,
    SFcompare, IsNan;
  repeat match goal with
         | x : float |- _ => destruct x as [[]|[]| |[] ? ?]
         | x : spec_float |- _ => destruct x as [[]|[]| |[] ? ?]
         end;
  simpl; intros; try reflexivity; try discriminate;
  change (Pos.compare_cont Eq) with Pos.compare in *;
  repeat match goal with
         | H : context [Z.compare ?a ?b] |- _ =>
             destruct (Z.compare_spec a b); simpl in H; try discriminate
         | |- context [Z.compare ?a ?b] =>
             destruct (Z.compare_spec a b); simpl; try reflexivity
         | H : context [Pos.compare ?a ?b] |- _ =>
             destruct (Pos.compare_spec a b); simpl in H; try discriminate
         | |- context [Pos.compare ?a ?b] =>
             destruct (Pos.compare_spec a b); simpl; try reflexivity
         end;
  try reflexivity; try discriminate; try lia.

Lemma f32_lt_not_nan (a b : float) :
  f32_lt a b = true -> IsNan a = false /\ IsNan b = false.
Proof. float_order; split; reflexivity. Qed.

Lemma f32_le_not_nan (a b : float) :
  f32_le a b = true -> IsNan a = false /\ IsNan b = false.
Proof. float_order; split; reflexivity. Qed.

Lemma f32_le_refl (a : float) : IsNan a = false -> f32_le a a = true.
Proof. float_order. Qed.

Lemma f32_lt_irrefl (a : float) : f32_lt a a = false.
Proof. float_order. Qed.

Lemma f32_lt_le (a b : float) : f32_lt a b = true -> f32_le a b = true.
Proof. float_order. Qed.

Lemma f32_not_lt_le (a b : float) :
  IsNan a = false -> IsNan b = false ->
  f32_lt a b = false -> f32_le b a = true.
Proof. float_order. Qed.

Lemma f32_lt_trans (a b c : float) :
  f32_lt a b = true -> f32_lt b c = true -> f32_lt a c = true.
Proof. float_order. Qed.

Lemma f32_le_trans (a b c : float) :
  f32_le a b = true -> f32_le b c = true -> f32_le a c = true.
Proof. float_order. Qed.

Lemma f32_lt_le_trans (a b c : float) :
  f32_lt a b = true -> f32_le b c = true -> f32_lt a c = true.
Proof. float_order. Qed.

Lemma f32_le_lt_trans (a b c : float) :
  f32_le a b = true -> f32_lt b c = true -> f32_lt a c = true.
Proof. float_order. Qed.

Lemma f32_le_not_lt (a b : float) :
  f32_le a b = true -> f32_lt b a = false.
Proof. float_order. Qed.

Lemma dir_le_refl (increasing : bool) (a : float) :
  IsNan a = false -> dir_le increasing a a = true.
Proof. destruct increasing; apply f32_le_refl. Qed.

Lemma dir_le_trans (increasing : bool) (a b c : float) :
  dir_le increasing a b = true -> dir_le increasing b c = true ->
  dir_le increasing a c = true.
Proof.
  destruct increasing; simpl; intros H1 H2.
  - eapply f32_le_trans; eassumption.
  - eapply f32_le_trans; eassumption.
Qed.

(** ** The flattening walk on a list of samples *)

Lemma flatten_list_length (increasing : bool) (l : list float) :
  forall prev, length (flatten_list increasing prev l) = length l.
Proof.
  induction l as [|v l IH]; intros prev; simpl; [reflexivity|].
  destruct (negb (eqb increasing (f32_gt v prev))); simpl; rewrite IH;
    reflexivity.
Qed.

Lemma flatten_list_take (increasing : bool) (l : list float) :
  forall prev k,
    take k (flatten_list increasing prev l)
    = flatten_list increasing prev (take k l).
Proof.
  induction l as [|v l IH]; intros prev [|k]; simpl; try reflexivity.
  destruct (negb (eqb increasing (f32_gt v prev))); simpl; rewrite IH;
    reflexivity.
Qed.

(** Flattening twice is flattening once. *)
Lemma flatten_list_idempotent (increasing : bool) (l : list float) :
  forall prev,
    flatten_list increasing prev (flatten_list increasing prev l)
    = flatten_list increasing prev l.
Proof.
  induction l as [|v l IH]; intros prev; simpl; [reflexivity|].
  destruct (negb (eqb increasing (f32_gt v prev))) eqn:E; simpl.
  - unfold f32_gt at 1. rewrite f32_lt_irrefl.
    destruct increasing; simpl; rewrite IH; reflexivity.
  - rewrite E. rewrite IH. reflexivity.
Qed.

Lemma flatten_list_constant (increasing : bool) (x : float) (n : nat) :
  flatten_list increasing x (replicate n x) = replicate n x.
Proof.
  induction n as [|n IH]; simpl; [reflexivity|].
  unfold f32_gt. rewrite f32_lt_irrefl.
  destruct increasing; simpl; rewrite IH; reflexivity.
Qed.

(** Every flattened sample comes after the seed, in the walk's direction. *)
Lemma flatten_list_after_seed (increasing : bool) (l : list float) :
  forall prev i y,
    IsNan prev = false ->
    Forall (fun v => IsNan v = false) l ->
    flatten_list increasing prev l !! i = Some y ->
    dir_le increasing prev y = true /\ IsNan y = false.
Proof.
  induction l as [|v l IH]; intros prev i y Hp Hl Hy; simpl in Hy.
  - destruct i; discriminate.
  - inversion Hl as [|? ? Hv Hl']; subst.
    destruct (negb (eqb increasing (f32_gt v prev))) eqn:E.
    + destruct i as [|i]; simpl in Hy.
      * inversion Hy; subst. split; [apply dir_le_refl|]; assumption.
      * eapply IH; eassumption.
    + assert (Hpv : dir_le increasing prev v = true).
      { apply negb_false_iff in E. apply eqb_prop in E.
        unfold f32_gt in E. destruct increasing; simpl.
        - apply f32_lt_le. symmetry. exact E.
        - apply f32_not_lt_le; [assumption|assumption|].
          symmetry. exact E. }
      destruct i as [|i]; simpl in Hy.
      * inversion Hy; subst. split; assumption.
      * destruct (IH v i y Hv Hl' Hy) as [H1 H2]. split; [|assumption].
        eapply dir_le_trans; eassumption.
Qed.

(** The flattened samples are weakly monotonic in the walk's direction. *)
Lemma flatten_list_sorted (increasing : bool) (l : list float) :
  forall prev i j x y,
    IsNan prev = false ->
    Forall (fun v => IsNan v = false) l ->
    (i <= j)%nat ->
    flatten_list increasing prev l !! i = Some x ->
    flatten_list increasing prev l !! j = Some y ->
    dir_le increasing x y = true.
Proof.
  induction l as [|v l IH]; intros prev i j x y Hp Hl Hij Hx Hy.
  - destruct i; discriminate.
  - inversion Hl as [|? ? Hv Hl']; subst. simpl in Hx, Hy.
    destruct (negb (eqb increasing (f32_gt v prev))) eqn:E.
    + destruct i as [|i], j as [|j]; simpl in Hx, Hy; try lia.
      * inversion Hx; inversion Hy; subst. apply dir_le_refl. assumption.
      * inversion Hx; subst.
        eapply flatten_list_after_seed; eassumption.
      * eapply (IH prev i j); try eassumption. lia.
    + destruct i as [|i], j as [|j]; simpl in Hx, Hy; try lia.
      * inversion Hx; inversion Hy; subst. apply dir_le_refl. assumption.
      * inversion Hx; subst.
        eapply flatten_list_after_seed; eassumption.
      * eapply (IH v i j); try eassumption. lia.
Qed.

(** The direction read from the seed and one sample is read again from
    the seed and the flattened sample. *)
Lemma flatten_list_keeps_increasing (l : list float) :
  forall seed prev i x y,
    f32_le seed prev = true ->
    l !! i = Some x -> f32_lt seed x = true ->
    flatten_list true prev l !! i = Some y ->
    f32_lt seed y = true.
Proof.
  induction l as [|v l IH]; intros seed prev i x y Hsp Hx Hlt Hy.
  - destruct i; discriminate.
  - simpl in Hy. change (f32_gt v prev) with (f32_lt prev v) in Hy.
    destruct (f32_lt prev v) eqn:E; simpl in Hy.
    + destruct i as [|i]; simpl in Hx, Hy.
      * inversion Hx; inversion Hy; subst. assumption.
      * eapply (IH seed v i); try eassumption.
        eapply f32_le_trans; [eassumption|]. apply f32_lt_le. assumption.
    + destruct i as [|i]; simpl in Hx, Hy.
      * inversion Hx; inversion Hy; subst.
        eapply f32_lt_le_trans; [eassumption|].
        destruct (f32_lt_not_nan _ _ Hlt) as [_ Hn].
        destruct (f32_le_not_nan _ _ Hsp) as [_ Hn'].
        apply f32_not_lt_le; assumption.
      * eapply (IH seed prev i); eassumption.
Qed.

Lemma flatten_list_keeps_not_increasing (l : list float) :
  forall seed prev i x y,
    l !! i = Some x -> f32_lt seed x = false ->
    flatten_list false prev l !! i = Some y ->
    f32_lt seed y = false.
Proof.
  induction l as [|v l IH]; intros seed prev i x y Hx Hlt Hy.
  - destruct i; discriminate.
  - simpl in Hy. change (f32_gt v prev) with (f32_lt prev v) in Hy.
    destruct (f32_lt prev v) eqn:E; simpl in Hy.
    + destruct i as [|i]; simpl in Hx, Hy.
      * inversion Hx; inversion Hy; subst.
        destruct (f32_lt seed y) eqn:E'; [|reflexivity].
        rewrite (f32_lt_trans _ _ _ E' E) in Hlt. discriminate.
      * eapply (IH seed prev i); eassumption.
    + destruct i as [|i]; simpl in Hx, Hy.
      * inversion Hx; inversion Hy; subst. assumption.
      * eapply (IH seed v i); eassumption.
Qed.

Lemma flatten_list_keeps_direction (l : list float) (seed : float)
    (i : nat) (x y : float) :
  l !! i = Some x ->
  flatten_list (f32_lt seed x) seed l !! i = Some y ->
  f32_lt seed y = f32_lt seed x.
Proof.
  intros Hx Hy. destruct (f32_lt seed x) eqn:E.
  - apply (flatten_list_keeps_increasing l seed seed i x y); try assumption.
    apply f32_le_refl. apply (f32_lt_not_nan _ _ E).
  - apply (flatten_list_keeps_not_increasing l seed seed i x y); assumption.
Qed.

(** ** Strided reads and writes *)

Lemma gather_length (values : list float) (step : Z) (n : nat) :
  forall idx, length (gather values idx step n) = n.
Proof.
  induction n as [|n IH]; intros idx; simpl; [|rewrite IH]; reflexivity.
Qed.

Lemma gather_lookup (values : list float) (step : Z) (n : nat) :
  forall idx k,
    (k < n)%nat ->
    gather values idx step n !! k
    = Some (vget values (idx + step * Z.of_nat k)).
Proof.
  induction n as [|n IH]; intros idx k Hk; [lia|].
  destruct k as [|k]; simpl.
  - f_equal. f_equal. lia.
  - rewrite IH by lia. f_equal. f_equal. lia.
Qed.

Lemma gather_ext (v w : list float) (step : Z) (n : nat) :
  forall idx,
    (forall k, (k < n)%nat ->
       vget v (idx + step * Z.of_nat k) = vget w (idx + step * Z.of_nat k)) ->
    gather v idx step n = gather w idx step n.
Proof.
  induction n as [|n IH]; intros idx H; simpl; [reflexivity|].
  f_equal.
  - specialize (H O). rewrite Z.mul_0_r, Z.add_0_r in H. apply H. lia.
  - apply IH. intros k Hk. specialize (H (S k)).
    replace (idx + step + step * Z.of_nat k)
      with (idx + step * Z.of_nat (S k)) by lia.
    apply H. lia.
Qed.

Lemma gather_constant (values : list float) (step : Z) (n : nat) (x : float) :
  forall idx,
    (forall k, (k < n)%nat -> vget values (idx + step * Z.of_nat k) = x) ->
    gather values idx step n = replicate n x.
Proof.
  induction n as [|n IH]; intros idx H; simpl; [reflexivity|].
  f_equal.
  - specialize (H O). rewrite Z.mul_0_r, Z.add_0_r in H. apply H. lia.
  - apply IH. intros k Hk. specialize (H (S k)).
    replace (idx + step + step * Z.of_nat k)
      with (idx + step * Z.of_nat (S k)) by lia.
    apply H. lia.
Qed.

Lemma gather_take (values : list float) (step : Z) (n : nat) :
  forall idx k,
    (k <= n)%nat ->
    take k (gather values idx step n) = gather values idx step k.
Proof.
  induction n as [|n IH]; intros idx [|k] Hk; simpl; try reflexivity; [lia|].
  rewrite IH by lia. reflexivity.
Qed.

Lemma scatter_length (step : Z) (l : list float) :
  forall values idx, length (scatter values idx step l) = length values.
Proof.
  induction l as [|x l IH]; intros values idx; simpl; [reflexivity|].
  rewrite IH. apply vset_length.
Qed.

(** A place that the strided write does not visit keeps its value. *)
Lemma vget_scatter_other (step : Z) (l : list float) :
  forall values idx j,
    0 <= idx -> 0 < step -> 0 <= j ->
    (forall k, (k < length l)%nat -> j <> idx + step * Z.of_nat k) ->
    vget (scatter values idx step l) j = vget values j.
Proof.
  induction l as [|x l IH]; intros values idx j Hidx Hstep Hj Hne; simpl;
    [reflexivity|].
  rewrite IH; [| lia | lia | lia |].
  - apply vget_vset_ne; [lia|lia|].
    specialize (Hne O). simpl in Hne. lia.
  - intros k Hk. specialize (Hne (S k)). simpl in Hne. lia.
Qed.

(** A place that the strided write visits holds the sample written. *)
Lemma vget_scatter_hit (step : Z) (l : list float) :
  forall values idx k x,
    0 <= idx -> 0 < step ->
    idx + step * Z.of_nat (length l) <= Z.of_nat (length values) + step - 1 ->
    l !! k = Some x ->
    vget (scatter values idx step l) (idx + step * Z.of_nat k) = x.
Proof.
  induction l as [|y l IH]; intros values idx k x Hidx Hstep Hlen Hk.
  - destruct k; discriminate.
  - simpl in Hlen. destruct k as [|k]; simpl in Hk |- *.
    + inversion Hk; subst.
      rewrite vget_scatter_other; [| lia | lia | lia |].
      * replace (idx + step * Z.of_nat 0) with idx by lia.
        apply vget_vset_eq; lia.
      * intros k Hk'. nia.
    + replace (idx + step * Z.of_nat (S k))
        with ((idx + step) + step * Z.of_nat k) by lia.
      apply IH; [lia|lia| |assumption].
      rewrite vset_length. lia.
Qed.

Lemma gather_scatter (step : Z) (l : list float) (values : list float)
    (idx : Z) :
  0 <= idx -> 0 < step ->
  idx + step * Z.of_nat (length l) <= Z.of_nat (length values) + step - 1 ->
  gather (scatter values idx step l) idx step (length l) = l.
Proof.
  intros Hidx Hstep Hlen.
  apply list_eq. intros k.
  destruct (l !! k) as [x|] eqn:E.
  - rewrite gather_lookup by (apply lookup_lt_Some in E; lia).
    f_equal. apply vget_scatter_hit; assumption.
  - apply lookup_ge_None. rewrite gather_length.
    apply lookup_ge_None in E. lia.
Qed.

Lemma scatter_gather (step : Z) (n : nat) :
  forall values idx,
    0 <= idx -> 0 < step ->
    scatter values idx step (gather values idx step n) = values.
Proof.
  induction n as [|n IH]; intros values idx Hidx Hstep; simpl; [reflexivity|].
  rewrite vset_vget_id. apply IH; lia.
Qed.

Lemma gather_vset_before (step : Z) (n : nat) :
  forall values i x idx,
    0 <= i -> i < idx -> 0 <= step ->
    gather (vset values i x) idx step n = gather values idx step n.
Proof.
  intros values i x idx Hi Hlt Hstep. apply gather_ext.
  intros k Hk. apply vget_vset_ne; lia.
Qed.

(** The flattening loop, turn by turn, is the list walk written back. *)
Lemma for_n_flatten (increasing : bool) (step : Z) (n : nat) :
  forall idx prev values,
    0 <= idx -> 0 < step ->
    snd (for_n n idx step (flatten_step increasing) (prev, values))
    = scatter values idx step
        (flatten_list increasing prev (gather values idx step n)).
Proof.
  induction n as [|n IH]; intros idx prev values Hidx Hstep; simpl;
    [reflexivity|].
  destruct (negb (eqb increasing (f32_gt (vget values idx) prev))) eqn:E;
    simpl.
  - rewrite IH by lia. rewrite gather_vset_before by lia. reflexivity.
  - rewrite IH by lia. rewrite vset_vget_id. reflexivity.
Qed.

Lemma for_lt_flatten (increasing : bool) (start stop : Z) (prev : float)
    (values : list float) :
  0 <= start ->
  snd (for_lt start stop 3 (flatten_step increasing) (prev, values))
  = scatter values start 3
      (flatten_list increasing prev
         (gather values start 3 (Z.to_nat ((stop - start + 2) / 3)))).
Proof.
  intros Hstart.
  rewrite (for_lt_for_n (Z.to_nat ((stop - start + 2) / 3))).
  - apply for_n_flatten; lia.
  - lia.
  - f_equal. f_equal. lia.
Qed.

(** ** The flattening of one channel *)

Lemma prepareChannel_values (halfDomain : bool) (length c : Z)
    (props : ComponentArray) (values : list float) :
  snd (prepareChannel halfDomain length 3 c (props, values))
  = flattenChannel halfDomain length c values.
Proof.
  unfold prepareChannel, flattenChannel, detectIncreasing.
  destruct halfDomain; reflexivity.
Qed.

Lemma flattenReversals_standard (length c : Z) (increasing : bool)
    (values : list float) :
  0 <= c < 3 ->
  flattenReversals false length 3 c increasing values
  = walk increasing (vget values c) values (c + 3) (Z.to_nat (length - 1)).
Proof.
  intros Hc. unfold flattenReversals, walk. simpl negb. cbv iota.
  rewrite for_lt_flatten by lia.
  replace ((length * 3 - (c + 3) + 2) / 3) with (length - 1).
  - reflexivity.
  - apply (Z.div_unique _ 3 (length - 1) (2 - c)); lia.
Qed.

Lemma flattenReversals_half (length c : Z) (increasing : bool)
    (values : list float) :
  0 <= c < 3 ->
  flattenReversals true length 3 c increasing values
  = let v1 := walk increasing (vget values c) values (c + 3) (posRows c) in
    walk (negb increasing) (vget v1 c) v1 (98304 + c) (negRows c).
Proof.
  intros Hc. unfold flattenReversals, walk, posRows, negRows.
  simpl negb. cbv iota. cbv zeta.
  change (0 * 3 + c) with c.
  rewrite !for_lt_flatten by lia.
  replace (31744 * 3 + 1 - (c + 3) + 2) with (95232 - c) by lia.
  replace (64512 * 3 + 1 - (32768 * 3 + c) + 2) with (95235 - c) by lia.
  replace (32768 * 3 + c) with (98304 + c) by lia.
  reflexivity.
Qed.

Lemma walk_length (increasing : bool) (prev : float) (values : list float)
    (start : Z) (n : nat) :
  length (walk increasing prev values start n) = length values.
Proof. unfold walk. apply scatter_length. Qed.

(** A walk writes only at [start + 3 k] for [k < n]. *)
Lemma vget_walk_other (increasing : bool) (prev : float)
    (values : list float) (start : Z) (n : nat) (j : Z) :
  0 <= start -> 0 <= j ->
  (forall k, (k < n)%nat -> j <> start + 3 * Z.of_nat k) ->
  vget (walk increasing prev values start n) j = vget values j.
Proof.
  intros Hs Hj Hne. unfold walk.
  apply vget_scatter_other; [lia|lia|lia|].
  intros k Hk. apply Hne.
  rewrite flatten_list_length, gather_length in Hk. exact Hk.
Qed.

(** What a walk leaves at the places it visits. *)
Lemma gather_walk (increasing : bool) (prev : float) (values : list float)
    (start : Z) (n : nat) :
  0 <= start ->
  start + 3 * Z.of_nat n <= Z.of_nat (length values) + 2 ->
  gather (walk increasing prev values start n) start 3 n
  = flatten_list increasing prev (gather values start 3 n).
Proof.
  intros Hs Hlen. unfold walk.
  set (l := flatten_list increasing prev (gather values start 3 n)).
  assert (Hl : length l = n).
  { unfold l. rewrite flatten_list_length. apply gather_length. }
  assert (G : gather (scatter values start 3 l) start 3 (length l) = l).
  { apply gather_scatter; [lia|lia|]. rewrite Hl. lia. }
  rewrite Hl in G. exact G.
Qed.

Lemma walk_settled (increasing : bool) (prev : float) (values : list float)
    (start : Z) (n : nat) :
  0 <= start ->
  settled_walk increasing prev values start n ->
  walk increasing prev values start n = values.
Proof.
  intros Hs H. unfold walk. rewrite H. apply scatter_gather; lia.
Qed.

Lemma flattenChannel_length (halfDomain : bool) (length0 c : Z)
    (values : list float) :
  0 <= c < 3 ->
  length (flattenChannel halfDomain length0 c values) = length values.
Proof.
  intros Hc. unfold flattenChannel. destruct halfDomain.
  - rewrite flattenReversals_half by assumption. cbv zeta.
    rewrite !walk_length. reflexivity.
  - rewrite flattenReversals_standard by assumption. apply walk_length.
Qed.

(** The flattening of channel [c] writes in channel [c] only, and never in
    row 0. *)
Lemma vget_flattenChannel_other (halfDomain : bool) (length c : Z)
    (values : list float) (j : Z) :
  0 <= c < 3 -> 0 <= j ->
  (j = c \/ j mod 3 <> c) ->
  vget (flattenChannel halfDomain length c values) j = vget values j.
Proof.
  intros Hc Hj Hother. unfold flattenChannel. destruct halfDomain.
  - rewrite flattenReversals_half by assumption. cbv zeta.
    rewrite !vget_walk_other; try lia; try reflexivity.
    + intros k Hk. destruct Hother as [->|Hm]; [lia|].
      intros ->. apply Hm.
      replace (c + 3 + 3 * Z.of_nat k) with (c + (1 + Z.of_nat k) * 3) by lia.
      rewrite Z.mod_add by lia. apply Z.mod_small. lia.
    + intros k Hk. destruct Hother as [->|Hm]; [lia|].
      intros ->. apply Hm.
      replace (98304 + c + 3 * Z.of_nat k)
        with (c + (32768 + Z.of_nat k) * 3) by lia.
      rewrite Z.mod_add by lia. apply Z.mod_small. lia.
  - rewrite flattenReversals_standard by assumption.
    apply vget_walk_other; [lia|lia|].
    intros k Hk. destruct Hother as [->|Hm]; [lia|].
    intros ->. apply Hm.
    replace (c + 3 + 3 * Z.of_nat k) with (c + (1 + Z.of_nat k) * 3) by lia.
    rewrite Z.mod_add by lia. apply Z.mod_small. lia.
Qed.

(** ** Settled channels *)

Lemma posRows_spec (c : Z) :
  0 <= c < 3 ->
  3 * Z.of_nat (posRows c) <= 95232 - c < 3 * Z.of_nat (posRows c) + 3.
Proof.
  intros Hc. unfold posRows.
  assert (H := Z.div_mod (95232 - c) 3 ltac:(lia)).
  assert (H' := Z.mod_pos_bound (95232 - c) 3 ltac:(lia)).
  assert (0 <= (95232 - c) / 3) by (apply Z.div_pos; lia).
  rewrite Z2Nat.id by assumption. lia.
Qed.

Lemma negRows_spec (c : Z) :
  0 <= c < 3 ->
  3 * Z.of_nat (negRows c) <= 95235 - c < 3 * Z.of_nat (negRows c) + 3.
Proof.
  intros Hc. unfold negRows.
  assert (H := Z.div_mod (95235 - c) 3 ltac:(lia)).
  assert (H' := Z.mod_pos_bound (95235 - c) 3 ltac:(lia)).
  assert (0 <= (95235 - c) / 3) by (apply Z.div_pos; lia).
  rewrite Z2Nat.id by assumption. lia.
Qed.

Lemma settled_fixed (halfDomain : bool) (length c : Z) (values : list float) :
  0 <= c < 3 ->
  settled halfDomain length c values ->
  flattenChannel halfDomain length c values = values.
Proof.
  intros Hc H. unfold flattenChannel, settled in *. destruct halfDomain.
  - destruct H as [Hpos Hneg].
    rewrite flattenReversals_half by assumption. cbv zeta.
    rewrite (walk_settled _ _ values (c + 3)) by (lia || assumption).
    apply walk_settled; [lia|assumption].
  - rewrite flattenReversals_standard by assumption.
    apply walk_settled; [lia|assumption].
Qed.

(** Being settled depends on the samples of the channel only. *)
Lemma settled_ext (halfDomain : bool) (length c : Z) (v w : list float) :
  0 <= c < 3 -> 1 <= length ->
  (forall row, 0 <= row -> vget v (3 * row + c) = vget w (3 * row + c)) ->
  settled halfDomain length c v -> settled halfDomain length c w.
Proof.
  intros Hc Hlen Hext.
  assert (Hseed : vget v c = vget w c).
  { specialize (Hext 0). replace (3 * 0 + c) with c in Hext by lia.
    apply Hext. lia. }
  assert (Hdir : detectIncreasing halfDomain length c v
                 = detectIncreasing halfDomain length c w).
  { unfold detectIncreasing. destruct halfDomain.
    - change (0 * 3 + c) with c. rewrite Hseed.
      replace (15360 * 3 + c) with (3 * 15360 + c) by lia.
      rewrite Hext by lia. reflexivity.
    - rewrite Hseed.
      replace ((length - 1) * 3 + c) with (3 * (length - 1) + c) by lia.
      rewrite Hext by lia. reflexivity. }
  assert (Hpos : forall n, gather v (c + 3) 3 n = gather w (c + 3) 3 n).
  { intros n. apply gather_ext. intros k _.
    replace (c + 3 + 3 * Z.of_nat k) with (3 * (1 + Z.of_nat k) + c) by lia.
    apply Hext. lia. }
  assert (Hneg : forall n,
             gather v (98304 + c) 3 n = gather w (98304 + c) 3 n).
  { intros n. apply gather_ext. intros k _.
    replace (98304 + c + 3 * Z.of_nat k)
      with (3 * (32768 + Z.of_nat k) + c) by lia.
    apply Hext. lia. }
  unfold settled, settled_walk. rewrite Hdir, Hseed.
  destruct halfDomain; rewrite ?Hpos, ?Hneg; intros H; exact H.
Qed.

(** The flattening of a channel keeps the direction read for it, and
    settles it. *)
Lemma flattened_standard (length c : Z) (values : list float) :
  0 <= c < 3 -> 1 <= length ->
  Z.of_nat (List.length values) = length * 3 ->
  detectIncreasing false length c (flattenChannel false length c values)
  = detectIncreasing false length c values
  /\ settled false length c (flattenChannel false length c values).
Proof.
  intros Hc Hlen Hsize.
  unfold flattenChannel. rewrite flattenReversals_standard by assumption.
  set (inc := detectIncreasing false length c values).
  set (seed := vget values c).
  set (n := Z.to_nat (length - 1)).
  set (X := walk inc seed values (c + 3) n).
  assert (Hseed : vget X c = seed).
  { unfold X. apply vget_walk_other; [lia|lia|]. intros k _. lia. }
  assert (Hg : gather X (c + 3) 3 n
               = flatten_list inc seed (gather values (c + 3) 3 n)).
  { unfold X. apply gather_walk; [lia|]. unfold n. lia. }
  assert (Hdir : detectIncreasing false length c X = inc).
  { unfold detectIncreasing. rewrite Hseed.
    destruct (Z.eq_dec length 1) as [->|Hne].
    - change ((1 - 1) * 3 + c) with c. rewrite Hseed.
      unfold inc, detectIncreasing. change ((1 - 1) * 3 + c) with c.
      rewrite !f32_lt_irrefl. reflexivity.
    - set (k := Z.to_nat (length - 2)).
      assert (Hk : (k < n)%nat) by (unfold k, n; lia).
      assert (Hi : (length - 1) * 3 + c = c + 3 + 3 * Z.of_nat k)
        by (unfold k; lia).
      assert (Hx : gather values (c + 3) 3 n !! k
                   = Some (vget values ((length - 1) * 3 + c))).
      { rewrite gather_lookup by assumption. rewrite Hi. reflexivity. }
      assert (Hy : flatten_list inc seed (gather values (c + 3) 3 n) !! k
                   = Some (vget X ((length - 1) * 3 + c))).
      { rewrite <- Hg. rewrite gather_lookup by assumption.
        rewrite Hi. reflexivity. }
      unfold inc, detectIncreasing in Hy |- *. fold seed in Hy |- *.
      apply (flatten_list_keeps_direction _ _ _ _ _ Hx Hy). }
  split; [exact Hdir|].
  unfold settled, settled_walk. cbv zeta iota. fold n.
  rewrite Hdir, Hseed, Hg.
  apply flatten_list_idempotent.
Qed.

Lemma flattened_half (c : Z) (values : list float) :
  0 <= c < 3 ->
  Z.of_nat (List.length values) = 65536 * 3 ->
  detectIncreasing true 65536 c (flattenChannel true 65536 c values)
  = detectIncreasing true 65536 c values
  /\ settled true 65536 c (flattenChannel true 65536 c values).
Proof.
  intros Hc Hsize.
  pose proof (posRows_spec c Hc) as HP.
  pose proof (negRows_spec c Hc) as HN.
  unfold flattenChannel. rewrite flattenReversals_half by assumption.
  cbv zeta.
  set (inc := detectIncreasing true 65536 c values).
  set (seed := vget values c).
  set (X1 := walk inc seed values (c + 3) (posRows c)).
  assert (Hseed1 : vget X1 c = seed).
  { unfold X1. apply vget_walk_other; [lia|lia|]. intros k _. lia. }
  rewrite Hseed1.
  set (X := walk (negb inc) seed X1 (98304 + c) (negRows c)).
  assert (Hlen1 : List.length X1 = List.length values)
    by (unfold X1; apply walk_length).
  assert (Hseed : vget X c = seed).
  { unfold X. rewrite vget_walk_other; [assumption|lia|lia|].
    intros k _. lia. }
  assert (Hg1 : gather X1 (c + 3) 3 (posRows c)
                = flatten_list inc seed (gather values (c + 3) 3 (posRows c))).
  { unfold X1. apply gather_walk; lia. }
  assert (Hgpos : gather X (c + 3) 3 (posRows c)
                  = gather X1 (c + 3) 3 (posRows c)).
  { apply gather_ext. intros k Hk. unfold X.
    apply vget_walk_other; [lia|lia|]. intros k' _. lia. }
  assert (Hgneg : gather X (98304 + c) 3 (negRows c)
                  = flatten_list (negb inc) seed
                      (gather X1 (98304 + c) 3 (negRows c))).
  { unfold X. apply gather_walk; lia. }
  assert (Hdir : detectIncreasing true 65536 c X = inc).
  { unfold detectIncreasing. change (0 * 3 + c) with c. rewrite Hseed.
    set (k := Z.to_nat 15359).
    assert (Hk0 : Z.of_nat k = 15359) by (unfold k; lia).
    clearbody k.
    assert (Hk : (k < posRows c)%nat) by lia.
    assert (Hi : 15360 * 3 + c = c + 3 + 3 * Z.of_nat k) by lia.
    assert (Hx : gather values (c + 3) 3 (posRows c) !! k
                 = Some (vget values (15360 * 3 + c))).
    { rewrite gather_lookup by assumption. rewrite Hi. reflexivity. }
    assert (Hy : flatten_list inc seed (gather values (c + 3) 3 (posRows c))
                   !! k
                 = Some (vget X (15360 * 3 + c))).
    { rewrite <- Hg1, <- Hgpos. rewrite gather_lookup by assumption.
      rewrite Hi. reflexivity. }
    unfold inc, detectIncreasing in Hy |- *.
    change (0 * 3 + c) with c in Hy |- *. fold seed in Hy |- *.
    apply (flatten_list_keeps_direction _ _ _ _ _ Hx Hy). }
  split; [exact Hdir|].
  unfold settled, settled_walk. cbv zeta iota. rewrite Hdir, Hseed. split.
  - rewrite Hgpos, Hg1. apply flatten_list_idempotent.
  - rewrite Hgneg. apply flatten_list_idempotent.
Qed.

(** ** The loop over the active channels *)

Lemma for_n_snd {A B : Type} (body : Z -> A * B -> A * B) (g : Z -> B -> B)
    (n : nat) :
  (forall i s, snd (body i s) = g i (snd s)) ->
  forall idx step s,
    snd (for_n n idx step body s) = for_n n idx step g (snd s).
Proof.
  intros Hbody. induction n as [|n IH]; intros idx step s; simpl;
    [reflexivity|].
  rewrite IH, Hbody. reflexivity.
Qed.

Lemma prepare_loop_values (halfDomain : bool) (length activeChannels : Z)
    (props : ComponentArray) (values : list float) :
  snd (for_lt 0 activeChannels 1 (prepareChannel halfDomain length 3)
         (props, values))
  = prepareValues halfDomain length activeChannels values.
Proof.
  unfold prepareValues.
  rewrite !(for_lt_for_n (Z.to_nat ((activeChannels - 0 + 1 - 1) / 1)))
    by (lia || reflexivity).
  rewrite (for_n_snd _ (flattenChannel halfDomain length)); [reflexivity|].
  intros i [p v]. apply prepareChannel_values.
Qed.

Lemma prepareArray_core_values (halfFlags : HalfFlags) (a : Array)
    (props : ComponentArray) :
  m_data (fst (prepareArray_core halfFlags a props))
  = prepareValues (IsInputHalfDomain halfFlags) (m_length a)
      (m_numColorComponents a) (m_data a).
Proof.
  unfold prepareArray_core, getLength, getNumColorComponents, getValues,
    getMaxColorComponents.
  rewrite <- (prepare_loop_values _ _ _ props).
  destruct (for_lt 0 (m_numColorComponents a) 1
              (prepareChannel (IsInputHalfDomain halfFlags) (m_length a) 3)
              (props, m_data a)) as [p v].
  reflexivity.
Qed.

Lemma prepareArray_core_dims (halfFlags : HalfFlags) (a : Array)
    (props : ComponentArray) :
  m_length (fst (prepareArray_core halfFlags a props)) = m_length a
  /\ m_numColorComponents (fst (prepareArray_core halfFlags a props))
     = m_numColorComponents a.
Proof.
  unfold prepareArray_core.
  destruct (for_lt 0 (getNumColorComponents a) 1 _ _) as [p v].
  split; reflexivity.
Qed.

Lemma flattened (halfDomain : bool) (length c : Z) (values : list float) :
  0 <= c < 3 -> valid_sizes halfDomain length values ->
  detectIncreasing halfDomain length c
    (flattenChannel halfDomain length c values)
  = detectIncreasing halfDomain length c values
  /\ settled halfDomain length c (flattenChannel halfDomain length c values).
Proof.
  intros Hc (Hsize & Hlen & Hhalf). destruct halfDomain.
  - rewrite (Hhalf eq_refl) in *. apply flattened_half; assumption.
  - apply flattened_standard; assumption.
Qed.

Lemma settled_after (halfDomain : bool) (length c : Z) (values : list float) :
  0 <= c < 3 -> valid_sizes halfDomain length values ->
  settled halfDomain length c (flattenChannel halfDomain length c values).
Proof. intros Hc Hvalid. apply flattened; assumption. Qed.

(** After the loop every active channel is settled. *)
Lemma prepareValues_settled (halfDomain : bool) (length activeChannels : Z)
    (values : list float) :
  0 <= activeChannels <= 3 ->
  valid_sizes halfDomain length values ->
  let values' := prepareValues halfDomain length activeChannels values in
  List.length values' = List.length values
  /\ forall c, 0 <= c < activeChannels -> settled halfDomain length c values'.
Proof.
  intros Hnc Hvalid. cbv zeta. unfold prepareValues.
  apply (for_lt_invariant
           (fun i v => List.length v = List.length values
                       /\ forall c, 0 <= c < i ->
                                    settled halfDomain length c v)).
  - lia.
  - split; [reflexivity|]. intros c Hc. lia.
  - intros i v Hi0 Hi1 [Hlen Hset]. split.
    + rewrite flattenChannel_length by lia. assumption.
    + intros c Hc.
      assert (Hv : valid_sizes halfDomain length v).
      { destruct Hvalid as (H1 & H2 & H3). repeat split; try assumption.
        rewrite Hlen. assumption. }
      destruct (Z.eq_dec c i) as [->|Hne].
      * apply settled_after; [lia|assumption].
      * apply (settled_ext _ _ _ v); [lia|apply Hvalid| |apply Hset; lia].
        intros row Hrow. symmetry.
        apply vget_flattenChannel_other; [lia|lia|].
        right. rewrite Z.add_comm, Z.mul_comm, Z.mod_add by lia.
        rewrite Z.mod_small by lia. assumption.
Qed.

(** Preparing again, over the same channels or fewer, changes no value. *)
Lemma prepareValues_idempotent (halfDomain : bool)
    (length activeChannels activeChannels' : Z) (values : list float) :
  0 <= activeChannels <= 3 ->
  activeChannels' <= activeChannels ->
  valid_sizes halfDomain length values ->
  prepareValues halfDomain length activeChannels'
    (prepareValues halfDomain length activeChannels values)
  = prepareValues halfDomain length activeChannels values.
Proof.
  intros Hnc Hnc' Hvalid.
  destruct (prepareValues_settled halfDomain length activeChannels values
              Hnc Hvalid) as [_ Hset].
  set (v' := prepareValues halfDomain length activeChannels values) in *.
  destruct (Z.le_gt_cases activeChannels' 0) as [Hle|Hgt].
  - unfold prepareValues at 1. apply for_lt_done. assumption.
  - unfold prepareValues at 1.
    apply (for_lt_invariant (fun i v => v = v')).
    + lia.
    + reflexivity.
    + intros i v Hi0 Hi1 ->. apply settled_fixed; [lia|]. apply Hset. lia.
Qed.

(** ** Validation and finalization *)

Lemma Array_validate_ok (a : Array) :
  Array_validate a = OK tt <->
  m_length a <> 0 /\ Z.of_nat (List.length (m_data a)) = m_length a * 3.
Proof.
  unfold Array_validate, getNumValues, getLength, getMaxColorComponents.
  destruct (Z.eqb_spec (m_length a) 0) as [H0|H0].
  - split; [discriminate|]. intros [H _]. contradiction.
  - destruct (Z.eqb_spec (Z.of_nat (List.length (m_data a))) (m_length a * 3)).
    + split; [intros _; split; assumption|reflexivity].
    + split; [discriminate|]. intros [_ H]. contradiction.
Qed.

Lemma Array_validate_cases (a : Array) :
  Array_validate a = OK tt \/ throws (Array_validate a).
Proof.
  unfold Array_validate, throws.
  destruct (getLength a =? 0); [right; eauto|].
  destruct (_ =? _); [left; reflexivity|right; eauto].
Qed.

Lemma validate_ok (L : Lut1DOpData) :
  validate L = OK tt <->
  IsValid (m_interpolation L) = true
  /\ Array_validate (m_array L) = OK tt
  /\ (isInputHalfDomain L = true -> m_length (m_array L) = 65536).
Proof.
  unfold validate, OpData_validate, bind, getArray, getLength,
    HALF_DOMAIN_REQUIRED_ENTRIES.
  destruct (IsValid (m_interpolation L)); simpl.
  2: { split; [discriminate|]. intros [H _]. discriminate. }
  destruct (Array_validate (m_array L)) as [[]|what].
  2: { split; [discriminate|]. intros (_ & H & _). discriminate. }
  destruct (isInputHalfDomain L); simpl.
  - destruct (Z.eqb_spec (m_length (m_array L)) 65536); simpl.
    + split; [intros _; repeat split; auto|reflexivity].
    + split; [discriminate|]. intros (_ & _ & H). specialize (H eq_refl).
      contradiction.
  - split; [intros _; repeat split; auto; discriminate|reflexivity].
Qed.

Lemma validate_cases (L : Lut1DOpData) :
  validate L = OK tt \/ throws (validate L).
Proof.
  unfold validate, OpData_validate, bind, throws.
  destruct (negb _); [right; eauto|].
  destruct (Array_validate _) as [[]|what]; [|right; eauto].
  destruct (_ && _); [right; eauto|left; reflexivity].
Qed.

Lemma finalize_unfold (L : Lut1DOpData) :
  finalize L
  = do _ <- validate (finalize_prepared L);
    OK (setCacheID (finalize_prepared L) (cacheID_of (finalize_prepared L))).
Proof. reflexivity. Qed.

Lemma finalize_ok (L L1 : Lut1DOpData) :
  finalize L = OK L1 <->
  validate (finalize_prepared L) = OK tt
  /\ L1 = setCacheID (finalize_prepared L) (cacheID_of (finalize_prepared L)).
Proof.
  rewrite finalize_unfold. unfold bind.
  destruct (validate (finalize_prepared L)) as [[]|what].
  - split.
    + intros H. inversion H. split; reflexivity.
    + intros [_ ->]. reflexivity.
  - split; [discriminate|]. intros [H _]. discriminate.
Qed.

Lemma prepareArray_core_array (halfFlags : HalfFlags) (a : Array)
    (props : ComponentArray) :
  fst (prepareArray_core halfFlags a props)
  = {| m_length := m_length a;
       m_numColorComponents := m_numColorComponents a;
       m_data := prepareValues (IsInputHalfDomain halfFlags) (m_length a)
                   (m_numColorComponents a) (m_data a) |}.
Proof.
  pose proof (prepareArray_core_values halfFlags a props) as Hv.
  pose proof (prepareArray_core_dims halfFlags a props) as [Hl Hn].
  destruct (fst (prepareArray_core halfFlags a props)) as [l n d].
  simpl in *. subst. reflexivity.
Qed.

Lemma prepareArray_array (L : Lut1DOpData) :
  m_array (prepareArray L)
  = {| m_length := m_length (m_array L);
       m_numColorComponents := m_numColorComponents (m_array L);
       m_data := prepareValues (isInputHalfDomain L) (m_length (m_array L))
                   (m_numColorComponents (m_array L)) (m_data (m_array L)) |}.
Proof.
  unfold prepareArray, getArray, isInputHalfDomain.
  rewrite <- (prepareArray_core_array _ _ (m_componentProperties L)).
  destruct (prepareArray_core _ _ _) as [a p]. reflexivity.
Qed.

Lemma prepareArray_flags (L : Lut1DOpData) :
  m_halfFlags (prepareArray L) = m_halfFlags L
  /\ m_direction (prepareArray L) = m_direction L
  /\ m_interpolation (prepareArray L) = m_interpolation L
  /\ m_hueAdjust (prepareArray L) = m_hueAdjust L
  /\ m_invQuality (prepareArray L) = m_invQuality L
  /\ m_metadata (prepareArray L) = m_metadata L.
Proof.
  unfold prepareArray. destruct (prepareArray_core _ _ _) as [a p].
  repeat split; reflexivity.
Qed.

Lemma prepareValues_length (halfDomain : bool) (length activeChannels : Z)
    (values : list float) :
  0 <= activeChannels <= 3 ->
  List.length (prepareValues halfDomain length activeChannels values)
  = List.length values.
Proof.
  intros Hnc. unfold prepareValues.
  apply (for_lt_invariant (fun i v => List.length v = List.length values)).
  - lia.
  - reflexivity.
  - intros i v Hi0 Hi1 Hlen. rewrite flattenChannel_length by lia.
    assumption.
Qed.

Lemma adjustColorComponentNumber_fields (a : Array) :
  m_length (adjustColorComponentNumber a) = m_length a
  /\ m_data (adjustColorComponentNumber a) = m_data a
  /\ (m_numColorComponents (adjustColorComponentNumber a)
      = m_numColorComponents a
      \/ (m_numColorComponents a = 3
          /\ m_numColorComponents (adjustColorComponentNumber a) = 1)).
Proof.
  unfold adjustColorComponentNumber, getNumColorComponents.
  destruct (Z.eqb_spec (m_numColorComponents a) 3) as [H3|H3]; simpl.
  - destruct (rows_identical a); simpl; auto.
  - auto.
Qed.

Lemma adjustColorComponentNumber_idempotent (a : Array) :
  adjustColorComponentNumber (adjustColorComponentNumber a)
  = adjustColorComponentNumber a.
Proof.
  unfold adjustColorComponentNumber.
  destruct ((getNumColorComponents a =? 3) && rows_identical a) eqn:E.
  - reflexivity.
  - rewrite E. reflexivity.
Qed.

(** ** A second finalization *)

Lemma Array_eta (a : Array) :
  a = {| m_length := m_length a;
         m_numColorComponents := m_numColorComponents a;
         m_data := m_data a |}.
Proof. destruct a; reflexivity. Qed.

(** Preparing the array that a first preparation and the normalisation of
    the channel count have left gives that array back. *)
Lemma prepared_array_fixed (halfDomain : bool) (length activeChannels : Z)
    (values : list float) :
  0 <= activeChannels <= 3 ->
  valid_sizes halfDomain length values ->
  let a1 :=
    adjustColorComponentNumber
      {| m_length := length;
         m_numColorComponents := activeChannels;
         m_data := prepareValues halfDomain length activeChannels values |} in
  {| m_length := m_length a1;
     m_numColorComponents := m_numColorComponents a1;
     m_data := prepareValues halfDomain (m_length a1)
                 (m_numColorComponents a1) (m_data a1) |}
  = a1.
Proof.
  intros Hnc Hvalid a1.
  destruct (adjustColorComponentNumber_fields
              {| m_length := length;
                 m_numColorComponents := activeChannels;
                 m_data := prepareValues halfDomain length activeChannels
                             values |}) as (Hl & Hd & Hn).
  fold a1 in Hl, Hd, Hn. simpl in Hl, Hd, Hn. clearbody a1.
  transitivity {| m_length := m_length a1;
                  m_numColorComponents := m_numColorComponents a1;
                  m_data := m_data a1 |}; [|symmetry; apply Array_eta].
  rewrite Hl, Hd. f_equal.
  apply prepareValues_idempotent; try assumption.
  destruct Hn as [->|[-> ->]]; lia.
Qed.

Lemma finalize_prepared_fields (L : Lut1DOpData) :
  m_halfFlags (finalize_prepared L) = m_halfFlags L
  /\ m_direction (finalize_prepared L) = m_direction L
  /\ m_interpolation (finalize_prepared L) = m_interpolation L
  /\ m_hueAdjust (finalize_prepared L) = m_hueAdjust L.
Proof.
  unfold finalize_prepared, initializeFromForward.
  destruct (m_direction L) eqn:E; simpl.
  - rewrite E. repeat split; reflexivity.
  - destruct (prepareArray_flags L) as (H1 & H2 & H3 & H4 & _).
    rewrite H1, H2, H3, H4, E. repeat split; reflexivity.
Qed.

Lemma finalize_prepared_array (L : Lut1DOpData) :
  m_array (finalize_prepared L)
  = adjustColorComponentNumber
      (match m_direction L with
       | TRANSFORM_DIR_INVERSE =>
           {| m_length := m_length (m_array L);
              m_numColorComponents := m_numColorComponents (m_array L);
              m_data := prepareValues (isInputHalfDomain L)
                          (m_length (m_array L))
                          (m_numColorComponents (m_array L))
                          (m_data (m_array L)) |}
       | TRANSFORM_DIR_FORWARD => m_array L
       end).
Proof.
  unfold finalize_prepared, initializeFromForward.
  destruct (m_direction L); simpl; [reflexivity|].
  rewrite prepareArray_array. reflexivity.
Qed.

(** The array that a second [finalize] validates and digests is the array
    of the first. *)
Lemma finalize_prepared_again (L : Lut1DOpData) (id : string) :
  0 <= m_numColorComponents (m_array L) <= 3 ->
  validate (finalize_prepared L) = OK tt ->
  m_array (finalize_prepared (setCacheID (finalize_prepared L) id))
  = m_array (finalize_prepared L).
Proof.
  intros Hnc Hval.
  destruct (finalize_prepared_fields L) as (Hhf & Hdir & Hint & Hhue).
  apply validate_ok in Hval as (_ & Harr & Hhalf).
  apply Array_validate_ok in Harr as [Hl0 Hsize].
  pose proof (finalize_prepared_array L) as HM.
  unfold isInputHalfDomain in *.
  remember (finalize_prepared L) as M eqn:EM.
  rewrite (finalize_prepared_array (setCacheID M id)).
  change (m_direction (setCacheID M id)) with (m_direction M).
  change (m_array (setCacheID M id)) with (m_array M).
  unfold isInputHalfDomain.
  change (m_halfFlags (setCacheID M id)) with (m_halfFlags M).
  rewrite Hdir, Hhf in *.
  destruct (m_direction L).
  - rewrite HM. apply adjustColorComponentNumber_idempotent.
  - set (P := {| m_length := m_length (m_array L);
                 m_numColorComponents := m_numColorComponents (m_array L);
                 m_data := prepareValues (IsInputHalfDomain (m_halfFlags L))
                             (m_length (m_array L))
                             (m_numColorComponents (m_array L))
                             (m_data (m_array L)) |}) in *.
    destruct (adjustColorComponentNumber_fields P) as (Hl & Hd & Hn).
    assert (Hvalid : valid_sizes (IsInputHalfDomain (m_halfFlags L))
                       (m_length (m_array L)) (m_data (m_array L))).
    { rewrite HM, Hl, Hd in *. simpl in Hl0, Hsize, Hhalf.
      rewrite prepareValues_length in Hsize by assumption.
      repeat split; [assumption|lia|assumption]. }
    rewrite HM.
    pose proof (prepared_array_fixed _ _ _ _ Hnc Hvalid) as HF.
    cbv zeta in HF. fold P in HF. rewrite HF.
    apply adjustColorComponentNumber_idempotent.
Qed.

(** C7. [finalize] is idempotent on an otherwise unchanged LUT: when a first
    [finalize] succeeds, a second one succeeds too and builds the same cache
    identifier. The LUT has at most the three channels of the array layout. *)
Theorem C7_finalize_idempotent (L L1 : Lut1DOpData) :
  0 <= m_numColorComponents (m_array L) <= 3 ->
  finalize L = OK L1 ->
  exists L2, finalize L1 = OK L2 /\ getCacheID L2 = getCacheID L1.
Proof.
  intros Hnc H. apply finalize_ok in H as [Hval ->].
  pose proof (finalize_prepared_again L (cacheID_of (finalize_prepared L))
                Hnc Hval) as Harr.
  remember (finalize_prepared L) as M eqn:EM.
  remember (cacheID_of M) as id eqn:Eid.
  destruct (finalize_prepared_fields (setCacheID M id))
    as (Hhf & Hdir & Hint & Hhue).
  change (m_halfFlags (setCacheID M id)) with (m_halfFlags M) in Hhf.
  change (m_direction (setCacheID M id)) with (m_direction M) in Hdir.
  change (m_interpolation (setCacheID M id)) with (m_interpolation M) in Hint.
  change (m_hueAdjust (setCacheID M id)) with (m_hueAdjust M) in Hhue.
  remember (finalize_prepared (setCacheID M id)) as M2 eqn:EM2.
  assert (Hval2 : validate M2 = OK tt).
  { apply validate_ok. apply validate_ok in Hval.
    unfold isInputHalfDomain in *. rewrite Hhf, Hint, Harr. exact Hval. }
  exists (setCacheID M2 (cacheID_of M2)). split.
  - apply finalize_ok. rewrite <- EM2. split; [assumption|reflexivity].
  - change (cacheID_of M2 = id). rewrite Eid.
    unfold cacheID_of, getValues, getArray, isInputHalfDomain.
    rewrite Hhf, Hdir, Hint, Hhue, Harr. reflexivity.
Qed.

(** ** Monotonicity after the preparation *)

Lemma detectIncreasing_ext (halfDomain : bool) (length c : Z)
    (v w : list float) :
  0 <= c < 3 -> 1 <= length ->
  (forall row, 0 <= row -> vget v (3 * row + c) = vget w (3 * row + c)) ->
  detectIncreasing halfDomain length c v
  = detectIncreasing halfDomain length c w.
Proof.
  intros Hc Hlen Hext.
  assert (Hseed : vget v c = vget w c).
  { specialize (Hext 0). replace (3 * 0 + c) with c in Hext by lia.
    apply Hext. lia. }
  unfold detectIncreasing. destruct halfDomain.
  - change (0 * 3 + c) with c. rewrite Hseed.
    replace (15360 * 3 + c) with (3 * 15360 + c) by lia.
    rewrite Hext by lia. reflexivity.
  - rewrite Hseed.
    replace ((length - 1) * 3 + c) with (3 * (length - 1) + c) by lia.
    rewrite Hext by lia. reflexivity.
Qed.

Lemma nan_free_ext (halfDomain : bool) (length c : Z) (v w : list float) :
  (forall row, 0 <= row -> vget v (3 * row + c) = vget w (3 * row + c)) ->
  nan_free halfDomain length c v -> nan_free halfDomain length c w.
Proof.
  intros Hext. unfold nan_free, no_nan_rows.
  destruct halfDomain.
  - intros [H1 H2]. split; intros i Hi1 Hi2; rewrite <- Hext by lia; auto.
  - intros H i Hi1 Hi2. rewrite <- Hext by lia. auto.
Qed.

(** The samples that a walk leaves, one by one. *)
Lemma walk_rows (increasing : bool) (prev : float) (values : list float)
    (start : Z) (n k : nat) :
  0 <= start ->
  start + 3 * Z.of_nat n <= Z.of_nat (List.length values) + 2 ->
  (k < n)%nat ->
  flatten_list increasing prev (gather values start 3 n) !! k
  = Some (vget (walk increasing prev values start n)
            (start + 3 * Z.of_nat k)).
Proof.
  intros Hs Hlen Hk.
  rewrite <- gather_walk by assumption.
  apply gather_lookup. assumption.
Qed.

Lemma gather_nan_free (values : list float) (start : Z) (n : nat) :
  (forall k, (k < n)%nat ->
     IsNan (vget values (start + 3 * Z.of_nat k)) = false) ->
  Forall (fun v => IsNan v = false) (gather values start 3 n).
Proof.
  intros H. apply Forall_lookup. intros k x Hx.
  assert (Hk : (k < n)%nat).
  { apply lookup_lt_Some in Hx. rewrite gather_length in Hx. exact Hx. }
  rewrite gather_lookup in Hx by assumption. inversion Hx. auto.
Qed.

(** A walk keeps a prefix of samples free of NaN. *)
Lemma walk_nan_free (increasing : bool) (prev : float) (values : list float)
    (start : Z) (n m k : nat) :
  0 <= start ->
  start + 3 * Z.of_nat n <= Z.of_nat (List.length values) + 2 ->
  (k < m)%nat -> (m <= n)%nat ->
  IsNan prev = false ->
  (forall i, (i < m)%nat ->
     IsNan (vget values (start + 3 * Z.of_nat i)) = false) ->
  IsNan (vget (walk increasing prev values start n)
           (start + 3 * Z.of_nat k)) = false.
Proof.
  intros Hs Hlen Hk Hm Hp Hnan.
  pose proof (walk_rows increasing prev values start n k Hs Hlen
                ltac:(lia)) as Hrow.
  rewrite <- (lookup_take_lt _ m) in Hrow by assumption.
  rewrite flatten_list_take, gather_take in Hrow by assumption.
  eapply flatten_list_after_seed; [exact Hp| |exact Hrow].
  apply gather_nan_free. assumption.
Qed.

Lemma flattenChannel_nan_free (halfDomain : bool) (length c : Z)
    (values : list float) :
  0 <= c < 3 -> valid_sizes halfDomain length values ->
  nan_free halfDomain length c values ->
  nan_free halfDomain length c (flattenChannel halfDomain length c values).
Proof.
  intros Hc (Hsize & Hlen & Hhalf) Hnan.
  unfold flattenChannel, nan_free, no_nan_rows in *. destruct halfDomain.
  - rewrite (Hhalf eq_refl) in *. destruct Hnan as [Hpos Hneg].
    pose proof (posRows_spec c Hc) as HP.
    pose proof (negRows_spec c Hc) as HN.
    rewrite flattenReversals_half by assumption. cbv zeta.
    set (inc := detectIncreasing true 65536 c values).
    set (seed := vget values c).
    set (X1 := walk inc seed values (c + 3) (posRows c)).
    assert (Hseed : IsNan seed = false).
    { unfold seed. replace c with (3 * 0 + c) by lia. apply Hpos; lia. }
    assert (Hseed1 : vget X1 c = seed).
    { unfold X1. apply vget_walk_other; [lia|lia|]. intros k _. lia. }
    assert (Hlen1 : List.length X1 = List.length values)
      by (unfold X1; apply walk_length).
    rewrite Hseed1. split.
    + intros i Hi0 Hi1.
      rewrite vget_walk_other; [|lia|lia|intros k _; lia].
      destruct (Z.eq_dec i 0) as [->|Hne].
      * replace (3 * 0 + c) with c by lia. rewrite Hseed1. exact Hseed.
      * replace (3 * i + c) with (c + 3 + 3 * Z.of_nat (Z.to_nat (i - 1)))
          by lia.
        unfold X1. apply (walk_nan_free _ _ _ _ _ (Z.to_nat 31743));
          try lia; try assumption.
        intros k Hk.
        replace (c + 3 + 3 * Z.of_nat k) with (3 * (1 + Z.of_nat k) + c)
          by lia.
        apply Hpos; lia.
    + intros i Hi0 Hi1.
      replace (3 * i + c)
        with (98304 + c + 3 * Z.of_nat (Z.to_nat (i - 32768))) by lia.
      apply (walk_nan_free _ _ _ _ _ (Z.to_nat 31744));
        try lia; try assumption.
      intros k Hk. unfold X1.
      rewrite vget_walk_other; [|lia|lia|intros k' Hk'; lia].
      replace (98304 + c + 3 * Z.of_nat k)
        with (3 * (32768 + Z.of_nat k) + c) by lia.
      apply Hneg; lia.
  - rewrite flattenReversals_standard by assumption.
    set (inc := detectIncreasing false length c values).
    assert (Hseed : IsNan (vget values c) = false).
    { replace c with (3 * 0 + c) by lia. apply Hnan; lia. }
    intros i Hi0 Hi1.
    destruct (Z.eq_dec i 0) as [->|Hne].
    + replace (3 * 0 + c) with c by lia.
      rewrite vget_walk_other; [assumption|lia|lia|]. intros k _. lia.
    + replace (3 * i + c) with (c + 3 + 3 * Z.of_nat (Z.to_nat (i - 1)))
        by lia.
      apply (walk_nan_free _ _ _ _ _ (Z.to_nat (length - 1)));
        try lia; try assumption.
      intros k Hk.
      replace (c + 3 + 3 * Z.of_nat k) with (3 * (1 + Z.of_nat k) + c)
        by lia.
      apply Hnan; lia.
Qed.

(** A settled segment without NaN is ordered, and comes after its seed. *)
Lemma settled_segment (increasing : bool) (seed : float) (v : list float)
    (start : Z) (n m : nat) :
  settled_walk increasing seed v start n ->
  (m <= n)%nat ->
  IsNan seed = false ->
  (forall k, (k < m)%nat ->
     IsNan (vget v (start + 3 * Z.of_nat k)) = false) ->
  (forall k, (k < m)%nat ->
     dir_le increasing seed (vget v (start + 3 * Z.of_nat k)) = true)
  /\ (forall i j, (i <= j)%nat -> (j < m)%nat ->
        dir_le increasing (vget v (start + 3 * Z.of_nat i))
          (vget v (start + 3 * Z.of_nat j)) = true).
Proof.
  intros Hset Hm Hseed Hnan. unfold settled_walk in Hset.
  assert (Hfix : flatten_list increasing seed (gather v start 3 m)
                 = gather v start 3 m).
  { rewrite <- (gather_take v 3 n start m) by assumption.
    rewrite <- flatten_list_take, Hset. reflexivity. }
  assert (HF : Forall (fun x => IsNan x = false) (gather v start 3 m))
    by (apply gather_nan_free; assumption).
  split.
  - intros k Hk.
    apply (flatten_list_after_seed increasing (gather v start 3 m) seed k);
      [assumption|assumption|].
    rewrite Hfix. apply gather_lookup. assumption.
  - intros i j Hij Hj.
    apply (flatten_list_sorted increasing (gather v start 3 m) seed i j);
      try assumption.
    + rewrite Hfix. apply gather_lookup. lia.
    + rewrite Hfix. apply gather_lookup. lia.
Qed.

(** One settled channel, from row 0 on. *)
Lemma settled_rows (increasing : bool) (v : list float) (c : Z) (n m : nat) :
  0 <= c < 3 ->
  settled_walk increasing (vget v c) v (c + 3) n ->
  (m <= n)%nat ->
  no_nan_rows v c 0 (Z.of_nat m) ->
  weakly_monotonic increasing v c 0 (Z.of_nat m).
Proof.
  intros Hc Hset Hm Hnan.
  assert (Hseed : IsNan (vget v c) = false).
  { replace c with (3 * 0 + c) by lia. apply Hnan; lia. }
  destruct (settled_segment increasing (vget v c) v (c + 3) n m Hset Hm Hseed)
    as [Hafter Hsorted].
  { intros k Hk.
    replace (c + 3 + 3 * Z.of_nat k) with (3 * (1 + Z.of_nat k) + c) by lia.
    apply Hnan; lia. }
  intros i j Hi Hij Hj.
  destruct (Z.eq_dec i 0) as [->|Hi0].
  - replace (3 * 0 + c) with c by lia.
    destruct (Z.eq_dec j 0) as [->|Hj0].
    + replace (3 * 0 + c) with c by lia. apply dir_le_refl. assumption.
    + replace (3 * j + c) with (c + 3 + 3 * Z.of_nat (Z.to_nat (j - 1)))
        by lia.
      apply Hafter. lia.
  - replace (3 * i + c) with (c + 3 + 3 * Z.of_nat (Z.to_nat (i - 1))) by lia.
    replace (3 * j + c) with (c + 3 + 3 * Z.of_nat (Z.to_nat (j - 1))) by lia.
    apply Hsorted; lia.
Qed.

(** A settled channel without NaN is weakly monotonic in the direction
    read for it. *)
Lemma settled_monotonic (halfDomain : bool) (length c : Z) (v : list float) :
  0 <= c < 3 -> 1 <= length ->
  settled halfDomain length c v ->
  nan_free halfDomain length c v ->
  monotonic_rows halfDomain length
    (detectIncreasing halfDomain length c v) v c.
Proof.
  intros Hc Hlen Hset Hnan.
  unfold settled, nan_free, monotonic_rows in *. cbv zeta in Hset.
  destruct halfDomain.
  - destruct Hset as [Hpos Hneg]. destruct Hnan as [Hnpos Hnneg].
    pose proof (posRows_spec c Hc) as HP.
    pose proof (negRows_spec c Hc) as HN.
    split.
    + replace 31743 with (Z.of_nat (Z.to_nat 31743)) by lia.
      apply (settled_rows _ _ _ (posRows c)); [assumption|assumption|lia|].
      replace (Z.of_nat (Z.to_nat 31743)) with 31743 by lia. assumption.
    + assert (Hseed : IsNan (vget v c) = false).
      { replace c with (3 * 0 + c) by lia. apply Hnpos; lia. }
      destruct (settled_segment _ _ _ _ _ (Z.to_nat 31744) Hneg
                  ltac:(lia) Hseed) as [_ Hsorted].
      { intros k Hk.
        replace (98304 + c + 3 * Z.of_nat k)
          with (3 * (32768 + Z.of_nat k) + c) by lia.
        apply Hnneg; lia. }
      intros i j Hi Hij Hj.
      replace (3 * i + c)
        with (98304 + c + 3 * Z.of_nat (Z.to_nat (i - 32768))) by lia.
      replace (3 * j + c)
        with (98304 + c + 3 * Z.of_nat (Z.to_nat (j - 32768))) by lia.
      apply Hsorted; lia.
  - replace (length - 1) with (Z.of_nat (Z.to_nat (length - 1))) by lia.
    apply (settled_rows _ _ _ (Z.to_nat (length - 1)));
      [assumption|assumption|lia|].
    replace (Z.of_nat (Z.to_nat (length - 1))) with (length - 1) by lia.
    assumption.
Qed.

Lemma getProps_setProps_eq (props : ComponentArray) (c : Z)
    (p : ComponentProperties) :
  0 <= c < 3 -> getProps (setProps props c p) c = p.
Proof.
  intros Hc. destruct props as [[p0 p1] p2].
  assert (Hcases : c = 0 \/ c = 1 \/ c = 2) by lia.
  destruct Hcases as [-> | [-> | ->]]; reflexivity.
Qed.

Lemma getProps_setProps_ne (props : ComponentArray) (c c' : Z)
    (p : ComponentProperties) :
  0 <= c < 3 -> 0 <= c' < 3 -> c <> c' ->
  getProps (setProps props c p) c' = getProps props c'.
Proof.
  intros Hc Hc' Hne. destruct props as [[p0 p1] p2].
  assert (Hcases : c = 0 \/ c = 1 \/ c = 2) by lia.
  assert (Hcases' : c' = 0 \/ c' = 1 \/ c' = 2) by lia.
  destruct Hcases as [-> | [-> | ->]], Hcases' as [-> | [-> | ->]];
    try reflexivity; lia.
Qed.

Lemma prepareChannel_props (halfDomain : bool) (length c : Z)
    (props : ComponentArray) (values : list float) :
  exists p,
    fst (prepareChannel halfDomain length 3 c (props, values))
    = setProps props c p
    /\ isIncreasing p = detectIncreasing halfDomain length c values.
Proof.
  unfold prepareChannel, detectIncreasing.
  destruct halfDomain; eexists; split; reflexivity.
Qed.

(** The loop of [prepareArray]: every active channel ends settled, with the
    direction read for it in its component properties, and free of NaN when
    it was. *)
Lemma prepare_loop_spec (halfDomain : bool) (length activeChannels : Z)
    (props : ComponentArray) (values : list float) :
  0 <= activeChannels <= 3 ->
  valid_sizes halfDomain length values ->
  let st :=
    for_lt 0 activeChannels 1 (prepareChannel halfDomain length 3)
      (props, values) in
  forall c, 0 <= c < activeChannels ->
    isIncreasing (getProps (fst st) c)
    = detectIncreasing halfDomain length c (snd st)
    /\ detectIncreasing halfDomain length c (snd st)
       = detectIncreasing halfDomain length c values
    /\ settled halfDomain length c (snd st)
    /\ (nan_free halfDomain length c values ->
        nan_free halfDomain length c (snd st)).
Proof.
  intros Hnc Hvalid. cbv zeta.
  assert (Hinv :
    (fun i st =>
       List.length (snd st) = List.length values
       /\ (forall c, 0 <= c < 3 -> nan_free halfDomain length c values ->
                     nan_free halfDomain length c (snd st))
       /\ (forall c, 0 <= c < 3 ->
             detectIncreasing halfDomain length c (snd st)
             = detectIncreasing halfDomain length c values)
       /\ (forall c, 0 <= c < i ->
             isIncreasing (getProps (fst st) c)
             = detectIncreasing halfDomain length c (snd st)
             /\ settled halfDomain length c (snd st)))
      activeChannels
      (for_lt 0 activeChannels 1 (prepareChannel halfDomain length 3)
         (props, values))).
  { apply for_lt_invariant.
    - lia.
    - simpl. split; [reflexivity|]. split; [auto|]. split; [auto|].
      intros c Hc. lia.
    - intros i [p v] Hi0 Hi1 (Hlen & Hnan & Hdet & Hset).
      simpl in Hlen, Hnan, Hdet, Hset.
      assert (Hv : valid_sizes halfDomain length v).
      { destruct Hvalid as (H1 & H2 & H3). repeat split; try assumption.
        rewrite Hlen. assumption. }
      assert (Hother : forall c row, 0 <= c < 3 -> c <> i -> 0 <= row ->
                vget v (3 * row + c)
                = vget (flattenChannel halfDomain length i v) (3 * row + c)).
      { intros c row Hc Hne Hrow. symmetry.
        apply vget_flattenChannel_other; [lia|lia|].
        right. rewrite Z.add_comm, Z.mul_comm, Z.mod_add by lia.
        rewrite Z.mod_small by lia. assumption. }
      destruct (prepareChannel_props halfDomain length i p v)
        as (q & Hfst & Hq).
      rewrite prepareChannel_values, Hfst.
      destruct (flattened halfDomain length i v ltac:(lia) Hv)
        as [Hdir Hsettled].
      split; [|split; [|split]].
      + rewrite flattenChannel_length by lia. assumption.
      + intros c Hc Hc0. destruct (Z.eq_dec c i) as [->|Hne].
        * apply flattenChannel_nan_free; [lia|assumption|]. auto.
        * apply (nan_free_ext _ _ _ v); [|auto].
          intros row Hrow. apply Hother; assumption.
      + intros c Hc. rewrite <- (Hdet c Hc).
        destruct (Z.eq_dec c i) as [->|Hne]; [assumption|].
        symmetry. apply detectIncreasing_ext; [lia|apply Hvalid|].
        intros row Hrow. apply Hother; assumption.
      + intros c Hc. destruct (Z.eq_dec c i) as [->|Hne].
        * rewrite getProps_setProps_eq by lia.
          split; [|assumption]. rewrite Hdir. assumption.
        * rewrite getProps_setProps_ne by lia.
          destruct (Hset c ltac:(lia)) as [H1 H2]. split.
          -- rewrite H1. apply detectIncreasing_ext; [lia|apply Hvalid|].
             intros row Hrow. apply Hother; [lia|assumption|assumption].
          -- apply (settled_ext _ _ _ v); [lia|apply Hvalid| |assumption].
             intros row Hrow. apply Hother; [lia|assumption|assumption]. }
  destruct Hinv as (_ & Hnan & Hdet & Hset).
  intros c Hc. destruct (Hset c Hc) as [H1 H2].
  split; [assumption|]. split; [apply Hdet; lia|].
  split; [assumption|]. apply Hnan. lia.
Qed.

(** [prepareArray]: the direction it stores for an active channel is the
    one read from the values before and after the flattening, and the
    channel ends settled. *)
Lemma prepareArray_channel (L : Lut1DOpData) (c : Z) :
  valid_sizes (isInputHalfDomain L) (m_length (m_array L))
    (m_data (m_array L)) ->
  0 <= c < m_numColorComponents (m_array L) ->
  m_numColorComponents (m_array L) <= 3 ->
  let increasing :=
    isIncreasing (getProps (m_componentProperties (prepareArray L)) c) in
  let values' := m_data (m_array (prepareArray L)) in
  increasing
  = detectIncreasing (isInputHalfDomain L) (m_length (m_array L)) c values'
  /\ increasing
     = detectIncreasing (isInputHalfDomain L) (m_length (m_array L)) c
         (m_data (m_array L))
  /\ settled (isInputHalfDomain L) (m_length (m_array L)) c values'
  /\ (nan_free (isInputHalfDomain L) (m_length (m_array L)) c
        (m_data (m_array L)) ->
      nan_free (isInputHalfDomain L) (m_length (m_array L)) c values').
Proof.
  intros Hvalid Hc Hnc.
  pose proof (prepare_loop_spec (isInputHalfDomain L) (m_length (m_array L))
                (m_numColorComponents (m_array L))
                (m_componentProperties L) (m_data (m_array L))
                ltac:(lia) Hvalid) as Hspec.
  cbv zeta in Hspec. specialize (Hspec c Hc).
  unfold prepareArray, prepareArray_core, getArray, getLength,
    getNumColorComponents, getValues, getMaxColorComponents.
  unfold isInputHalfDomain in *.
  destruct (for_lt 0 (m_numColorComponents (m_array L)) 1
              (prepareChannel (IsInputHalfDomain (m_halfFlags L))
                 (m_length (m_array L)) 3)
              (m_componentProperties L, m_data (m_array L)))
    as [props' values'].
  simpl fst in Hspec. simpl snd in Hspec.
  destruct Hspec as (Hdir & Hdet & Hset & Hnan').
  unfold setComponentProperties, setArray, setValues.
  cbn [m_componentProperties m_array m_data].
  match goal with
  | |- context [isIncreasing (getProps ?P c)] =>
      assert (Hprops : isIncreasing (getProps P c)
                       = isIncreasing (getProps props' c))
  end.
  { destruct (Z.eqb_spec (m_numColorComponents (m_array L)) 1) as [H1|H1];
      [|reflexivity].
    replace c with 0 by lia. reflexivity. }
  rewrite Hprops, Hdir.
  split; [reflexivity|]. split; [assumption|]. split; assumption.
Qed.

(** C3 (as amended). After the preparation of a LUT whose array has the
    sizes that [validate] checks, every active channel whose stored values
    are not NaN is weakly monotonic in the direction detected for it: over
    all the rows of a standard domain; in a half domain, over the finite
    positive rows 0..31743 in the detected direction and over the finite
    negative rows 32768..64511 in the opposite direction. *)
Theorem C3_prepared_monotonic (L : Lut1DOpData) (c : Z) :
  valid_sizes (isInputHalfDomain L) (m_length (m_array L))
    (m_data (m_array L)) ->
  0 <= c < m_numColorComponents (m_array L) ->
  m_numColorComponents (m_array L) <= 3 ->
  nan_free (isInputHalfDomain L) (m_length (m_array L)) c
    (m_data (m_array L)) ->
  monotonic_rows (isInputHalfDomain L) (m_length (m_array L))
    (isIncreasing (getProps (m_componentProperties (prepareArray L)) c))
    (m_data (m_array (prepareArray L))) c.
Proof.
  intros Hvalid Hc Hnc Hnan.
  destruct (prepareArray_channel L c Hvalid Hc Hnc)
    as (Hdir & _ & Hset & Hnan').
  rewrite Hdir.
  apply settled_monotonic; [lia|apply Hvalid|assumption|auto].
Qed.

(** ** The rows that the half-domain walks do not reach *)

(** The walks of channel [c] write in channel [c], between row 1 and the
    end of the positive walk and between row 32768 and the end of the
    negative walk. The bounds [31744 * maxChannels] and
    [64512 * maxChannels] of the two loops are the indices of channel 0:
    for the channels 1 and 2 the walks stop one row earlier, before the
    rows of the infinities. *)
Lemma flattenChannel_half_untouched (length c j : Z) (values : list float) :
  0 <= c < 3 -> 0 <= j ->
  j < 3 \/ j mod 3 <> c \/ 95233 <= j < 98304 \/ 193537 <= j ->
  vget (flattenChannel true length c values) j = vget values j.
Proof.
  intros Hc Hj Hcase.
  pose proof (posRows_spec c Hc) as HP.
  pose proof (negRows_spec c Hc) as HN.
  unfold flattenChannel. rewrite flattenReversals_half by assumption.
  cbv zeta.
  assert (Hmod : forall q, 0 <= q -> (c + 3 * q) mod 3 = c).
  { intros q Hq. replace (c + 3 * q) with (c + q * 3) by lia.
    rewrite Z.mod_add by lia. apply Z.mod_small. lia. }
  rewrite !vget_walk_other; try lia; try reflexivity.
  - intros k Hk Heq.
    destruct Hcase as [H|[H|[H|H]]]; try lia.
    apply H. rewrite Heq.
    replace (c + 3 + 3 * Z.of_nat k) with (c + 3 * (1 + Z.of_nat k)) by lia.
    apply Hmod. lia.
  - intros k Hk Heq.
    destruct Hcase as [H|[H|[H|H]]]; try lia.
    apply H. rewrite Heq.
    replace (98304 + c + 3 * Z.of_nat k)
      with (c + 3 * (32768 + Z.of_nat k)) by lia.
    apply Hmod. lia.
Qed.

Lemma prepareValues_half_untouched (length activeChannels j : Z)
    (values : list float) :
  0 <= activeChannels <= 3 -> 0 <= j ->
  j < 3 \/ 95233 <= j < 98304 \/ 193537 <= j ->
  vget (prepareValues true length activeChannels values) j = vget values j.
Proof.
  intros Hnc Hj Hcase. unfold prepareValues.
  apply (for_lt_invariant (fun i v => vget v j = vget values j)).
  - lia.
  - reflexivity.
  - intros i v Hi0 Hi1 Hv. rewrite <- Hv.
    apply flattenChannel_half_untouched; [lia|lia|].
    destruct Hcase as [H|H]; [left; exact H|right; right; exact H].
Qed.

Lemma vget_not_nan (values : list float) (j : Z) :
  Forall (fun v => IsNan v = false) values -> IsNan (vget values j) = false.
Proof.
  intros H. unfold vget.
  destruct (values !! Z.to_nat j) as [x|] eqn:E; [|reflexivity].
  simpl. eapply Forall_lookup in H; eassumption.
Qed.

Lemma step_values_length : Z.of_nat (List.length step_values) = 65536 * 3.
Proof.
  unfold step_values. rewrite !length_app, !length_replicate. lia.
Qed.

Lemma step_values_row0 (j : Z) : 0 <= j < 3 -> vget step_values j = f32_0.
Proof.
  intros Hj. unfold vget, step_values.
  rewrite lookup_app_l by (rewrite length_replicate; lia).
  rewrite lookup_replicate_2 by lia. reflexivity.
Qed.

Lemma step_values_one (j : Z) : 3 <= j < 95232 -> vget step_values j = f32_1.
Proof.
  intros Hj. unfold vget, step_values.
  rewrite lookup_app_r by (rewrite length_replicate; lia).
  rewrite lookup_app_l by (rewrite !length_replicate; lia).
  rewrite lookup_replicate_2 by (rewrite length_replicate; lia).
  reflexivity.
Qed.

Lemma step_values_tail (j : Z) : 95232 <= j -> vget step_values j = f32_0.
Proof.
  intros Hj. unfold vget, step_values.
  rewrite lookup_app_r by (rewrite length_replicate; lia).
  rewrite lookup_app_r by (rewrite !length_replicate; lia).
  rewrite !length_replicate.
  destruct (replicate _ _ !! _) as [x|] eqn:E; [|reflexivity].
  apply lookup_replicate in E as [-> _]. reflexivity.
Qed.

Lemma step_values_not_nan : Forall (fun v => IsNan v = false) step_values.
Proof.
  unfold step_values. repeat apply Forall_app_2; apply Forall_replicate;
    reflexivity.
Qed.

Lemma step_lut_valid :
  valid_sizes (isInputHalfDomain step_lut) (m_length (m_array step_lut))
    (m_data (m_array step_lut)).
Proof.
  split; [apply step_values_length|].
  split; [simpl; lia|]. intros _. reflexivity.
Qed.

Lemma step_values_nan_free (c : Z) : nan_free true 65536 c step_values.
Proof.
  split; intros i _ _; apply vget_not_nan, step_values_not_nan.
Qed.

Lemma step_lut_channel (c : Z) :
  0 <= c < 3 ->
  let increasing :=
    isIncreasing (getProps (m_componentProperties (prepareArray step_lut)) c) in
  let values' := m_data (m_array (prepareArray step_lut)) in
  increasing = detectIncreasing true 65536 c values'
  /\ increasing = detectIncreasing true 65536 c step_values
  /\ settled true 65536 c values'
  /\ (nan_free true 65536 c step_values -> nan_free true 65536 c values').
Proof.
  intros Hc.
  exact (prepareArray_channel step_lut c step_lut_valid Hc ltac:(simpl; lia)).
Qed.

Lemma step_lut_prepared :
  m_data (m_array (prepareArray step_lut))
  = prepareValues true 65536 3 step_values
  /\ isIncreasing (getProps (m_componentProperties (prepareArray step_lut)) 1)
     = true
  /\ detectIncreasing true 65536 1 (prepareValues true 65536 3 step_values)
     = true
  /\ settled true 65536 1 (prepareValues true 65536 3 step_values)
  /\ nan_free true 65536 1 (prepareValues true 65536 3 step_values).
Proof.
  assert (Hv : m_data (m_array (prepareArray step_lut))
               = prepareValues true 65536 3 step_values).
  { rewrite prepareArray_array. reflexivity. }
  assert (Hd : detectIncreasing true 65536 1 step_values = true).
  { unfold detectIncreasing.
    rewrite step_values_row0 by lia. rewrite step_values_one by lia.
    reflexivity. }
  pose proof (step_lut_channel 1 ltac:(lia)) as H.
  cbv zeta in H. rewrite Hv in H.
  destruct H as (Hdir & Hdir0 & Hset & Hnan).
  split; [exact Hv|]. split; [rewrite Hdir0; exact Hd|].
  split; [rewrite <- Hdir, Hdir0; exact Hd|].
  split; [exact Hset|]. apply Hnan. apply step_values_nan_free.
Qed.


(** In an increasing channel 1 that is settled and free of NaN, a row
    31744 that holds the value of row 0 is strictly below row 31743. *)
Lemma infinity_row_violation (L L' : Lut1DOpData) (v' : list float) :
  m_data (m_array L') = v' ->
  isIncreasing (getProps (m_componentProperties L') 1) = true ->
  detectIncreasing true 65536 1 v' = true ->
  settled true 65536 1 v' ->
  nan_free true 65536 1 v' ->
  vget v' 1 = f32_0 ->
  vget v' 95233 = f32_0 ->
  vget (m_data (m_array L)) 95233 = f32_0 ->
  isIncreasing (getProps (m_componentProperties L') 1) = true
  /\ sample (m_array L') 31744 1 = sample (m_array L) 31744 1
  /\ sample (m_array L') 31744 1 = f32_0
  /\ f32_lt (sample (m_array L') 31744 1) (sample (m_array L') 31743 1)
     = true.
Proof.
  intros Hv Hinc Hdet Hset Hnan Hrow0 Hinf Hinf0.
  pose proof (settled_monotonic true 65536 1 v' ltac:(lia) ltac:(lia)
                Hset Hnan) as [Hmono _].
  rewrite Hdet in Hmono.
  specialize (Hmono 15360 31743 ltac:(lia) ltac:(lia) ltac:(lia)).
  unfold dir_le in Hmono.
  change (3 * 15360 + 1) with 46081 in Hmono.
  change (3 * 31743 + 1) with 95230 in Hmono.
  unfold detectIncreasing in Hdet.
  change (0 * 3 + 1) with 1 in Hdet.
  change (15360 * 3 + 1) with 46081 in Hdet.
  rewrite Hrow0 in Hdet.
  unfold sample, getMaxColorComponents. rewrite Hv.
  change (31744 * 3 + 1) with 95233.
  change (31743 * 3 + 1) with 95230.
  rewrite Hinf, Hinf0.
  split; [exact Hinc|]. split; [reflexivity|]. split; [reflexivity|].
  apply (f32_lt_le_trans f32_0 (vget v' 46081) (vget v' 95230)); assumption.
Qed.

Lemma step_lut_infinity_row :
  vget (m_data (m_array step_lut)) 95233 = f32_0.
Proof. apply step_values_tail. lia. Qed.

Lemma step_lut_prepared_rows :
  vget (prepareValues true 65536 3 step_values) 1 = f32_0
  /\ vget (prepareValues true 65536 3 step_values) 95233 = f32_0.
Proof.
  split.
  - rewrite prepareValues_half_untouched by lia. apply step_values_row0. lia.
  - rewrite prepareValues_half_untouched by lia. apply step_values_tail. lia.
Qed.

(** C1 at the failing input [step_lut]. Channel 1 is detected increasing;
    after the preparation its row 31744, the row of +infinity, still holds
    the 0 it held before and is below row 31743: it violates the direction
    and has not been clamped to the previous sample. *)
Theorem C1_infinity_row_not_flattened :
  isIncreasing (getProps (m_componentProperties (prepareArray step_lut)) 1)
  = true
  /\ sample (m_array (prepareArray step_lut)) 31744 1
     = sample (m_array step_lut) 31744 1
  /\ sample (m_array (prepareArray step_lut)) 31744 1 = f32_0
  /\ f32_lt (sample (m_array (prepareArray step_lut)) 31744 1)
       (sample (m_array (prepareArray step_lut)) 31743 1)
     = true.
Proof.
  destruct step_lut_prepared as (Hv & Hinc & Hdet & Hset & Hnan).
  destruct step_lut_prepared_rows as [Hrow0 Hinf].
  exact (infinity_row_violation step_lut (prepareArray step_lut) _
           Hv Hinc Hdet Hset Hnan Hrow0 Hinf step_lut_infinity_row).
Qed.

(** ** Construction of the sample array *)

Lemma throws_not_OK {A : Type} (r : result A) (a : A) :
  throws r -> r <> OK a.
Proof. intros [what ->]. discriminate. Qed.

Lemma vector_resize_length (values : list float) (n : Z) :
  List.length (vector_resize values n) = Z.to_nat n.
Proof.
  unfold vector_resize. rewrite length_app, length_take, length_replicate.
  lia.
Qed.

(** The two nested loops of [fill] write [f idx] in the three channels of
    every row. *)
Lemma fill_loop (f : Z -> float) (dim : Z) (values : list float) :
  0 <= dim ->
  Z.of_nat (List.length values) = dim * 3 ->
  let values' :=
    for_lt 0 dim 1
      (fun idx values =>
         let ftemp := f idx in
         let row := getMaxColorComponents * idx in
         for_lt 0 getMaxColorComponents 1
           (fun channel values => vset values (channel + row) ftemp)
           values)
      values in
  List.length values' = List.length values
  /\ forall idx c, 0 <= idx < dim -> 0 <= c < 3 ->
       vget values' (3 * idx + c) = f idx.
Proof.
  intros Hdim Hsize. cbv zeta.
  apply (for_lt_invariant
           (fun i v => List.length v = List.length values
                       /\ forall idx c, 0 <= idx < i -> 0 <= c < 3 ->
                            vget v (3 * idx + c) = f idx)).
  - assumption.
  - split; [reflexivity|]. intros idx c Hidx. lia.
  - intros i v Hi0 Hi1 [Hlen Hinv].
    change (for_lt 0 getMaxColorComponents 1
              (fun channel values0 =>
                 vset values0 (channel + getMaxColorComponents * i) (f i)) v)
      with (vset (vset (vset v (0 + 3 * i) (f i)) (1 + 3 * i) (f i))
              (2 + 3 * i) (f i)).
    split.
    + rewrite !vset_length. assumption.
    + intros idx c Hidx Hc.
      destruct (Z.eq_dec idx i) as [->|Hne].
      * assert (Hcases : c = 0 \/ c = 1 \/ c = 2) by lia.
        destruct Hcases as [-> | [-> | ->]].
        -- rewrite vget_vset_ne by lia. rewrite vget_vset_ne by lia.
           replace (3 * i + 0) with (0 + 3 * i) by lia.
           apply vget_vset_eq; lia.
        -- rewrite vget_vset_ne by lia.
           replace (3 * i + 1) with (1 + 3 * i) by lia.
           apply vget_vset_eq; rewrite ?vset_length; lia.
        -- replace (3 * i + 2) with (2 + 3 * i) by lia.
           apply vget_vset_eq; rewrite ?vset_length; lia.
      * rewrite !vget_vset_ne by lia. apply Hinv; lia.
Qed.

Lemma fill_fields (halfFlags : HalfFlags) (a : Array) :
  m_length (fill halfFlags a) = m_length a
  /\ m_numColorComponents (fill halfFlags a) = m_numColorComponents a.
Proof.
  unfold fill. destruct (IsInputHalfDomain halfFlags); split; reflexivity.
Qed.

(** [fill] makes the identity: every sample is the ideal value of its row. *)
Lemma fill_identity (halfFlags : HalfFlags) (a : Array) :
  0 <= m_length a ->
  Z.of_nat (List.length (m_data a)) = m_length a * 3 ->
  List.length (m_data (fill halfFlags a)) = List.length (m_data a)
  /\ forall idx c, 0 <= idx < m_length a -> 0 <= c < 3 ->
       vget (m_data (fill halfFlags a)) (3 * idx + c)
       = ideal_value halfFlags (m_length a) idx.
Proof.
  intros Hdim Hsize. unfold fill, ideal_value, getLength, getValues.
  destruct (IsInputHalfDomain halfFlags); simpl m_data.
  - apply (fill_loop (fun idx => half_to_float (idx mod 65536))); assumption.
  - apply (fill_loop
             (fun idx =>
                f32_mul (float_of_ulong idx)
                  (f32_div f32_1 (f32_sub (float_of_ulong (m_length a)) f32_1))));
      assumption.
Qed.

Lemma Lut3by1DArray_new_ok (halfFlags : HalfFlags) (length : Z) :
  2 <= length <= 1048576 ->
  Lut3by1DArray_new halfFlags length
  = OK (fill halfFlags (Array_resize Array_empty length 3)).
Proof.
  intros H. unfold Lut3by1DArray_new, Lut3by1DArray_resize, bind.
  destruct (Z.ltb_spec length 2); [lia|].
  destruct (Z.gtb_spec length (1024 * 1024)); [lia|]. reflexivity.
Qed.

Lemma Lut3by1DArray_new_throws (halfFlags : HalfFlags) (length : Z) :
  length < 2 \/ 1048576 < length ->
  throws (Lut3by1DArray_new halfFlags length).
Proof.
  intros H. unfold Lut3by1DArray_new, Lut3by1DArray_resize, bind, throws.
  destruct (Z.ltb_spec length 2); [eauto|].
  destruct (Z.gtb_spec length (1024 * 1024)); [eauto|lia].
Qed.

(** The fresh array: its dimensions, its size and its samples. *)
Lemma Lut3by1DArray_new_identity (halfFlags : HalfFlags) (length : Z)
    (a : Array) :
  Lut3by1DArray_new halfFlags length = OK a ->
  2 <= length <= 1048576
  /\ m_length a = length
  /\ m_numColorComponents a = 3
  /\ Z.of_nat (List.length (m_data a)) = length * 3
  /\ forall idx c, 0 <= idx < length -> 0 <= c < 3 ->
       sample a idx c = ideal_value halfFlags length idx.
Proof.
  intros H.
  assert (Hrange : 2 <= length <= 1048576).
  { destruct (Z.lt_ge_cases length 2) as [Hlt|Hge].
    - apply (throws_not_OK _ a) in H; [contradiction|].
      apply Lut3by1DArray_new_throws. lia.
    - destruct (Z.lt_ge_cases 1048576 length) as [Hgt|Hle]; [|lia].
      apply (throws_not_OK _ a) in H; [contradiction|].
      apply Lut3by1DArray_new_throws. lia. }
  rewrite Lut3by1DArray_new_ok in H by assumption. inversion H; subst a.
  set (r := Array_resize Array_empty length 3).
  assert (Hr : Z.of_nat (List.length (m_data r)) = m_length r * 3).
  { unfold r, Array_resize. simpl m_data. simpl m_length.
    rewrite vector_resize_length. unfold getMaxColorComponents. lia. }
  destruct (fill_identity halfFlags r ltac:(simpl; lia) Hr) as [Hlen Hval].
  destruct (fill_fields halfFlags r) as [Hl Hn].
  split; [assumption|]. split; [exact Hl|]. split; [exact Hn|].
  split; [rewrite Hlen; exact Hr|].
  intros idx c Hidx Hc. unfold sample, getMaxColorComponents.
  replace (idx * 3 + c) with (3 * idx + c) by lia.
  apply Hval; assumption.
Qed.

(** C9. The construction [new(half_flags, length)] of the sample array fails
    for every length below 2 and every length above 1,048,576; for every
    length in between, the bounds 2 and 1,048,576 included, it succeeds and
    the array is filled to the identity. *)
Theorem C9_array_construction_bounds (halfFlags : HalfFlags) (length : Z) :
  (throws (Lut3by1DArray_new halfFlags length)
   <-> length < 2 \/ 1048576 < length)
  /\ (succeeds (Lut3by1DArray_new halfFlags length)
      <-> 2 <= length <= 1048576)
  /\ (forall a, Lut3by1DArray_new halfFlags length = OK a ->
        m_length a = length
        /\ forall idx c, 0 <= idx < length -> 0 <= c < 3 ->
             sample a idx c = ideal_value halfFlags length idx).
Proof.
  split; [|split].
  - split; [|apply Lut3by1DArray_new_throws].
    intros Hthrow.
    destruct (Z.lt_ge_cases length 2) as [|H2]; [lia|].
    destruct (Z.lt_ge_cases 1048576 length) as [|H3]; [lia|].
    exfalso. eapply throws_not_OK; [exact Hthrow|].
    apply Lut3by1DArray_new_ok. lia.
  - split.
    + intros [a Ha]. apply Lut3by1DArray_new_identity in Ha.
      destruct Ha as [Hrange _]. exact Hrange.
    + intros H. eexists. apply Lut3by1DArray_new_ok. assumption.
  - intros a Ha. apply Lut3by1DArray_new_identity in Ha.
    destruct Ha as (_ & Hl & _ & _ & Hs). split; assumption.
Qed.

(** C8. [validate] fails if and only if the interpolation is CUBIC,
    TETRAHEDRAL or UNKNOWN (DEFAULT, LINEAR, NEAREST and BEST are accepted),
    or INPUT_HALF_CODE is set and the length is not 65,536, or the value
    array fails its own structural check. *)
Theorem C8_validate_fails_iff (L : Lut1DOpData) :
  throws (validate L)
  <-> (m_interpolation L = INTERP_CUBIC
       \/ m_interpolation L = INTERP_TETRAHEDRAL
       \/ m_interpolation L = INTERP_UNKNOWN)
      \/ (isInputHalfDomain L = true /\ m_length (m_array L) <> 65536)
      \/ throws (Array_validate (getArray L)).
Proof.
  assert (Hinterp : IsValid (m_interpolation L) = false
                    <-> (m_interpolation L = INTERP_CUBIC
                         \/ m_interpolation L = INTERP_TETRAHEDRAL
                         \/ m_interpolation L = INTERP_UNKNOWN)).
  { destruct (m_interpolation L); simpl; split; intros H; try discriminate;
      auto; destruct H as [H|[H|H]]; discriminate. }
  unfold getArray. split.
  - intros Hthrow.
    destruct (IsValid (m_interpolation L)) eqn:Ev;
      [|left; apply Hinterp; reflexivity].
    destruct (Array_validate_cases (m_array L)) as [Ha|Ha]; [|auto].
    right. left.
    destruct (isInputHalfDomain L) eqn:Eh.
    + split; [reflexivity|]. intros Hlen.
      apply (throws_not_OK _ tt) in Hthrow. apply Hthrow.
      apply validate_ok. rewrite Eh. auto.
    + exfalso. apply (throws_not_OK _ tt) in Hthrow. apply Hthrow.
      apply validate_ok. rewrite Eh. repeat split; auto; discriminate.
  - intros H.
    destruct (validate_cases L) as [Hok|Hthrow]; [|assumption].
    exfalso. apply validate_ok in Hok as (Hv & Ha & Hh).
    destruct H as [H|[[Hhalf Hlen]|H]].
    + apply Hinterp in H. congruence.
    + auto.
    + apply (throws_not_OK _ tt) in H. contradiction.
Qed.

(** ** The cache identifier *)

Lemma append_inv_head (s a b : string) :
  (s ++ a)%string = (s ++ b)%string -> a = b.
Proof.
  induction s as [|c s IH]; simpl; intros H; [assumption|].
  inversion H. auto.
Qed.

Lemma list_ascii_of_string_append (a b : string) :
  list_ascii_of_string (a ++ b)
  = (list_ascii_of_string a ++ list_ascii_of_string b)%list.
Proof.
  induction a as [|c a IH]; simpl; [reflexivity|]. rewrite IH. reflexivity.
Qed.

Lemma append_inv_tail (a b t : string) :
  (a ++ t)%string = (b ++ t)%string -> a = b.
Proof.
  intros H. apply (f_equal list_ascii_of_string) in H.
  rewrite !list_ascii_of_string_append in H.
  apply app_inv_tail in H.
  rewrite <- (string_of_list_ascii_of_string a),
    <- (string_of_list_ascii_of_string b), H.
  reflexivity.
Qed.






Lemma identity2_new :
  Lut1DOpData_new LUT_STANDARD 2 = OK identity2.
Proof. vm_compute. reflexivity. Qed.

(** C10. Equality does not determine the cache identifier: [equals] compares
    the concrete interpolation, which is always LINEAR, while [finalize]
    writes the name of the stored interpolation. There are two finalized
    LUTs, the same but for the stored interpolation (NEAREST and LINEAR),
    that [equals] holds equal and whose cache identifiers differ; the two
    interpolations have different names. *)
Theorem C10_equals_does_not_determine_cache_id :
  InterpolationToString INTERP_NEAREST <> InterpolationToString INTERP_LINEAR ->
  exists L F1 F2 : Lut1DOpData,
    finalize (setInterpolation L INTERP_NEAREST) = OK F1
    /\ finalize (setInterpolation L INTERP_LINEAR) = OK F2
    /\ equals F1 F2 = true
    /\ getCacheID F1 <> getCacheID F2.
Proof using emptyMetadata.
  intros Hnames.
  exists identity2.
  destruct (finalize (setInterpolation identity2 INTERP_NEAREST))
    as [F1|what] eqn:E1; [|vm_compute in E1; discriminate].
  destruct (finalize (setInterpolation identity2 INTERP_LINEAR))
    as [F2|what] eqn:E2; [|vm_compute in E2; discriminate].
  exists F1, F2. split; [reflexivity|]. split; [reflexivity|].
  vm_compute in E1. vm_compute in E2.
  inversion E1; subst F1. inversion E2; subst F2. clear E1 E2.
  split; [vm_compute; reflexivity|].
  unfold getCacheID, m_cacheID. intros Heq.
  apply append_inv_head in Heq.
  change (String " " ?x) with (" " ++ x)%string in Heq.
  inversion Heq as [Heq'].
  apply append_inv_head in Heq'. inversion Heq' as [Heq''].
  apply append_inv_tail in Heq''. contradiction.
Qed.

(** ** Composition and the fast inverse *)

Lemma vector_resize_same (values : list float) (n : Z) :
  Z.of_nat (List.length values) = n -> vector_resize values n = values.
Proof.
  intros H. unfold vector_resize.
  rewrite firstn_all2 by lia.
  replace (Z.to_nat n - List.length values)%nat with O by lia.
  apply app_nil_r.
Qed.

Lemma Lut1DOpData_new_ok (halfFlags : HalfFlags) (dimension : Z) :
  2 <= dimension <= 1048576 ->
  exists a,
    Lut3by1DArray_new halfFlags dimension = OK a
    /\ Lut1DOpData_new halfFlags dimension
       = OK {| m_metadata := emptyMetadata;
               m_interpolation := INTERP_DEFAULT;
               m_array := a;
               m_halfFlags := halfFlags;
               m_hueAdjust := HUE_NONE;
               m_direction := TRANSFORM_DIR_FORWARD;
               m_invQuality := LUT_INVERSION_FAST;
               m_componentProperties :=
                 (ComponentProperties_default, ComponentProperties_default,
                  ComponentProperties_default);
               m_fileOutBitDepth := BIT_DEPTH_UNKNOWN;
               m_cacheID := "" |}.
Proof.
  intros H. eexists. split.
  - apply Lut3by1DArray_new_ok. assumption.
  - unfold Lut1DOpData_new. rewrite Lut3by1DArray_new_ok by assumption.
    reflexivity.
Qed.

Lemma ComposeVec_ok (A : Lut1DOpData) (op : Op) (ops : list Op) :
  2 <= m_length (m_array A) <= 1048576 ->
  ComposeVec A (op :: ops)
  = OK (setArray A
          {| m_length := m_length (m_array A);
             m_numColorComponents := 3;
             m_data :=
               EvalTransform
                 (vector_resize (m_data (m_array A))
                    (m_length (m_array A) * 3))
                 (m_length (m_array A)) (op :: ops) |}).
Proof.
  intros H. unfold ComposeVec, Lut3by1DArray_resize, getArray, getLength, bind.
  change (List.length (op :: ops) =? 0)%nat with false. cbv iota.
  destruct (Z.ltb_spec (m_length (m_array A)) 2); [lia|].
  destruct (Z.gtb_spec (m_length (m_array A)) (1024 * 1024)); [lia|].
  reflexivity.
Qed.

Lemma Compose_unfold (A B : Lut1DOpData) (compFlag : ComposeMethod) :
  Compose A B compFlag
  = do Aops <- Compose_setup A B compFlag;
    do R <- ComposeVec (fst Aops) (snd Aops);
    OK (setHueAdjust
          (setFormatMetadata R
             (combine (getFormatMetadata R) (getFormatMetadata B)))
          (getHueAdjust B)).
Proof.
  unfold Compose, bind.
  destruct (Compose_setup A B compFlag) as [[A0 ops]|what]; reflexivity.
Qed.

(** [Compose] case by case, on the two locals [min_size] and
    [needHalfDomain] that its switch sets. *)
Lemma Compose_cases (A B : Lut1DOpData) (compFlag : ComposeMethod) :
  let min_size := compose_min_size compFlag in
  let need_half_domain := compose_needHalfDomain compFlag in
  let good_domain :=
    isInputHalfDomain A
    || ((m_length (m_array A) >=? min_size) && negb need_half_domain) in
  let use_orig :=
    if decide (compFlag = COMPOSE_RESAMPLE_NO) then true else false in
  ComposeVec A [] = Throw "There is nothing to compose the 1D LUT with"
  /\ (good_domain = false -> use_orig = false ->
      exists dom R,
        Lut1DOpData_new
          (if need_half_domain then LUT_INPUT_HALF_CODE else LUT_STANDARD)
          min_size = OK dom
        /\ m_length (m_array dom) = min_size
        /\ isInputHalfDomain dom = need_half_domain
        /\ (forall idx c, 0 <= idx < min_size -> 0 <= c < 3 ->
              sample (m_array dom) idx c
              = ideal_value (m_halfFlags dom) min_size idx)
        /\ Compose_setup A B compFlag
           = OK (setFormatMetadata dom (getFormatMetadata A),
                 [Lut1DOp A; Lut1DOp (clone B)])
        /\ Compose A B compFlag = OK R
        /\ m_length (m_array R) = min_size
        /\ m_data (m_array R)
           = EvalTransform (m_data (m_array dom)) min_size
               [Lut1DOp A; Lut1DOp (clone B)]
        /\ getFormatMetadata R
           = combine (getFormatMetadata A) (getFormatMetadata B)
        /\ getHueAdjust R = getHueAdjust B)
  /\ (good_domain = true \/ use_orig = true ->
      Compose_setup A B compFlag = OK (A, [Lut1DOp (clone B)])
      /\ Compose A B compFlag
         = (do R <- ComposeVec A [Lut1DOp (clone B)];
            OK (setHueAdjust
                  (setFormatMetadata R
                     (combine (getFormatMetadata A) (getFormatMetadata B)))
                  (getHueAdjust B)))
      /\ forall R, Compose A B compFlag = OK R ->
           getFormatMetadata R
           = combine (getFormatMetadata A) (getFormatMetadata B)
           /\ getHueAdjust R = getHueAdjust B).
Proof.
  intros min_size need_half_domain good_domain use_orig.
  split; [reflexivity|]. split.
  - intros Hgood Horig.
    assert (Hmin : min_size = 65536).
    { unfold use_orig in Horig. unfold min_size.
      destruct compFlag; [discriminate Horig|reflexivity|reflexivity]. }
    set (hf := if need_half_domain then LUT_INPUT_HALF_CODE
               else LUT_STANDARD).
    destruct (Lut1DOpData_new_ok hf min_size ltac:(lia)) as (a & Ha & Hdom).
    destruct (Lut3by1DArray_new_identity _ _ _ Ha)
      as (_ & Hl & Hn & Hsize & Hsample).
    clear Ha. revert Hdom.
    set (dom := {| m_metadata := emptyMetadata; m_array := a |}).
    intros Hdom.
    assert (Hsetup : Compose_setup A B compFlag
                     = OK (setFormatMetadata dom (getFormatMetadata A),
                           [Lut1DOp A; Lut1DOp (clone B)])).
    { unfold Compose_setup, getArray, getLength.
      fold min_size. fold need_half_domain. fold good_domain.
      fold use_orig. rewrite Hgood, Horig. simpl negb. simpl andb.
      cbv iota. fold hf. rewrite Hdom. reflexivity. }
    exists dom. eexists.
    split; [exact Hdom|]. split; [exact Hl|].
    split; [unfold hf; destruct need_half_domain; reflexivity|].
    split; [exact Hsample|]. split; [exact Hsetup|].
    rewrite Compose_unfold, Hsetup. unfold bind at 1. simpl fst. simpl snd.
    rewrite ComposeVec_ok by (simpl; lia).
    unfold bind. split; [reflexivity|].
    split; [exact Hl|]. split; [|split; reflexivity].
    simpl. rewrite Hl. rewrite vector_resize_same by lia. reflexivity.
  - intros Hcase.
    assert (Hsetup : Compose_setup A B compFlag
                     = OK (A, [Lut1DOp (clone B)])).
    { unfold Compose_setup, getArray, getLength.
      fold min_size. fold need_half_domain. fold good_domain.
      fold use_orig.
      destruct Hcase as [-> | ->]; [reflexivity|].
      rewrite andb_false_r. reflexivity. }
    split; [exact Hsetup|].
    assert (Hmeta : forall R, ComposeVec A [Lut1DOp (clone B)] = OK R ->
                              getFormatMetadata R = getFormatMetadata A).
    { intros R. unfold ComposeVec, bind.
      change (List.length [Lut1DOp (clone B)] =? 0)%nat with false.
      cbv iota. destruct (Lut3by1DArray_resize _ _ _); [|discriminate].
      intros H. inversion H. reflexivity. }
    assert (Heq : Compose A B compFlag
                  = (do R <- ComposeVec A [Lut1DOp (clone B)];
                     OK (setHueAdjust
                           (setFormatMetadata R
                              (combine (getFormatMetadata A)
                                 (getFormatMetadata B)))
                           (getHueAdjust B)))).
    { rewrite Compose_unfold, Hsetup. unfold bind at 1. simpl fst. simpl snd.
      unfold bind.
      destruct (ComposeVec A [Lut1DOp (clone B)]) as [R0|what] eqn:E;
        [|reflexivity].
      rewrite (Hmeta R0 eq_refl). reflexivity. }
    split; [exact Heq|].
    intros R HR. rewrite Heq in HR. unfold bind in HR.
    destruct (ComposeVec A [Lut1DOp (clone B)]) as [R0|what];
      [|discriminate].
    inversion HR. split; reflexivity.
Qed.

(** C4. [compose(A, B, method)]: [min_size] is 0 for RESAMPLE_NO and 65,536
    for RESAMPLE_BIG and RESAMPLE_HD, and only RESAMPLE_HD requires a half
    domain. When the domain of [A] is not good and the method resamples,
    [A] is replaced by a fresh identity LUT of length [min_size],
    half-domain iff the method requires it, that keeps the format metadata
    of [A], and the original [A] heads the evaluator chain; then the clone
    of [B] is appended and [compose_vec] is run; the format metadata of [B]
    are merged into those of [A] and the result has the hue adjust of [B].
    [compose_vec] fails on an empty chain. *)
Theorem C4_compose (A B : Lut1DOpData) (compFlag : ComposeMethod) :
  let min_size :=
    match compFlag with
    | COMPOSE_RESAMPLE_NO => 0
    | COMPOSE_RESAMPLE_BIG => 65536
    | COMPOSE_RESAMPLE_HD => 65536
    end in
  let need_half_domain :=
    match compFlag with
    | COMPOSE_RESAMPLE_HD => true
    | COMPOSE_RESAMPLE_NO | COMPOSE_RESAMPLE_BIG => false
    end in
  let good_domain :=
    isInputHalfDomain A
    || ((m_length (m_array A) >=? min_size) && negb need_half_domain) in
  let use_orig :=
    if decide (compFlag = COMPOSE_RESAMPLE_NO) then true else false in
  ComposeVec A [] = Throw "There is nothing to compose the 1D LUT with"
  /\ (good_domain = false -> use_orig = false ->
      exists dom R,
        Lut1DOpData_new
          (if need_half_domain then LUT_INPUT_HALF_CODE else LUT_STANDARD)
          min_size = OK dom
        /\ m_length (m_array dom) = min_size
        /\ isInputHalfDomain dom = need_half_domain
        /\ (forall idx c, 0 <= idx < min_size -> 0 <= c < 3 ->
              sample (m_array dom) idx c
              = ideal_value (m_halfFlags dom) min_size idx)
        /\ Compose_setup A B compFlag
           = OK (setFormatMetadata dom (getFormatMetadata A),
                 [Lut1DOp A; Lut1DOp (clone B)])
        /\ Compose A B compFlag = OK R
        /\ m_length (m_array R) = min_size
        /\ m_data (m_array R)
           = EvalTransform (m_data (m_array dom)) min_size
               [Lut1DOp A; Lut1DOp (clone B)]
        /\ getFormatMetadata R
           = combine (getFormatMetadata A) (getFormatMetadata B)
        /\ getHueAdjust R = getHueAdjust B)
  /\ (good_domain = true \/ use_orig = true ->
      Compose_setup A B compFlag = OK (A, [Lut1DOp (clone B)])
      /\ Compose A B compFlag
         = (do R <- ComposeVec A [Lut1DOp (clone B)];
            OK (setHueAdjust
                  (setFormatMetadata R
                     (combine (getFormatMetadata A) (getFormatMetadata B)))
                  (getHueAdjust B)))
      /\ forall R, Compose A B compFlag = OK R ->
           getFormatMetadata R
           = combine (getFormatMetadata A) (getFormatMetadata B)
           /\ getHueAdjust R = getHueAdjust B).
Proof.
  intros min_size need_half_domain good_domain use_orig.
  assert (Hsize : min_size = compose_min_size compFlag)
    by (destruct compFlag; reflexivity).
  assert (Hhalf : need_half_domain = compose_needHalfDomain compFlag)
    by (destruct compFlag; reflexivity).
  pose proof (Compose_cases A B compFlag) as H. cbv zeta in H.
  unfold good_domain. rewrite Hsize, Hhalf. exact H.
Qed.

Lemma setInversionQuality_restore (L : Lut1DOpData)
    (style : LutInversionQuality) :
  setInversionQuality (setInversionQuality L style) (m_invQuality L) = L.
Proof. destruct L; reflexivity. Qed.

(** C5. [make_fast_lut1d_from_inverse] fails on a FORWARD LUT. On an INVERSE
    LUT for which [has_extended_range] holds it returns a FORWARD LUT whose
    half flags include INPUT_HALF_CODE and whose length is 65,536: the fresh
    lookup domain composed by RESAMPLE_NO with the source as it is observed
    under the guard, that is with the inversion quality EXACT and every
    other member as stored; the source is restored on exit. *)
Theorem C5_make_fast_lut1d_from_inverse (lut : Lut1DOpData) (forGPU : bool) :
  (getDirection lut = TRANSFORM_DIR_FORWARD ->
   fst (MakeFastLut1DFromInverse lut forGPU)
   = Throw "MakeFastLut1DFromInverse expects an inverse 1D LUT")
  /\ (getDirection lut = TRANSFORM_DIR_INVERSE ->
      hasExtendedRange lut = true ->
      exists dom guarded R,
        MakeLookupDomain BIT_DEPTH_F16 = OK dom
        /\ guarded
           = {| m_metadata := m_metadata lut;
                m_interpolation := m_interpolation lut;
                m_array := m_array lut;
                m_halfFlags := m_halfFlags lut;
                m_hueAdjust := m_hueAdjust lut;
                m_direction := m_direction lut;
                m_invQuality := LUT_INVERSION_EXACT;
                m_componentProperties := m_componentProperties lut;
                m_fileOutBitDepth := m_fileOutBitDepth lut;
                m_cacheID := m_cacheID lut |}
        /\ guarded = setInversionQuality lut LUT_INVERSION_EXACT
        /\ fst (MakeFastLut1DFromInverse lut forGPU) = OK R
        /\ Compose dom guarded COMPOSE_RESAMPLE_NO = OK R
        /\ getDirection R = TRANSFORM_DIR_FORWARD
        /\ Z.land (m_halfFlags R) LUT_INPUT_HALF_CODE = LUT_INPUT_HALF_CODE
        /\ m_length (m_array R) = 65536
        /\ m_data (m_array R)
           = EvalTransform (m_data (m_array dom)) 65536 [Lut1DOp guarded]
        /\ snd (MakeFastLut1DFromInverse lut forGPU) = lut).
Proof.
  split.
  - intros Hdir. unfold MakeFastLut1DFromInverse. rewrite Hdir.
    reflexivity.
  - intros Hdir Hext.
    destruct (Lut1DOpData_new_ok LUT_INPUT_HALF_CODE 65536 ltac:(lia))
      as (a & Ha & Hdom).
    destruct (Lut3by1DArray_new_identity _ _ _ Ha)
      as (_ & Hl & Hn & Hsize & _).
    clear Ha. revert Hdom.
    set (dom := {| m_metadata := emptyMetadata; m_array := a |}).
    intros Hdom.
    assert (Hlookup : MakeLookupDomain BIT_DEPTH_F16 = OK dom).
    { unfold MakeLookupDomain. exact Hdom. }
    set (guarded := setInversionQuality lut LUT_INVERSION_EXACT).
    assert (Hcompose :
              Compose dom guarded COMPOSE_RESAMPLE_NO
              = OK (setHueAdjust
                      (setFormatMetadata
                         (setArray dom
                            {| m_length := 65536;
                               m_numColorComponents := 3;
                               m_data :=
                                 EvalTransform (m_data a) 65536
                                   [Lut1DOp (clone guarded)] |})
                         (combine emptyMetadata (getFormatMetadata guarded)))
                      (getHueAdjust guarded))).
    { rewrite Compose_unfold.
      assert (Hsetup : Compose_setup dom guarded COMPOSE_RESAMPLE_NO
                       = OK (dom, [Lut1DOp (clone guarded)])) by reflexivity.
      rewrite Hsetup. unfold bind at 1. simpl fst. simpl snd.
      rewrite ComposeVec_ok by (simpl; lia).
      unfold bind. simpl m_array. rewrite Hl.
      rewrite vector_resize_same by lia. reflexivity. }
    exists dom, guarded. eexists.
    split; [exact Hlookup|].
    split; [reflexivity|]. split; [reflexivity|].
    assert (Hfast : MakeFastLut1DFromInverse lut forGPU
                    = (Compose dom guarded COMPOSE_RESAMPLE_NO,
                       setInversionQuality guarded (m_invQuality lut))).
    { unfold MakeFastLut1DFromInverse. rewrite Hdir, Hext, Hlookup.
      reflexivity. }
    rewrite Hfast. simpl fst. simpl snd.
    split; [exact Hcompose|]. split; [exact Hcompose|].
    split; [reflexivity|]. split; [reflexivity|]. split; [reflexivity|].
    split; [reflexivity|]. apply setInversionQuality_restore.
Qed.
(** ** Rounding to binary32

    The arithmetic of [fill] on a standard domain, [(float)idx * (1.0f /
    ((float)dim - 1.0f))], followed through the rounding of SpecFloat. *)

Lemma digits2_pos_bounds (m : positive) :
  2 ^ (Zpos (digits2_pos m) - 1) <= Zpos m < 2 ^ Zpos (digits2_pos m).
Proof.
  induction m as [m IH|m IH|]; simpl digits2_pos.
  - rewrite Pos2Z.inj_succ.
    replace (Z.succ (Zpos (digits2_pos m)) - 1)
      with (Z.succ (Zpos (digits2_pos m) - 1)) by lia.
    rewrite !Z.pow_succ_r by lia. lia.
  - rewrite Pos2Z.inj_succ.
    replace (Z.succ (Zpos (digits2_pos m)) - 1)
      with (Z.succ (Zpos (digits2_pos m) - 1)) by lia.
    rewrite !Z.pow_succ_r by lia. lia.
  - simpl. lia.
Qed.

Lemma pow2_lt_inv (a b : Z) : 0 <= a -> 0 <= b -> 2 ^ a < 2 ^ b -> a < b.
Proof. intros Ha Hb H. apply (Z.pow_lt_mono_r_iff 2); lia. Qed.

Lemma digits2_pos_unique (m : positive) (d : Z) :
  1 <= d -> 2 ^ (d - 1) <= Zpos m < 2 ^ d -> Zpos (digits2_pos m) = d.
Proof.
  intros Hd [H1 H2]. pose proof (digits2_pos_bounds m) as [H3 H4].
  assert (d - 1 < Zpos (digits2_pos m)) by (apply pow2_lt_inv; lia).
  assert (Zpos (digits2_pos m) - 1 < d) by (apply pow2_lt_inv; lia).
  lia.
Qed.

Lemma shr_1_m (mrs : shr_record) :
  0 <= shr_m mrs -> shr_m (shr_1 mrs) = shr_m mrs / 2.
Proof.
  destruct mrs as [m r s]. cbn [shr_m]. intros Hm.
  destruct m as [|[p|p|]|p]; cbn [shr_1 shr_m]; try lia.
  - reflexivity.
  - apply (Z.div_unique _ 2 _ 1); lia.
  - apply (Z.div_unique _ 2 _ 0); lia.
  - reflexivity.
Qed.

Lemma shr_1_nonneg (mrs : shr_record) :
  0 <= shr_m mrs -> 0 <= shr_m (shr_1 mrs).
Proof.
  intros H. rewrite shr_1_m by assumption. apply Z.div_pos; lia.
Qed.

Lemma shr_1_exact (mrs : shr_record) :
  0 <= shr_m mrs -> shr_r mrs = false -> shr_s mrs = false ->
  shr_m mrs mod 2 = 0 ->
  shr_r (shr_1 mrs) = false /\ shr_s (shr_1 mrs) = false.
Proof.
  destruct mrs as [m r s]. cbn [shr_m shr_r shr_s]. intros Hm -> -> Hmod.
  destruct m as [|[p|p|]|p]; cbn [shr_1 shr_r shr_s orb];
    try (split; reflexivity); try lia.
  - exfalso. rewrite (Pos2Z.inj_xI p) in Hmod.
    replace (2 * Zpos p + 1) with (1 + Zpos p * 2) in Hmod by lia.
    rewrite Z.mod_add in Hmod by lia. discriminate.
  - discriminate.
Qed.

Lemma iter_pos_shr_m (p : positive) :
  forall mrs, 0 <= shr_m mrs ->
    shr_m (SpecFloat.iter_pos shr_1 p mrs) = shr_m mrs / 2 ^ Zpos p
    /\ 0 <= shr_m (SpecFloat.iter_pos shr_1 p mrs).
Proof.
  induction p as [p IH|p IH|]; intros mrs Hm; simpl SpecFloat.iter_pos.
  - destruct (IH (shr_1 mrs) (shr_1_nonneg _ Hm)) as [H1 H1'].
    destruct (IH _ H1') as [H2 H2'].
    split; [|assumption].
    rewrite H2, H1, shr_1_m by assumption.
    rewrite !Z.div_div by (try apply Z.pow_pos_nonneg; lia).
    f_equal. rewrite (Pos2Z.inj_xI p).
    replace (2 * Zpos p + 1) with (1 + Zpos p + Zpos p) by lia.
    rewrite !Z.pow_add_r by lia. change (2 ^ 1) with 2. ring.
  - destruct (IH mrs Hm) as [H1 H1'].
    destruct (IH _ H1') as [H2 H2'].
    split; [|assumption].
    rewrite H2, H1.
    rewrite !Z.div_div by (try apply Z.pow_pos_nonneg; lia).
    f_equal. rewrite (Pos2Z.inj_xO p).
    replace (2 * Zpos p) with (Zpos p + Zpos p) by lia.
    rewrite !Z.pow_add_r by lia. reflexivity.
  - split; [|apply shr_1_nonneg; assumption].
    rewrite shr_1_m by assumption. reflexivity.
Qed.

Lemma mod_pow2_split (m a b : Z) :
  0 <= a -> 0 <= b -> m mod 2 ^ (a + b) = 0 ->
  m mod 2 ^ a = 0 /\ (m / 2 ^ a) mod 2 ^ b = 0.
Proof.
  intros Ha Hb H.
  assert (Hpa : 0 < 2 ^ a) by (apply Z.pow_pos_nonneg; lia).
  assert (Hpb : 0 < 2 ^ b) by (apply Z.pow_pos_nonneg; lia).
  rewrite Z.pow_add_r in H by lia.
  apply Z.mod_divide in H; [|lia]. destruct H as [k Hk].
  subst m. split.
  - apply Z.mod_divide; [lia|]. exists (k * 2 ^ b). ring.
  - replace (k * (2 ^ a * 2 ^ b)) with (k * 2 ^ b * 2 ^ a) by ring.
    rewrite Z.div_mul by lia.
    apply Z.mod_divide; [lia|]. exists k. ring.
Qed.

Lemma iter_pos_shr_exact (p : positive) :
  forall mrs, 0 <= shr_m mrs -> shr_r mrs = false -> shr_s mrs = false ->
    shr_m mrs mod 2 ^ Zpos p = 0 ->
    shr_r (SpecFloat.iter_pos shr_1 p mrs) = false
    /\ shr_s (SpecFloat.iter_pos shr_1 p mrs) = false.
Proof.
  induction p as [p IH|p IH|]; intros mrs Hm Hr Hs Hmod; simpl SpecFloat.iter_pos.
  - rewrite (Pos2Z.inj_xI p) in Hmod.
    replace (2 * Zpos p + 1) with (1 + (Zpos p + Zpos p)) in Hmod by lia.
    apply mod_pow2_split in Hmod as [Hm1 Hm2]; [|lia|lia].
    change (2 ^ 1) with 2 in Hm1, Hm2.
    apply mod_pow2_split in Hm2 as [Hm2 Hm3]; [|lia|lia].
    destruct (shr_1_exact mrs Hm Hr Hs Hm1) as [Hr1 Hs1].
    pose proof (shr_1_nonneg _ Hm) as Hn1.
    rewrite <- shr_1_m in Hm2, Hm3 by assumption.
    destruct (IH _ Hn1 Hr1 Hs1 Hm2) as [Hr2 Hs2].
    destruct (iter_pos_shr_m p _ Hn1) as [He Hn2].
    rewrite <- He in Hm3.
    apply IH; assumption.
  - rewrite (Pos2Z.inj_xO p) in Hmod.
    replace (2 * Zpos p) with (Zpos p + Zpos p) in Hmod by lia.
    apply mod_pow2_split in Hmod as [Hm1 Hm2]; [|lia|lia].
    destruct (IH _ Hm Hr Hs Hm1) as [Hr2 Hs2].
    destruct (iter_pos_shr_m p _ Hm) as [He Hn2].
    rewrite <- He in Hm2.
    apply IH; assumption.
  - change (2 ^ 1) with 2 in Hmod. apply shr_1_exact; assumption.
Qed.

Lemma pow2_pos (z : Z) : 0 <= z -> 0 < 2 ^ z.
Proof. intros H. apply Z.pow_pos_nonneg; lia. Qed.

Lemma shr_record_of_loc_m (m : Z) (l : location) :
  shr_m (shr_record_of_loc m l) = m.
Proof. destruct l as [|[]]; reflexivity. Qed.

Lemma shr_spec (M E n : Z) (l : location) :
  0 <= M -> 0 <= n ->
  shr_m (fst (shr (shr_record_of_loc M l) E n)) = M / 2 ^ n
  /\ snd (shr (shr_record_of_loc M l) E n) = E + n.
Proof.
  intros HM Hn. destruct n as [|p|p]; [| |lia]; simpl shr; simpl fst;
    simpl snd.
  - rewrite shr_record_of_loc_m, Z.div_1_r. split; [reflexivity|lia].
  - split; [|reflexivity].
    destruct (iter_pos_shr_m p (shr_record_of_loc M l)) as [H _].
    + rewrite shr_record_of_loc_m. assumption.
    + rewrite H, shr_record_of_loc_m. reflexivity.
Qed.

Lemma shr_exact (M E n : Z) :
  0 <= M -> 0 <= n -> M mod 2 ^ n = 0 ->
  loc_of_shr_record (fst (shr (shr_record_of_loc M loc_Exact) E n))
  = loc_Exact.
Proof.
  intros HM Hn Hmod. destruct n as [|p|p]; [| |lia]; simpl shr; simpl fst.
  - reflexivity.
  - destruct (iter_pos_shr_exact p (shr_record_of_loc M loc_Exact))
      as [Hr Hs]; try reflexivity; try assumption.
    destruct (SpecFloat.iter_pos shr_1 p _) as [m r s]. simpl in Hr, Hs. subst.
    reflexivity.
Qed.

Lemma round_nearest_even_cases (m : Z) (l : location) :
  round_nearest_even m l = m \/ round_nearest_even m l = m + 1.
Proof.
  destruct l as [|[]]; simpl; auto. destruct (Z.even m); auto.
Qed.

Lemma fexp_normal (z : Z) : -125 <= z -> fexp 24 128 z = z - 24.
Proof. intros H. unfold fexp, emin. lia. Qed.

(** The rounding of a positive number [p * 2^E] of at least 24 digits, in
    the range of the normal numbers: the result is finite, has a mantissa
    of 24 digits, and is at most one unit in the last place above. *)
Lemma binary_round_aux_spec (p : positive) (E : Z) (l : location) :
  let D := Zpos (digits2_pos p) in
  24 <= D -> -125 <= D + E <= 127 ->
  exists m e,
    binary_round_aux 24 128 false (Zpos p) E l = S754_finite false m e
    /\ 2 ^ 23 <= Zpos m < 2 ^ 24
    /\ E + (D - 24) <= e <= E + (D - 24) + 1
    /\ Zpos m * 2 ^ (e - E) <= Zpos p + 2 ^ (D - 24)
    /\ (l = loc_Exact -> Zpos p mod 2 ^ (D - 24) = 0 ->
        e = E + (D - 24) /\ Zpos m * 2 ^ (D - 24) = Zpos p).
Proof.
  intros D HD HDE.
  pose proof (digits2_pos_bounds p) as [Hlo Hhi]. fold D in Hlo, Hhi.
  set (n := D - 24).
  assert (Hn : 0 <= n) by (unfold n; lia).
  assert (Hpn : 0 < 2 ^ n) by (apply pow2_pos; assumption).
  assert (HD1 : 2 ^ (D - 1) = 2 ^ 23 * 2 ^ n).
  { rewrite <- Z.pow_add_r by lia. f_equal. unfold n. lia. }
  assert (HD2 : 2 ^ D = 2 ^ 24 * 2 ^ n).
  { rewrite <- Z.pow_add_r by lia. f_equal. unfold n. lia. }
  set (F := Zpos p / 2 ^ n).
  assert (HF : 2 ^ 23 <= F < 2 ^ 24).
  { unfold F. split.
    - apply Z.div_le_lower_bound; lia.
    - apply Z.div_lt_upper_bound; lia. }
  assert (HFm : F * 2 ^ n <= Zpos p < F * 2 ^ n + 2 ^ n).
  { unfold F. pose proof (Z.div_mod (Zpos p) (2 ^ n) ltac:(lia)).
    pose proof (Z.mod_pos_bound (Zpos p) (2 ^ n) ltac:(lia)). lia. }
  unfold binary_round_aux, shr_fexp.
  change (Zdigits2 (Zpos p)) with D.
  rewrite (fexp_normal (D + E)) by lia.
  replace (D + E - 24 - E) with n by (unfold n; lia).
  destruct (shr_spec (Zpos p) E n l ltac:(lia) Hn) as [Hm1 He1].
  assert (Hexact : l = loc_Exact -> Zpos p mod 2 ^ n = 0 ->
            loc_of_shr_record (fst (shr (shr_record_of_loc (Zpos p) l) E n))
            = loc_Exact).
  { intros -> Hmod. apply shr_exact; [lia|assumption|assumption]. }
  destruct (shr (shr_record_of_loc (Zpos p) l) E n) as [mrs1 e1].
  simpl fst in *. simpl snd in *. fold F in Hm1. subst e1.
  set (mr := round_nearest_even (shr_m mrs1) (loc_of_shr_record mrs1)).
  assert (Hmr : mr = F \/ mr = F + 1).
  { unfold mr. rewrite <- Hm1. apply round_nearest_even_cases. }
  assert (Hmr0 : 0 < mr) by lia.
  destruct mr as [|q|q] eqn:Eq; try lia.
  change (Zdigits2 (Zpos q)) with (Zpos (digits2_pos q)).
  destruct (Z.eq_dec (Zpos q) (2 ^ 24)) as [Hcarry|Hnocarry].
  - (* the mantissa has reached 2^24: one more shift *)
    assert (Hq : q = 16777216%positive) by (change (2 ^ 24) with 16777216 in Hcarry; lia).
    subst q. change (Zpos (digits2_pos 16777216)) with 25.
    rewrite (fexp_normal (25 + (E + n))) by (unfold n; lia).
    replace (25 + (E + n) - 24 - (E + n)) with 1 by lia.
    cbn [shr shr_m SpecFloat.iter_pos shr_1 shr_record_of_loc fst snd orb].
    destruct (Z.leb_spec (E + n + 1) (128 - 24)) as [_|Hbad];
      [|unfold n in Hbad; lia].
    exists 8388608%positive, (E + n + 1).
    split; [reflexivity|]. split; [simpl; lia|].
    split; [unfold n; lia|]. split.
    + replace (E + n + 1 - E) with (n + 1) by lia.
      rewrite Z.pow_add_r by lia. change (2 ^ 1) with 2.
      change (2 ^ 24) with 16777216 in *. change (2 ^ 23) with 8388608 in *.
      fold n. nia.
    + intros Hl Hmod. exfalso.
      specialize (Hexact Hl Hmod).
      unfold mr in Eq. rewrite Hexact in Eq. simpl in Eq.
      rewrite Hm1 in Eq. change (2 ^ 24) with 16777216 in *. lia.
  - assert (Hq24 : Zpos (digits2_pos q) = 24).
    { apply digits2_pos_unique; [lia|]. change (24 - 1) with 23. lia. }
    rewrite Hq24.
    rewrite (fexp_normal (24 + (E + n))) by (unfold n; lia).
    replace (24 + (E + n) - 24 - (E + n)) with 0 by lia.
    cbn [shr shr_m SpecFloat.iter_pos shr_1 shr_record_of_loc fst snd orb].
    destruct (Z.leb_spec (E + n) (128 - 24)) as [_|Hbad];
      [|unfold n in Hbad; lia].
    exists q, (E + n).
    split; [reflexivity|]. split; [lia|].
    split; [unfold n; lia|]. split.
    + replace (E + n - E) with n by lia. fold n. nia.
    + intros Hl Hmod. split; [reflexivity|].
      specialize (Hexact Hl Hmod).
      unfold mr in Eq. rewrite Hexact in Eq. simpl in Eq.
      rewrite Hm1 in Eq. fold n in Hmod |- *.
      apply Z.mod_divide in Hmod; [|lia]. destruct Hmod as [k Hk].
      unfold F in Eq. rewrite Hk, Z.div_mul in Eq by lia. lia.
Qed.

Lemma pos_iter_xO (m d : positive) :
  Zpos (Pos.iter xO m d) = Zpos m * 2 ^ Zpos d.
Proof.
  induction d as [|d IH] using Pos.peano_ind.
  - simpl. lia.
  - rewrite Pos.iter_succ, Pos2Z.inj_xO, IH, Pos2Z.inj_succ.
    rewrite Z.pow_succ_r by lia. ring.
Qed.

Lemma shl_align_spec (m : positive) (e e' : Z) :
  Zpos (fst (shl_align m e e')) = Zpos m * 2 ^ (e - Z.min e e')
  /\ snd (shl_align m e e') = Z.min e e'.
Proof.
  unfold shl_align. destruct (e' - e) as [|d|d] eqn:Ed; simpl fst; simpl snd.
  - replace (Z.min e e') with e by lia. rewrite Z.sub_diag. simpl. lia.
  - replace (Z.min e e') with e by lia. rewrite Z.sub_diag. simpl. lia.
  - replace (Z.min e e') with e' by lia.
    rewrite pos_iter_xO. replace (e - e') with (Zpos d) by lia.
    split; reflexivity.
Qed.

(** A positive float with a mantissa of 24 digits that stands for the
    number [num / 2^sh]. *)
Lemma binary_round_exact (p : positive) (E : Z) :
  let D := Zpos (digits2_pos p) in
  -125 <= D + E <= 127 ->
  (24 < D -> Zpos p mod 2 ^ (D - 24) = 0) ->
  exists m,
    binary_round 24 128 false p E = S754_finite false m (D + E - 24)
    /\ 2 ^ 23 <= Zpos m < 2 ^ 24
    /\ Zpos m * 2 ^ Z.max 0 (D - 24) = Zpos p * 2 ^ Z.max 0 (24 - D).
Proof.
  intros D HDE Hexact. unfold binary_round.
  pose proof (digits2_pos_bounds p) as [Hlo Hhi]. fold D in Hlo, Hhi.
  assert (HD : 1 <= D) by (unfold D; lia).
  rewrite (fexp_normal (Zpos (digits2_pos p) + E)) by (fold D; lia).
  fold D.
  destruct (shl_align_spec p E (D + E - 24)) as [Hm He].
  destruct (shl_align p E (D + E - 24)) as [mz ez].
  simpl fst in Hm. simpl snd in He. subst ez.
  destruct (Z.le_gt_cases D 24) as [Hle|Hgt].
  - (* the mantissa is aligned on 24 digits: no rounding *)
    replace (Z.min E (D + E - 24)) with (D + E - 24) in * by lia.
    replace (E - (D + E - 24)) with (24 - D) in Hm by lia.
    assert (Hmz : 2 ^ 23 <= Zpos mz < 2 ^ 24).
    { rewrite Hm.
      assert (H23 : 2 ^ 23 = 2 ^ (D - 1) * 2 ^ (24 - D)).
      { rewrite <- Z.pow_add_r by lia. f_equal. lia. }
      assert (H24 : 2 ^ 24 = 2 ^ D * 2 ^ (24 - D)).
      { rewrite <- Z.pow_add_r by lia. f_equal. lia. }
      pose proof (pow2_pos (24 - D) ltac:(lia)). nia. }
    assert (Hdz : Zpos (digits2_pos mz) = 24).
    { apply digits2_pos_unique; [lia|]. change (24 - 1) with 23. lia. }
    destruct (binary_round_aux_spec mz (D + E - 24) loc_Exact)
      as (m & e & Hr & Hb & He & _ & Hex); rewrite ?Hdz; try lia.
    rewrite Hdz in Hex. change (24 - 24) with 0 in Hex.
    destruct (Hex eq_refl) as [He' Hm'].
    { apply Z.mod_1_r. }
    exists m. rewrite Hr. subst e.
    split; [f_equal; lia|]. split; [assumption|].
    replace (Z.max 0 (D - 24)) with 0 by lia.
    replace (Z.max 0 (24 - D)) with (24 - D) by lia.
    rewrite <- Hm. change (2 ^ 0) with 1 in *. lia.
  - replace (Z.min E (D + E - 24)) with E in * by lia.
    rewrite Z.sub_diag in Hm. change (2 ^ 0) with 1 in Hm.
    assert (mz = p) by lia. subst mz.
    destruct (binary_round_aux_spec p E loc_Exact)
      as (m & e & Hr & Hb & He & Hup & Hex); fold D; try lia.
    fold D in He, Hup, Hex.
    destruct (Hex eq_refl (Hexact Hgt)) as [He' Hm'].
    exists m. rewrite Hr. subst e.
    split; [f_equal; lia|]. split; [assumption|].
    replace (Z.max 0 (D - 24)) with (D - 24) by lia.
    replace (Z.max 0 (24 - D)) with 0 by lia.
    change (2 ^ 0) with 1. lia.
Qed.

(** [(float)k] is exact for [1 <= k < 2^24]: a mantissa [k * 2^sh] of 24
    digits at the exponent [- sh]. *)
Lemma float_of_ulong_spec (k : Z) :
  1 <= k < 2 ^ 24 ->
  exists m sh,
    float_of_ulong k = S754_finite false m (- sh)
    /\ 0 <= sh <= 23
    /\ 2 ^ 23 <= Zpos m < 2 ^ 24
    /\ Zpos m = k * 2 ^ sh.
Proof.
  intros Hk. destruct k as [|p|p]; try lia.
  unfold float_of_ulong, binary_normalize.
  pose proof (digits2_pos_bounds p) as [Hlo Hhi].
  set (D := Zpos (digits2_pos p)) in *.
  assert (HD : 1 <= D <= 24).
  { split; [unfold D; lia|].
    assert (D - 1 < 24) by (apply pow2_lt_inv; lia). lia. }
  destruct (binary_round_exact p 0) as (m & Hr & Hb & Hm); fold D; try lia.
  fold D in Hr, Hm.
  replace (Z.max 0 (D - 24)) with 0 in Hm by lia.
  replace (Z.max 0 (24 - D)) with (24 - D) in Hm by lia.
  change (2 ^ 0) with 1 in Hm.
  exists m, (24 - D). rewrite Hr.
  split; [f_equal; lia|]. split; [lia|]. split; [assumption|]. lia.
Qed.

(** [(float)n - 1.0f] is exact for [2 <= n <= 2^20]. *)
Lemma float_minus_one_spec (n : Z) :
  2 <= n <= 2 ^ 20 ->
  exists md b,
    f32_sub (float_of_ulong n) f32_1 = S754_finite false md (- b)
    /\ 4 <= b <= 23
    /\ 2 ^ 23 <= Zpos md < 2 ^ 24
    /\ Zpos md = (n - 1) * 2 ^ b.
Proof.
  intros Hn.
  change (2 ^ 20) with 1048576 in Hn.
  destruct (float_of_ulong_spec n) as (mn & sh & Hf & Hsh & Hb & Hm).
  { change (2 ^ 24) with 16777216. lia. }
  assert (Hsh' : sh <= 22).
  { destruct (Z.le_gt_cases sh 22) as [|Hgt]; [assumption|].
    assert (sh = 23) by lia. subst sh.
    change (2 ^ 23) with 8388608 in *. change (2 ^ 24) with 16777216 in *.
    lia. }
  rewrite Hf. unfold f32_sub, f32_1, SFsub. cbv zeta.
  replace (Z.min (- sh) (-23)) with (-23) by lia.
  destruct (shl_align_spec mn (- sh) (-23)) as [H1 _].
  destruct (shl_align_spec 8388608 (-23) (-23)) as [H2 _].
  unfold cond_Zopp. rewrite H1, H2.
  replace (Z.min (- sh) (-23)) with (-23) by lia.
  replace (- sh - -23) with (23 - sh) by lia.
  replace (Z.min (-23) (-23)) with (-23) by lia.
  replace (-23 - -23) with 0 by lia.
  assert (Hdiff : Zpos mn * 2 ^ (23 - sh) - 8388608 * 2 ^ 0
                  = (n - 1) * 2 ^ 23).
  { rewrite Hm. rewrite <- Z.mul_assoc, <- Z.pow_add_r by lia.
    replace (sh + (23 - sh)) with 23 by lia.
    change (2 ^ 0) with 1. change (2 ^ 23) with 8388608. lia. }
  rewrite Hdiff.
  destruct ((n - 1) * 2 ^ 23) as [|P|P] eqn:EP;
    [change (2 ^ 23) with 8388608 in EP; lia| |
     change (2 ^ 23) with 8388608 in EP; lia].
  unfold binary_normalize.
  destruct (n - 1) as [|k|k] eqn:Ek; try lia.
  pose proof (digits2_pos_bounds k) as [Hlo Hhi].
  set (D' := Zpos (digits2_pos k)) in *.
  assert (HD' : 1 <= D' <= 20).
  { split; [unfold D'; lia|].
    assert (D' - 1 < 20) by (apply pow2_lt_inv; try lia;
                              change (2 ^ 20) with 1048576; lia).
    lia. }
  assert (HDP : Zpos (digits2_pos P) = D' + 23).
  { apply digits2_pos_unique; [lia|]. rewrite <- EP.
    replace (D' + 23 - 1) with (D' - 1 + 23) by lia.
    rewrite !Z.pow_add_r by lia.
    pose proof (pow2_pos 23 ltac:(lia)). nia. }
  destruct (binary_round_exact P (-23)) as (m & Hr & Hbm & Hmm);
    rewrite ?HDP; try lia.
  { intros _. rewrite <- EP.
    replace (D' + 23 - 24) with (D' - 1) by lia.
    replace (2 ^ 23) with (2 ^ (24 - D') * 2 ^ (D' - 1)).
    - rewrite Z.mul_assoc. apply Z.mod_mul.
      pose proof (pow2_pos (D' - 1) ltac:(lia)). lia.
    - rewrite <- Z.pow_add_r by lia. f_equal. lia. }
  rewrite HDP in Hr, Hmm.
  exists m, (24 - D'). rewrite Hr.
  split; [f_equal; lia|]. split; [lia|]. split; [assumption|].
  replace (Z.max 0 (D' + 23 - 24)) with (D' - 1) in Hmm by lia.
  replace (Z.max 0 (24 - (D' + 23))) with 0 in Hmm by lia.
  change (2 ^ 0) with 1 in Hmm. rewrite <- EP in Hmm.
  assert (H23 : 2 ^ 23 = 2 ^ (24 - D') * 2 ^ (D' - 1)).
  { rewrite <- Z.pow_add_r by lia. f_equal. lia. }
  rewrite H23 in Hmm.
  pose proof (pow2_pos (D' - 1) ltac:(lia)).
  apply (Z.mul_cancel_r _ _ (2 ^ (D' - 1))); [lia|]. lia.
Qed.

(** The core of [1.0f / y] for a [y] with a mantissa of 24 digits. *)
Lemma div_core_one (md : positive) (b : Z) :
  2 ^ 23 <= Zpos md < 2 ^ 24 -> -100 <= b <= 100 ->
  SFdiv_core_binary 24 128 8388608 (-23) (Zpos md) (- b)
  = (2 ^ 47 / Zpos md, b - 47,
     new_location (Zpos md) (2 ^ 47 mod Zpos md)).
Proof.
  intros Hmd Hb.
  assert (Hd : Zpos (digits2_pos md) = 24).
  { apply digits2_pos_unique; [lia|]. change (24 - 1) with 23. lia. }
  unfold SFdiv_core_binary, Zdigits2. cbv zeta.
  rewrite Hd. change (Zpos (digits2_pos 8388608)) with 24.
  replace (24 + -23 - (24 + - b)) with (b - 23) by lia.
  rewrite fexp_normal by lia.
  replace (Z.min (b - 23 - 24) (-23 - - b)) with (b - 47) by lia.
  replace (-23 - - b - (b - 47)) with 24 by lia.
  change (Z.shiftl 8388608 24) with (2 ^ 47).
  unfold Z.div, Z.modulo.
  destruct (Z.div_eucl (2 ^ 47) (Zpos md)) as [q r]. reflexivity.
Qed.

(** [1.0f / y]: at most one unit in the last place above the quotient. *)
Lemma one_over_spec (md : positive) (b : Z) :
  2 ^ 23 <= Zpos md < 2 ^ 24 -> 0 <= b <= 23 ->
  exists ms t,
    f32_div f32_1 (S754_finite false md (- b))
    = S754_finite false ms (b - 47 + t)
    /\ 2 ^ 23 <= Zpos ms < 2 ^ 24
    /\ 0 <= t <= 2
    /\ Zpos ms * 2 ^ t * Zpos md <= 2 ^ 47 + 2 ^ 24.
Proof.
  intros Hmd Hb.
  unfold f32_div, f32_1, SFdiv.
  rewrite (div_core_one md b Hmd) by lia.
  change (xorb false false) with false.
  change (2 ^ 23) with 8388608 in *. change (2 ^ 24) with 16777216 in *.
  change (2 ^ 47) with 140737488355328 in *.
  set (q := 140737488355328 / Zpos md).
  assert (Hq1 : 8388608 <= q).
  { apply Z.div_le_lower_bound; lia. }
  assert (Hq2 : q <= 16777216).
  { apply Z.div_le_upper_bound; lia. }
  assert (Hqm : Zpos md * q <= 140737488355328).
  { apply Z.mul_div_le. lia. }
  destruct q as [|pq|pq] eqn:Eq; try lia.
  pose proof (digits2_pos_bounds pq) as [Hlo Hhi].
  set (Dq := Zpos (digits2_pos pq)) in *.
  assert (HDq : 24 <= Dq <= 25).
  { split.
    - assert (23 < Dq); [|lia].
      apply pow2_lt_inv; first [lia | change (2 ^ 23) with 8388608; lia].
    - assert (Dq - 1 < 25); [|lia].
      apply pow2_lt_inv; first [lia | change (2 ^ 25) with 33554432; lia]. }
  destruct (binary_round_aux_spec pq (b - 47)
              (new_location (Zpos md) (140737488355328 mod Zpos md)))
    as (ms & es & Hr & Hbm & Hes & Hup & _); fold Dq; try lia.
  fold Dq in Hes, Hup.
  change (2 ^ 23) with 8388608 in Hbm. change (2 ^ 24) with 16777216 in Hbm.
  exists ms, (es - (b - 47)). rewrite Hr.
  split; [f_equal; lia|]. split; [assumption|]. split; [lia|].
  set (X := Zpos ms * 2 ^ (es - (b - 47))) in *.
  assert (HX : X * Zpos md <= (Zpos pq + 2 ^ (Dq - 24)) * Zpos md).
  { apply Z.mul_le_mono_nonneg_r; lia. }
  assert (HDcase : Dq = 24 \/ Dq = 25) by lia.
  destruct HDcase as [HD|HD]; rewrite HD in *.
  - change (2 ^ (24 - 24)) with 1 in HX. lia.
  - change (2 ^ (25 - 24)) with 2 in HX.
    change (2 ^ (25 - 1)) with 16777216 in Hlo.
    assert (Zpos md = 8388608) by nia. lia.
Qed.

(** The rounded product of [(float)idx] and the step [1.0f / (float)d],
    for [idx <= d]: at most [1 + 2^-22]. *)
Lemma scaled_index_bound (mi ms md : positive) (a b t idx d : Z) :
  2 ^ 23 <= Zpos mi < 2 ^ 24 -> 0 <= a <= 23 -> Zpos mi = idx * 2 ^ a ->
  2 ^ 23 <= Zpos md < 2 ^ 24 -> 0 <= b <= 23 -> Zpos md = d * 2 ^ b ->
  2 ^ 23 <= Zpos ms < 2 ^ 24 -> 0 <= t <= 2 ->
  Zpos ms * 2 ^ t * Zpos md <= 2 ^ 47 + 2 ^ 24 ->
  idx <= d ->
  exists mx ex,
    f32_mul (S754_finite false mi (- a)) (S754_finite false ms (b - 47 + t))
    = S754_finite false mx ex
    /\ (ex < -23 \/ (ex = -23 /\ Zpos mx <= 8388610)).
Proof.
  intros Hmi Ha Hmia Hmd Hb Hmdb Hms Ht Hstep Hidx.
  unfold f32_mul, SFmul. change (xorb false false) with false.
  set (E := - a + (b - 47 + t)).
  set (M := (mi * ms)%positive).
  assert (HM : Zpos M = Zpos mi * Zpos ms) by (unfold M; lia).
  change (2 ^ 23) with 8388608 in *. change (2 ^ 24) with 16777216 in *.
  change (2 ^ 47) with 140737488355328 in *.
  pose proof (digits2_pos_bounds M) as [Hlo Hhi].
  set (D := Zpos (digits2_pos M)) in *.
  assert (HMlo : 2 ^ 46 <= Zpos M).
  { change (2 ^ 46) with (8388608 * 8388608). rewrite HM. nia. }
  assert (HMhi : Zpos M < 2 ^ 48).
  { change (2 ^ 48) with (16777216 * 16777216). rewrite HM. nia. }
  assert (HD : 47 <= D <= 48).
  { split.
    - assert (46 < D); [|lia]. apply pow2_lt_inv; lia.
    - assert (D - 1 < 48); [|lia]. apply pow2_lt_inv; lia. }
  destruct (binary_round_aux_spec M E loc_Exact)
    as (mx & ex & Hr & Hbx & Hex & Hup & _); fold D; try (unfold E; lia).
  fold D in Hex, Hup.
  change (2 ^ 23) with 8388608 in Hbx. change (2 ^ 24) with 16777216 in Hbx.
  exists mx, ex. split; [exact Hr|].
  (* 2^23 * 2^(D-24) <= M *)
  assert (Hulp : 8388608 * 2 ^ (D - 24) <= Zpos M).
  { replace (D - 1) with (23 + (D - 24)) in Hlo by lia.
    rewrite Z.pow_add_r in Hlo by lia.
    change (2 ^ 23) with 8388608 in Hlo. exact Hlo. }
  assert (H1 : 8388608 * (Zpos mx * 2 ^ (ex - E)) <= 8388609 * Zpos M) by lia.
  (* M * 2^(t+b) <= (2^23+1) * 2^(a+24) *)
  pose proof (pow2_pos a ltac:(lia)) as Hpa.
  pose proof (pow2_pos b ltac:(lia)) as Hpb.
  pose proof (pow2_pos t ltac:(lia)) as Hpt.
  assert (H2 : Zpos M * (2 ^ t * 2 ^ b) <= 8388609 * (2 ^ a * 16777216)).
  { rewrite HM, Hmia.
    assert (H3 : Zpos ms * 2 ^ t * (idx * 2 ^ b)
                 <= Zpos ms * 2 ^ t * (d * 2 ^ b)).
    { apply Z.mul_le_mono_nonneg_l; [lia|].
      apply Z.mul_le_mono_nonneg_r; lia. }
    rewrite <- Hmdb in H3.
    assert (H4 : Zpos ms * 2 ^ t * (idx * 2 ^ b) <= 8388609 * 16777216)
      by lia.
    apply (Z.mul_le_mono_nonneg_r _ _ (2 ^ a)) in H4; [|lia].
    lia. }
  assert (Hsum : ex - E + (t + b) = ex + a + 47) by (unfold E; lia).
  assert (H5 : 8388608 * (Zpos mx * 2 ^ (ex + a + 47))
               <= 8388609 * 8388609 * (2 ^ a * 16777216)).
  { rewrite <- Hsum. rewrite Z.pow_add_r by lia.
    rewrite (Z.pow_add_r 2 t b) by lia.
    apply (Z.mul_le_mono_nonneg_r _ _ (2 ^ t * 2 ^ b)) in H1; [|lia].
    apply (Z.mul_le_mono_nonneg_l _ _ 8388609) in H2; [|lia].
    lia. }
  destruct (Z.lt_trichotomy ex (-23)) as [Hlt|[Heq|Hgt]].
  - left. exact Hlt.
  - right. split; [exact Heq|]. subst ex.
    replace (-23 + a + 47) with (a + 24) in H5 by lia.
    rewrite Z.pow_add_r in H5 by lia.
    change (2 ^ 24) with 16777216 in H5.
    assert (H6 : 8388608 * Zpos mx * (2 ^ a * 16777216)
                 <= 8388609 * 8388609 * (2 ^ a * 16777216)) by lia.
    apply Z.mul_le_mono_pos_r in H6; lia.
  - exfalso.
    assert (H6 : 2 ^ (a + 25) <= 2 ^ (ex + a + 47)).
    { apply Z.pow_le_mono_r; lia. }
    rewrite Z.pow_add_r in H6 by lia.
    change (2 ^ 25) with 33554432 in H6.
    assert (H7 : 8388608 * (8388608 * (2 ^ a * 33554432))
                 <= 8388608 * (Zpos mx * 2 ^ (ex + a + 47))).
    { apply Z.mul_le_mono_nonneg_l; [lia|].
      apply Z.mul_le_mono_nonneg; lia. }
    assert (H8 : 8388608 * (8388608 * (2 ^ a * 33554432))
                 <= 8388609 * 8388609 * (2 ^ a * 16777216)) by lia.
    lia.
Qed.

(** ** The extended range of a fresh identity *)

Lemma normalMin_eq : normalMin = S754_finite true 10995116 (-40).
Proof. reflexivity. Qed.

Lemma normalMax_eq : normalMax = S754_finite false 8388692 (-23).
Proof. reflexivity. Qed.

(** Every row of a fresh standard-domain identity is inside the normal
    range. *)
Lemma ideal_value_standard_in_range (n idx : Z) :
  2 <= n <= 1048576 -> 0 <= idx < n ->
  f32_lt (ideal_value LUT_STANDARD n idx) normalMin = false
  /\ f32_gt (ideal_value LUT_STANDARD n idx) normalMax = false.
Proof.
  intros Hn Hidx. unfold ideal_value.
  change (IsInputHalfDomain LUT_STANDARD) with false. cbv iota.
  destruct (float_minus_one_spec n) as (md & b & Hsub & Hb & Hmd & Hmdb).
  { change (2 ^ 20) with 1048576. lia. }
  rewrite Hsub.
  destruct (one_over_spec md b Hmd) as (ms & t & Hdiv & Hms & Ht & Hstep);
    [lia|].
  rewrite Hdiv.
  rewrite normalMin_eq, normalMax_eq.
  destruct (Z.eq_dec idx 0) as [->|Hpos].
  - split; reflexivity.
  - destruct (float_of_ulong_spec idx) as (mi & a & Hf & Ha & Hmi & Hmia).
    { change (2 ^ 24) with 16777216. lia. }
    rewrite Hf.
    destruct (scaled_index_bound mi ms md a b t idx (n - 1))
      as (mx & ex & Hmul & Hbound); try assumption; try lia.
    rewrite Hmul. split; [reflexivity|].
    unfold f32_gt, SFltb, SFcompare.
    destruct Hbound as [Hlt|[-> Hle]].
    + destruct (Z.compare_spec (-23) ex); try lia; reflexivity.
    + rewrite Z.compare_refl.
      change (Pos.compare_cont Eq 8388692 mx) with (Pos.compare 8388692 mx).
      destruct (Pos.compare_spec 8388692 mx); try lia; reflexivity.
Qed.

(** [hasExtendedRange]: false when every stored value is a NaN or inside the
    normal range, true as soon as one value that is not a NaN is above it. *)
Lemma hasExtendedRange_values_false (values : Values) :
  (forall i x, values !! i = Some x ->
     IsNan x = true
     \/ (f32_lt x normalMin = false /\ f32_gt x normalMax = false)) ->
  hasExtendedRange_values values = false.
Proof.
  induction values as [|val rest IH]; intros H; [reflexivity|].
  cbn [hasExtendedRange_values].
  assert (Hrest : hasExtendedRange_values rest = false).
  { apply IH. intros i x Hi. apply (H (S i)). exact Hi. }
  destruct (H 0%nat val eq_refl) as [Hnan|[Hlo Hhi]].
  - rewrite Hnan. exact Hrest.
  - rewrite Hlo, Hhi. destruct (IsNan val); exact Hrest.
Qed.

Lemma hasExtendedRange_values_above (values : Values) (i : nat) (x : float) :
  values !! i = Some x -> IsNan x = false -> f32_gt x normalMax = true ->
  hasExtendedRange_values values = true.
Proof.
  revert i. induction values as [|val rest IH]; intros i Hi Hnan Hgt;
    [discriminate|].
  cbn [hasExtendedRange_values].
  destruct i as [|i].
  - injection Hi as ->. rewrite Hnan, Hgt.
    destruct (f32_lt x normalMin); reflexivity.
  - rewrite (IH i Hi Hnan Hgt).
    destruct (IsNan val), (f32_lt val normalMin), (f32_gt val normalMax);
      reflexivity.
Qed.

(** The stored value at a position of a fresh array is the ideal value of
    its row. *)
Lemma fresh_array_lookup (halfFlags : HalfFlags) (length : Z) (a : Array)
    (i : nat) (x : float) :
  Lut3by1DArray_new halfFlags length = OK a ->
  m_data a !! i = Some x ->
  0 <= Z.of_nat i / 3 < length
  /\ x = ideal_value halfFlags length (Z.of_nat i / 3).
Proof.
  intros Hnew Hi.
  destruct (Lut3by1DArray_new_identity _ _ _ Hnew)
    as (Hrange & _ & _ & Hsize & Hsample).
  assert (Hlt : Z.of_nat i < length * 3).
  { rewrite <- Hsize. apply lookup_lt_Some in Hi. lia. }
  pose proof (Z.div_mod (Z.of_nat i) 3 ltac:(lia)) as Hdm.
  pose proof (Z.mod_pos_bound (Z.of_nat i) 3 ltac:(lia)) as Hmod.
  assert (Hrow : 0 <= Z.of_nat i / 3 < length).
  { split; [apply Z.div_pos; lia|]. apply Z.div_lt_upper_bound; lia. }
  split; [exact Hrow|].
  rewrite <- (Hsample (Z.of_nat i / 3) (Z.of_nat i mod 3) Hrow Hmod).
  unfold sample, vget, getMaxColorComponents.
  replace (Z.to_nat (Z.of_nat i / 3 * 3 + Z.of_nat i mod 3)) with i by lia.
  rewrite Hi. reflexivity.
Qed.

(** The fresh standard-domain identity stays inside the normal range. *)
Lemma fresh_standard_in_range (n : Z) :
  2 <= n <= 1048576 ->
  exists L, Lut1DOpData_new LUT_STANDARD n = OK L
            /\ hasExtendedRange L = false.
Proof.
  intros Hn.
  destruct (Lut1DOpData_new_ok LUT_STANDARD n Hn) as (a & Ha & HL).
  eexists. split; [exact HL|].
  unfold hasExtendedRange, getValues, getArray. cbn [m_array].
  apply hasExtendedRange_values_false. intros i x Hi. right.
  destruct (fresh_array_lookup _ _ _ _ _ Ha Hi) as [Hrow ->].
  apply ideal_value_standard_in_range; assumption.
Qed.

(** The fresh half-domain identity holds the half 0x3C01, 1.0009765625, at
    row 15361: it is above the normal range. *)
Lemma fresh_half_extended_range :
  exists H, Lut1DOpData_new LUT_INPUT_HALF_CODE 65536 = OK H
            /\ hasExtendedRange H = true.
Proof.
  destruct (Lut1DOpData_new_ok LUT_INPUT_HALF_CODE 65536 ltac:(lia))
    as (a & Ha & HL).
  eexists. split; [exact HL|].
  unfold hasExtendedRange, getValues, getArray. cbn [m_array].
  destruct (Lut3by1DArray_new_identity _ _ _ Ha)
    as (_ & _ & _ & Hsize & Hsample).
  specialize (Hsample 15361 0 ltac:(lia) ltac:(lia)).
  unfold sample, vget, getMaxColorComponents in Hsample.
  destruct (m_data a !! Z.to_nat (15361 * 3 + 0)) as [x|] eqn:Hx.
  - change (default f32_0 (Some x)) with x in Hsample. subst x.
    apply (hasExtendedRange_values_above _ _ _ Hx); reflexivity.
  - apply lookup_ge_None in Hx. lia.
Qed.

(** C2 (as amended). A freshly constructed standard-domain identity of any
    valid length [n] has no extended range: [hasExtendedRange] is false. The
    half-domain identity of 65536 rows holds every half, so
    [hasExtendedRange] is true for it. *)
Theorem C2_fresh_identity_extended_range (n : Z) :
  2 <= n <= 1048576 ->
  (exists L, Lut1DOpData_new LUT_STANDARD n = OK L
             /\ hasExtendedRange L = false)
  /\ (exists H, Lut1DOpData_new LUT_INPUT_HALF_CODE 65536 = OK H
                /\ hasExtendedRange H = true).
Proof.
  intros Hn. split.
  - apply fresh_standard_in_range. exact Hn.
  - exact fresh_half_extended_range.
Qed.

(** ** Direction, equality and the half flags *)

Lemma f32_eq_sym (a b : float) : f32_eq a b = f32_eq b a.
Proof. float_order. Qed.

Lemma f32_eq_refl (a : float) : f32_eq a a = negb (IsNan a).
Proof. float_order. Qed.

Lemma Values_eq_sym (v : list float) :
  forall w, Values_eq v w = Values_eq w v.
Proof.
  induction v as [|x v IH]; intros [|y w]; simpl; try reflexivity.
  rewrite IH, f32_eq_sym. reflexivity.
Qed.

Lemma Values_eq_refl (v : list float) :
  Values_eq v v = true <-> Forall (fun x => IsNan x = false) v.
Proof.
  induction v as [|x v IH]; simpl.
  - split; [constructor|reflexivity].
  - rewrite f32_eq_refl, andb_true_iff, negb_true_iff, IH.
    split.
    + intros [Hx Hv]. constructor; assumption.
    + intros H. inversion H; subst. split; assumption.
Qed.

Lemma haveEqualBasics_sym (A B : Lut1DOpData) :
  haveEqualBasics A B = haveEqualBasics B A.
Proof.
  unfold haveEqualBasics, Array_eq.
  rewrite (Z.eqb_sym (m_halfFlags A)), (Z.eqb_sym (m_length (m_array A))),
    (Z.eqb_sym (m_numColorComponents (m_array A))), Values_eq_sym.
  destruct (decide (m_hueAdjust A = m_hueAdjust B)) as [H|H];
    destruct (decide (m_hueAdjust B = m_hueAdjust A)) as [H'|H'];
    try reflexivity; congruence.
Qed.

Lemma haveEqualBasics_refl (L : Lut1DOpData) :
  haveEqualBasics L L = true
  <-> Forall (fun x => IsNan x = false) (m_data (m_array L)).
Proof.
  unfold haveEqualBasics, Array_eq. rewrite !Z.eqb_refl.
  destruct (decide (m_hueAdjust L = m_hueAdjust L)) as [_|H];
    [|contradiction].
  simpl. apply Values_eq_refl.
Qed.

(** X4. [inverse] swaps the direction and nothing else, so it is its own
    inverse: [inverse (inverse L)] is [L]. The cache identifier of the LUT
    is carried over as it is. *)
Theorem inverse_involutive (L : Lut1DOpData) :
  inverse (inverse L) = L
  /\ m_direction (inverse L) <> m_direction L
  /\ m_array (inverse L) = m_array L
  /\ m_halfFlags (inverse L) = m_halfFlags L
  /\ m_hueAdjust (inverse L) = m_hueAdjust L
  /\ m_interpolation (inverse L) = m_interpolation L
  /\ m_cacheID (inverse L) = m_cacheID L.
Proof.
  destruct L as [md interp a hf hue dir q props depth id].
  unfold inverse, clone, setDirection. simpl.
  destruct dir; repeat split; discriminate.
Qed.

(** X5. [isInverse] is symmetric, holds only of two LUTs of opposite
    directions, and excludes both [mayCompose] and [operator==]. *)
Theorem isInverse_symmetric_exclusive (A B : Lut1DOpData) :
  isInverse A B = isInverse B A
  /\ (isInverse A B = true ->
      m_direction A <> m_direction B
      /\ haveEqualBasics A B = true
      /\ mayCompose A B = false
      /\ equals A B = false).
Proof.
  split.
  - unfold isInverse. rewrite (haveEqualBasics_sym A B).
    destruct (m_direction A), (m_direction B); reflexivity.
  - unfold isInverse, mayCompose, equals, getDirection.
    destruct (m_direction A), (m_direction B); intros H;
      try discriminate H.
    + split; [discriminate|]. split; [exact H|]. split; reflexivity.
    + split; [discriminate|]. split; [exact H|]. split; reflexivity.
Qed.

(** X6. A LUT that stores no NaN and its [inverse()] are recognised as an
    inverse pair by [isInverse], in either order. *)
Theorem isInverse_of_inverse (L : Lut1DOpData) :
  Forall (fun x => IsNan x = false) (m_data (m_array L)) ->
  isInverse L (inverse L) = true /\ isInverse (inverse L) L = true.
Proof.
  intros Hnan. apply haveEqualBasics_refl in Hnan.
  destruct L as [md interp a hf hue dir q props depth id].
  unfold isInverse, inverse, clone, setDirection, haveEqualBasics in *.
  simpl in *. destruct dir; split; exact Hnan.
Qed.

(** X7. [operator==] is symmetric; it holds of a LUT that stores no NaN and
    itself, and of its clone and itself; and it does not look at the
    inversion quality or at the stored interpolation. *)
Theorem equals_symmetric_reflexive (A B : Lut1DOpData) :
  equals A B = equals B A
  /\ (Forall (fun x => IsNan x = false) (m_data (m_array A)) ->
      equals A A = true /\ equals (clone A) A = true)
  /\ (forall style algo,
        equals (setInversionQuality (setInterpolation A algo) style) B
        = equals A B).
Proof.
  split; [|split].
  - unfold equals, OpData_equals, getConcreteInterpolation.
    rewrite (haveEqualBasics_sym A B).
    destruct (m_direction A), (m_direction B); reflexivity.
  - intros Hnan. apply haveEqualBasics_refl in Hnan.
    unfold clone, equals, OpData_equals, getConcreteInterpolation.
    destruct (decide (m_direction A <> m_direction A)) as [H|_];
      [contradiction H; reflexivity|].
    destruct (decide (INTERP_LINEAR <> INTERP_LINEAR)) as [H|_];
      [contradiction H; reflexivity|].
    split; exact Hnan.
  - intros style algo. destruct A; reflexivity.
Qed.

(** *** The half flags *)

Lemma IsInputHalfDomain_bit (halfFlags : HalfFlags) :
  IsInputHalfDomain halfFlags = Z.testbit halfFlags 0.
Proof.
  unfold IsInputHalfDomain, LUT_INPUT_HALF_CODE.
  change 1 with (Z.ones 1) at 1. rewrite Z.land_ones by lia.
  change (2 ^ 1) with 2. symmetry. apply Z.bit0_eqb.
Qed.

Lemma testbit_1 (n : Z) : 0 <= n -> Z.testbit 1 n = (n =? 0).
Proof.
  intros Hn. change 1 with (2 ^ 0). rewrite Z.pow2_bits_eqb by lia.
  apply Z.eqb_sym.
Qed.

Lemma testbit_2 (n : Z) : 0 <= n -> Z.testbit 2 n = (n =? 1).
Proof.
  intros Hn. change 2 with (2 ^ 1). rewrite Z.pow2_bits_eqb by lia.
  apply Z.eqb_sym.
Qed.

Ltac flag_bits :=
  repeat first [ rewrite Z.lor_spec | rewrite Z.land_spec
               | rewrite Z.lnot_spec by lia | rewrite testbit_1 by lia
               | rewrite testbit_2 by lia ].

(** X8. The two setters of the half flags each drive one bit.
    [setInputHalfDomain b] makes [isInputHalfDomain] answer [b] and keeps
    the output bit; [setOutputRawHalfs b] sets the output bit to [b] and
    keeps [isInputHalfDomain]; the two setters commute. *)
Theorem half_flag_setters (L : Lut1DOpData) (b b' : bool) :
  isInputHalfDomain (setInputHalfDomain L b) = b
  /\ Z.testbit (m_halfFlags (setInputHalfDomain L b)) 1
     = Z.testbit (m_halfFlags L) 1
  /\ Z.testbit (m_halfFlags (setOutputRawHalfs L b)) 1 = b
  /\ isInputHalfDomain (setOutputRawHalfs L b) = isInputHalfDomain L
  /\ setInputHalfDomain (setOutputRawHalfs L b') b
     = setOutputRawHalfs (setInputHalfDomain L b) b'.
Proof.
  destruct L as [md interp a hf hue dir q props depth id].
  unfold isInputHalfDomain, setInputHalfDomain, setOutputRawHalfs,
    setHalfFlags, LUT_INPUT_HALF_CODE, LUT_OUTPUT_HALF_CODE.
  cbn [m_halfFlags m_metadata m_interpolation m_array m_hueAdjust
       m_direction m_invQuality m_componentProperties m_fileOutBitDepth
       m_cacheID].
  rewrite !IsInputHalfDomain_bit.
  split; [|split; [|split; [|split]]].
  - destruct b; flag_bits; simpl.
    + apply orb_true_r.
    + apply andb_false_r.
  - destruct b; flag_bits; simpl.
    + apply orb_false_r.
    + apply andb_true_r.
  - destruct b; flag_bits; simpl.
    + apply orb_true_r.
    + apply andb_false_r.
  - destruct b; flag_bits; simpl.
    + apply orb_false_r.
    + apply andb_true_r.
  - f_equal. apply Z.bits_inj'. intros n Hn.
    destruct b, b'; flag_bits;
      destruct (Z.eqb_spec n 0), (Z.eqb_spec n 1), (Z.testbit hf n);
      try reflexivity; lia.
Qed.

(** ** The extended range and the lookup domains *)

Lemma hasExtendedRange_values_iff (values : list float) :
  hasExtendedRange_values values = true
  <-> exists x, x ∈ values
                /\ IsNan x = false
                /\ (f32_lt x normalMin = true \/ f32_gt x normalMax = true).
Proof.
  induction values as [|val rest IH]; cbn [hasExtendedRange_values].
  - split; [discriminate|]. intros (x & Hx & _). inversion Hx.
  - destruct (IsNan val) eqn:Hnan.
    + rewrite IH. split.
      * intros (x & Hx & H). exists x. split; [right; exact Hx|exact H].
      * intros (x & Hx & Hn & H). apply elem_of_cons in Hx as [->|Hx].
        -- rewrite Hnan in Hn. discriminate Hn.
        -- exists x. split; [exact Hx|]. split; assumption.
    + destruct (f32_lt val normalMin) eqn:Hlo.
      * split; [|reflexivity]. intros _. exists val.
        split; [left|]. split; [exact Hnan|]. left. exact Hlo.
      * destruct (f32_gt val normalMax) eqn:Hhi.
        -- split; [|reflexivity]. intros _. exists val.
           split; [left|]. split; [exact Hnan|]. right. exact Hhi.
        -- rewrite IH. split.
           ++ intros (x & Hx & H). exists x.
              split; [right; exact Hx|exact H].
           ++ intros (x & Hx & Hn & H).
              apply elem_of_cons in Hx as [->|Hx].
              ** rewrite Hlo, Hhi in H. destruct H; discriminate.
              ** exists x. split; [exact Hx|]. split; assumption.
Qed.

(** X1. [hasExtendedRange] answers true exactly when some stored value that
    is not a NaN is below [0.0f - 1e-5f] or above [1.0f + 1e-5f]; the NaNs
    are skipped, so a LUT of NaNs only has no extended range. *)
Theorem hasExtendedRange_iff (L : Lut1DOpData) :
  hasExtendedRange L = true
  <-> exists x, x ∈ m_data (m_array L)
                /\ IsNan x = false
                /\ (f32_lt x normalMin = true \/ f32_gt x normalMax = true).
Proof. apply hasExtendedRange_values_iff. Qed.

(** The depths that have an ideal size. *)
Lemma GetLutIdealSize_cases (depth : BitDepth) :
  let domainType :=
    if IsFloatBitDepth depth then LUT_INPUT_HALF_CODE else LUT_STANDARD in
  (depth = BIT_DEPTH_UNKNOWN \/ depth = BIT_DEPTH_UINT32) /\
    throws (GetLutIdealSize depth domainType)
  \/ (depth <> BIT_DEPTH_UNKNOWN /\ depth <> BIT_DEPTH_UINT32) /\
     GetLutIdealSize depth domainType
     = OK (if IsFloatBitDepth depth then 65536
           else GetBitDepthMaxValue depth + 1)
     /\ 256 <= (if IsFloatBitDepth depth then 65536
                else GetBitDepthMaxValue depth + 1) <= 65536.
Proof.
  destruct depth; cbn;
    first [ left; split; [auto|eexists; reflexivity]
          | right; split; [split; discriminate|];
            split; [reflexivity|lia] ].
Qed.

Lemma MakeLookupDomain_unfold (depth : BitDepth) :
  MakeLookupDomain depth
  = do idealSize <-
      GetLutIdealSize depth
        (if IsFloatBitDepth depth then LUT_INPUT_HALF_CODE
         else LUT_STANDARD);
    Lut1DOpData_new
      (if IsFloatBitDepth depth then LUT_INPUT_HALF_CODE else LUT_STANDARD)
      idealSize.
Proof. reflexivity. Qed.

(** The lookup domain of a depth that has an ideal size. *)
Lemma MakeLookupDomain_ok (depth : BitDepth) :
  depth <> BIT_DEPTH_UNKNOWN -> depth <> BIT_DEPTH_UINT32 ->
  exists L,
    MakeLookupDomain depth = OK L
    /\ m_direction L = TRANSFORM_DIR_FORWARD
    /\ m_metadata L = emptyMetadata
    /\ isInputHalfDomain L = IsFloatBitDepth depth
    /\ m_length (m_array L)
       = (if IsFloatBitDepth depth then 65536
          else GetBitDepthMaxValue depth + 1)
    /\ Z.of_nat (List.length (m_data (m_array L)))
       = m_length (m_array L) * 3
    /\ forall idx c, 0 <= idx < m_length (m_array L) -> 0 <= c < 3 ->
         sample (m_array L) idx c
         = ideal_value (m_halfFlags L) (m_length (m_array L)) idx.
Proof.
  intros H1 H2. rewrite MakeLookupDomain_unfold.
  destruct (GetLutIdealSize_cases depth) as [[[H|H] _]|(_ & Hsize & Hrange)];
    [contradiction|contradiction|].
  cbv zeta in Hsize. rewrite Hsize. unfold bind.
  set (n := if IsFloatBitDepth depth then 65536
            else GetBitDepthMaxValue depth + 1) in *.
  set (hf := if IsFloatBitDepth depth then LUT_INPUT_HALF_CODE
             else LUT_STANDARD).
  destruct (Lut1DOpData_new_ok hf n ltac:(lia)) as (a & Ha & HL).
  destruct (Lut3by1DArray_new_identity _ _ _ Ha)
    as (_ & Hl & _ & Hlen & Hsample).
  eexists. split; [exact HL|].
  unfold isInputHalfDomain. cbn [m_direction m_halfFlags m_array m_metadata].
  split; [reflexivity|]. split; [reflexivity|]. split.
  { unfold hf. destruct (IsFloatBitDepth depth); reflexivity. }
  split; [exact Hl|]. rewrite Hl. split; [exact Hlen|exact Hsample].
Qed.

(** X2. [MakeLookupDomain] fails for the depths UNKNOWN and UINT32 and for
    no other. For every other depth it returns a FORWARD identity LUT: of
    [max_value + 1] rows on a standard domain for an integer depth, of 65536
    rows on a half domain for the depths F16 and F32. *)
Theorem MakeLookupDomain_result (depth : BitDepth) :
  (throws (MakeLookupDomain depth)
   <-> depth = BIT_DEPTH_UNKNOWN \/ depth = BIT_DEPTH_UINT32)
  /\ (depth <> BIT_DEPTH_UNKNOWN -> depth <> BIT_DEPTH_UINT32 ->
      exists L,
        MakeLookupDomain depth = OK L
        /\ m_direction L = TRANSFORM_DIR_FORWARD
        /\ isInputHalfDomain L = IsFloatBitDepth depth
        /\ m_length (m_array L)
           = (if IsFloatBitDepth depth then 65536
              else GetBitDepthMaxValue depth + 1)
        /\ forall idx c, 0 <= idx < m_length (m_array L) -> 0 <= c < 3 ->
             sample (m_array L) idx c
             = ideal_value (m_halfFlags L) (m_length (m_array L)) idx).
Proof.
  split; [split|].
  - intros Hthrow.
    destruct (decide (depth = BIT_DEPTH_UNKNOWN)) as [|H1]; [left; assumption|].
    destruct (decide (depth = BIT_DEPTH_UINT32)) as [|H2]; [right; assumption|].
    destruct (MakeLookupDomain_ok depth H1 H2) as (L & HL & _).
    exfalso. exact (throws_not_OK _ _ Hthrow HL).
  - intros H. rewrite MakeLookupDomain_unfold.
    destruct (GetLutIdealSize_cases depth) as [[_ [what Hthrow]]|[[H1 H2] _]].
    + cbv zeta in Hthrow. rewrite Hthrow. exists what. reflexivity.
    + destruct H; contradiction.
  - intros H1 H2.
    destruct (MakeLookupDomain_ok depth H1 H2)
      as (L & HL & Hdir & _ & Hhd & Hlen & _ & Hsample).
    exists L. split; [exact HL|]. split; [exact Hdir|]. split; [exact Hhd|].
    split; [exact Hlen|exact Hsample].
Qed.

(** X3. A lookup domain made for a depth can be looked up at that depth,
    F32 excepted: [mayLookup] holds of the LUT that [MakeLookupDomain]
    returns for every integer depth and for F16; for F32 the half-domain
    LUT that is returned may not be looked up. *)
Theorem MakeLookupDomain_mayLookup (depth : BitDepth) (L : Lut1DOpData) :
  MakeLookupDomain depth = OK L ->
  mayLookup L depth
  = (if decide (depth = BIT_DEPTH_F32) then false else true).
Proof.
  intros HL. rewrite MakeLookupDomain_unfold in HL.
  destruct (GetLutIdealSize_cases depth)
    as [[_ [what Hthrow]]|(_ & Hsize & Hrange)].
  - cbv zeta in Hthrow. rewrite Hthrow in HL. discriminate HL.
  - cbv zeta in Hsize. rewrite Hsize in HL. unfold bind in HL.
    set (n := if IsFloatBitDepth depth then 65536
              else GetBitDepthMaxValue depth + 1) in *.
    set (hf := if IsFloatBitDepth depth then LUT_INPUT_HALF_CODE
               else LUT_STANDARD) in *.
    destruct (Lut1DOpData_new_ok hf n ltac:(lia)) as (a & Ha & HL').
    rewrite HL' in HL. injection HL as <-.
    destruct (Lut3by1DArray_new_identity _ _ _ Ha) as (_ & Hl & _).
    unfold mayLookup, isInputHalfDomain, getLength.
    cbn [m_halfFlags m_array]. rewrite Hl. unfold n, hf.
    destruct depth; cbn; reflexivity.
Qed.

(** ** The effective domain *)

Lemma while_fuel_ext {S : Type} (I : S -> Prop) (cond1 cond2 : S -> bool)
    (body : S -> S) (fuel : nat) :
  (forall s, I s -> cond1 s = cond2 s) ->
  (forall s, I s -> cond1 s = true -> I (body s)) ->
  forall s, I s ->
    while_fuel fuel cond1 body s = while_fuel fuel cond2 body s.
Proof.
  intros Hcond Hbody. induction fuel as [|fuel IH]; intros s Hs; simpl.
  - reflexivity.
  - rewrite <- (Hcond s Hs). destruct (cond1 s) eqn:Hc; [|reflexivity].
    apply IH. apply Hbody; assumption.
Qed.

(** The downward scan stops on the lowest row of the flat spot that ends
    at the row it starts from. *)
Lemma scan_down (p : Z -> bool) (lowest : Z) (fuel : nat) :
  forall e,
    lowest <= e -> (Z.to_nat (e - lowest) <= fuel)%nat ->
    let e' :=
      while_fuel fuel (fun e => (e >? lowest) && p (e - 1))
        (fun e => e - 1) e in
    lowest <= e' <= e
    /\ (forall r, e' <= r < e -> p r = true)
    /\ (lowest < e' -> p (e' - 1) = false).
Proof.
  induction fuel as [|fuel IH]; intros e He Hfuel; simpl.
  - split; [lia|]. split; [intros r Hr; lia|]. intros H; lia.
  - destruct (Z.gtb_spec e lowest) as [Hgt|Hle]; simpl.
    + destruct (p (e - 1)) eqn:Hp.
      * destruct (IH (e - 1) ltac:(lia) ltac:(lia)) as (H1 & H2 & H3).
        split; [lia|]. split; [|exact H3].
        intros r Hr. destruct (Z.eq_dec r (e - 1)) as [->|Hne];
          [exact Hp|apply H2; lia].
      * split; [lia|]. split; [intros r Hr; lia|]. intros _. exact Hp.
    + split; [lia|]. split; [intros r Hr; lia|]. intros H; lia.
Qed.

(** The upward scan stops on the highest row of the flat spot that begins
    at the row it starts from. *)
Lemma scan_up (p : Z -> bool) (highest : Z) (fuel : nat) :
  forall s,
    s <= highest -> (Z.to_nat (highest - s) <= fuel)%nat ->
    let s' :=
      while_fuel fuel (fun s => (s <? highest) && p (s + 1))
        (fun s => s + 1) s in
    s <= s' <= highest
    /\ (forall r, s < r <= s' -> p r = true)
    /\ (s' < highest -> p (s' + 1) = false).
Proof.
  induction fuel as [|fuel IH]; intros s Hs Hfuel; simpl.
  - split; [lia|]. split; [intros r Hr; lia|]. intros H; lia.
  - destruct (Z.ltb_spec s highest) as [Hlt|Hge]; simpl.
    + destruct (p (s + 1)) eqn:Hp.
      * destruct (IH (s + 1) ltac:(lia) ltac:(lia)) as (H1 & H2 & H3).
        split; [lia|]. split; [|exact H3].
        intros r Hr. destruct (Z.eq_dec r (s + 1)) as [->|Hne];
          [exact Hp|apply H2; lia].
      * split; [lia|]. split; [intros r Hr; lia|]. intros _. exact Hp.
    + split; [lia|]. split; [intros r Hr; lia|]. intros H; lia.
Qed.

Lemma scanEnd_spec (values : list float) (c lowest endDomain : Z) :
  lowest <= endDomain ->
  let e := scanEnd values 3 c lowest endDomain in
  lowest <= e <= endDomain
  /\ (forall r, e <= r < endDomain ->
        f32_eq (vget values (r * 3 + c)) (vget values (endDomain * 3 + c))
        = true)
  /\ (lowest < e ->
      f32_eq (vget values ((e - 1) * 3 + c))
        (vget values (endDomain * 3 + c)) = false).
Proof.
  intros H. unfold scanEnd.
  apply (scan_down
           (fun r => f32_eq (vget values (r * 3 + c))
                       (vget values (endDomain * 3 + c)))); lia.
Qed.

Lemma scanStart_spec (values : list float) (c startDomain endDomain : Z) :
  startDomain <= endDomain ->
  let s := scanStart values 3 c startDomain endDomain in
  startDomain <= s <= endDomain
  /\ (forall r, startDomain < r <= s ->
        f32_eq (vget values (r * 3 + c)) (vget values (startDomain * 3 + c))
        = true)
  /\ (s < endDomain ->
      f32_eq (vget values ((s + 1) * 3 + c))
        (vget values (startDomain * 3 + c)) = false).
Proof.
  intros H. unfold scanStart.
  apply (scan_up
           (fun r => f32_eq (vget values (r * 3 + c))
                       (vget values (startDomain * 3 + c)))); lia.
Qed.

(** The scans read the samples of their channel only. *)
Lemma scanEnd_ext (v w : list float) (c lowest endDomain : Z) :
  0 <= lowest -> 0 <= endDomain ->
  (forall row, 0 <= row -> vget v (3 * row + c) = vget w (3 * row + c)) ->
  scanEnd v 3 c lowest endDomain = scanEnd w 3 c lowest endDomain.
Proof.
  intros Hlow Hend Hext. unfold scanEnd.
  replace (endDomain * 3 + c) with (3 * endDomain + c) by lia.
  rewrite (Hext endDomain Hend).
  apply (while_fuel_ext (fun _ => True)); [|auto|exact I].
  intros e _. destruct (Z.gtb_spec e lowest) as [Hgt|Hle]; simpl;
    [|reflexivity].
  replace ((e - 1) * 3 + c) with (3 * (e - 1) + c) by lia.
  rewrite (Hext (e - 1)) by lia. reflexivity.
Qed.

Lemma scanStart_ext (v w : list float) (c startDomain endDomain : Z) :
  0 <= startDomain ->
  (forall row, 0 <= row -> vget v (3 * row + c) = vget w (3 * row + c)) ->
  scanStart v 3 c startDomain endDomain
  = scanStart w 3 c startDomain endDomain.
Proof.
  intros Hstart Hext. unfold scanStart.
  replace (startDomain * 3 + c) with (3 * startDomain + c) by lia.
  rewrite (Hext startDomain Hstart).
  apply (while_fuel_ext (fun s => 0 <= s)); [| |assumption].
  - intros s Hs.
    replace ((s + 1) * 3 + c) with (3 * (s + 1) + c) by lia.
    rewrite (Hext (s + 1)) by lia. reflexivity.
  - intros s Hs _. lia.
Qed.

Lemma channelProperties_ext (halfDomain : bool) (length c : Z)
    (old : ComponentProperties) (increasing : bool) (v w : list float) :
  1 <= length ->
  (forall row, 0 <= row -> vget v (3 * row + c) = vget w (3 * row + c)) ->
  channelProperties halfDomain length c old increasing v
  = channelProperties halfDomain length c old increasing w.
Proof.
  intros Hlen Hext. unfold channelProperties.
  destruct halfDomain; cbv zeta; cbn [negb].
  - rewrite (scanEnd_ext v w c 0 31743), (scanEnd_ext v w c 32768 64511),
      !(scanStart_ext v w) by (lia || assumption).
    reflexivity.
  - rewrite (scanEnd_ext v w c 0 (length - 1)), !(scanStart_ext v w)
      by (lia || assumption).
    reflexivity.
Qed.

Lemma prepareChannel_record (halfDomain : bool) (length c : Z)
    (props : ComponentArray) (values : list float) :
  prepareChannel halfDomain length 3 c (props, values)
  = (setProps props c
       (channelProperties halfDomain length c (getProps props c)
          (detectIncreasing halfDomain length c values)
          (flattenChannel halfDomain length c values)),
     flattenChannel halfDomain length c values).
Proof.
  unfold prepareChannel, channelProperties, flattenChannel, detectIncreasing.
  destruct halfDomain; reflexivity.
Qed.

(** The loop of [prepareArray]: the properties of every active channel are
    those of the final values; the other channels keep theirs. *)
Lemma prepare_loop_records (halfDomain : bool) (length activeChannels : Z)
    (props : ComponentArray) (values : list float) :
  0 <= activeChannels <= 3 ->
  valid_sizes halfDomain length values ->
  let st :=
    for_lt 0 activeChannels 1 (prepareChannel halfDomain length 3)
      (props, values) in
  (forall c, 0 <= c < activeChannels ->
     getProps (fst st) c
     = channelProperties halfDomain length c (getProps props c)
         (detectIncreasing halfDomain length c (snd st)) (snd st))
  /\ (forall c, activeChannels <= c < 3 ->
        getProps (fst st) c = getProps props c).
Proof.
  intros Hnc Hvalid. cbv zeta.
  apply (for_lt_invariant
           (fun i st =>
              List.length (snd st) = List.length values
              /\ (forall c, 0 <= c < i ->
                    getProps (fst st) c
                    = channelProperties halfDomain length c (getProps props c)
                        (detectIncreasing halfDomain length c (snd st))
                        (snd st))
              /\ (forall c, i <= c < 3 ->
                    getProps (fst st) c = getProps props c))).
  - lia.
  - simpl. split; [reflexivity|]. split; [intros c Hc; lia|reflexivity].
  - intros i [p v] Hi0 Hi1 (Hlen & Hdone & Hrest).
    simpl in Hlen, Hdone, Hrest.
    assert (Hv : valid_sizes halfDomain length v).
    { destruct Hvalid as (H1 & H2 & H3). repeat split; try assumption.
      rewrite Hlen. assumption. }
    assert (Hother : forall c row, 0 <= c < 3 -> c <> i -> 0 <= row ->
              vget v (3 * row + c)
              = vget (flattenChannel halfDomain length i v) (3 * row + c)).
    { intros c row Hc Hne Hrow. symmetry.
      apply vget_flattenChannel_other; [lia|lia|].
      right. rewrite Z.add_comm, Z.mul_comm, Z.mod_add by lia.
      rewrite Z.mod_small by lia. assumption. }
    destruct (flattened halfDomain length i v ltac:(lia) Hv) as [Hdir _].
    rewrite prepareChannel_record. cbn [fst snd].
    split; [rewrite flattenChannel_length by lia; assumption|].
    split.
    + intros c Hc. destruct (Z.eq_dec c i) as [->|Hne].
      * rewrite getProps_setProps_eq by lia.
        rewrite (Hrest i) by lia. rewrite Hdir. reflexivity.
      * rewrite getProps_setProps_ne by lia.
        rewrite (Hdone c) by lia.
        rewrite (detectIncreasing_ext halfDomain length c v
                   (flattenChannel halfDomain length i v));
          [|lia|apply Hvalid|intros row Hrow; apply Hother; lia].
        apply channelProperties_ext; [apply Hvalid|].
        intros row Hrow. apply Hother; lia.
    + intros c Hc. rewrite getProps_setProps_ne by lia. apply Hrest. lia.
Qed.

(** [prepareArray]: the properties stored for an active channel. *)
Lemma prepareArray_props (L : Lut1DOpData) (c : Z) :
  valid_sizes (isInputHalfDomain L) (m_length (m_array L))
    (m_data (m_array L)) ->
  0 <= c < m_numColorComponents (m_array L) ->
  m_numColorComponents (m_array L) <= 3 ->
  getProps (m_componentProperties (prepareArray L)) c
  = channelProperties (isInputHalfDomain L) (m_length (m_array L)) c
      (getProps (m_componentProperties L) c)
      (detectIncreasing (isInputHalfDomain L) (m_length (m_array L)) c
         (m_data (m_array (prepareArray L))))
      (m_data (m_array (prepareArray L))).
Proof.
  intros Hvalid Hc Hnc.
  pose proof (prepare_loop_records (isInputHalfDomain L)
                (m_length (m_array L)) (m_numColorComponents (m_array L))
                (m_componentProperties L) (m_data (m_array L))
                ltac:(lia) Hvalid) as Hspec.
  cbv zeta in Hspec. destruct Hspec as [Hspec _].
  specialize (Hspec c Hc).
  unfold prepareArray, prepareArray_core, getArray, getLength,
    getNumColorComponents, getValues, getMaxColorComponents.
  unfold isInputHalfDomain in *.
  destruct (for_lt 0 (m_numColorComponents (m_array L)) 1
              (prepareChannel (IsInputHalfDomain (m_halfFlags L))
                 (m_length (m_array L)) 3)
              (m_componentProperties L, m_data (m_array L)))
    as [props' values'].
  simpl fst in Hspec. simpl snd in Hspec.
  unfold setComponentProperties, setArray, setValues.
  cbn [m_componentProperties m_array m_data].
  rewrite <- Hspec.
  destruct (Z.eqb_spec (m_numColorComponents (m_array L)) 1) as [H1|H1];
    [|reflexivity].
  replace c with 0 by lia. reflexivity.
Qed.

(** X9. The effective domain of a standard-domain LUT after [prepareArray],
    for every active channel: [0 <= startDomain <= endDomain <= length - 1];
    the rows from [endDomain] on compare equal to the last row and the row
    before [endDomain], if any, does not; the rows up to [startDomain]
    compare equal to row 0 and the row after [startDomain], if below
    [endDomain], does not. The negative domain is left as it was. *)
Theorem effective_domain_standard (L : Lut1DOpData) (c : Z) :
  valid_sizes (isInputHalfDomain L) (m_length (m_array L))
    (m_data (m_array L)) ->
  isInputHalfDomain L = false ->
  0 <= c < m_numColorComponents (m_array L) ->
  m_numColorComponents (m_array L) <= 3 ->
  let p := getProps (m_componentProperties (prepareArray L)) c in
  let a' := m_array (prepareArray L) in
  let last := m_length (m_array L) - 1 in
  0 <= startDomain p <= endDomain p /\ endDomain p <= last
  /\ flat_rows a' c (endDomain p) (last - 1) (sample a' last c)
  /\ (0 < endDomain p ->
      f32_eq (sample a' (endDomain p - 1) c) (sample a' last c) = false)
  /\ flat_rows a' c 1 (startDomain p) (sample a' 0 c)
  /\ (startDomain p < endDomain p ->
      f32_eq (sample a' (startDomain p + 1) c) (sample a' 0 c) = false)
  /\ negStartDomain p = negStartDomain (getProps (m_componentProperties L) c)
  /\ negEndDomain p = negEndDomain (getProps (m_componentProperties L) c).
Proof.
  intros Hvalid Hstd Hc Hnc. cbv zeta.
  rewrite (prepareArray_props L c Hvalid Hc Hnc). rewrite Hstd.
  set (v := m_data (m_array (prepareArray L))).
  unfold channelProperties, flat_rows, sample, getMaxColorComponents.
  cbn [negb startDomain endDomain negStartDomain negEndDomain]. fold v.
  destruct Hvalid as (_ & Hlen & _).
  destruct (scanEnd_spec v c 0 (m_length (m_array L) - 1) ltac:(lia))
    as (He & Hflat & Hmax).
  set (e := scanEnd v 3 c 0 (m_length (m_array L) - 1)) in *.
  destruct (scanStart_spec v c 0 e ltac:(lia)) as (Hs & Hflat' & Hmax').
  set (s := scanStart v 3 c 0 e) in *.
  split; [lia|]. split; [lia|].
  split; [intros row H1 H2; apply Hflat; lia|].
  split; [exact Hmax|].
  split; [intros row H1 H2; apply Hflat'; lia|].
  split; [exact Hmax'|]. split; reflexivity.
Qed.

(** X10. The effective domains of a half-domain LUT after [prepareArray],
    for every active channel: the positive one lies in the finite rows
    [0..31743], the negative one in the finite rows [32768..64511], and
    each is bounded by the flat spots at the two ends of its half. *)
Theorem effective_domain_half (L : Lut1DOpData) (c : Z) :
  valid_sizes (isInputHalfDomain L) (m_length (m_array L))
    (m_data (m_array L)) ->
  isInputHalfDomain L = true ->
  0 <= c < m_numColorComponents (m_array L) ->
  m_numColorComponents (m_array L) <= 3 ->
  let p := getProps (m_componentProperties (prepareArray L)) c in
  let a' := m_array (prepareArray L) in
  (0 <= startDomain p <= endDomain p /\ endDomain p <= 31743)
  /\ (32768 <= negStartDomain p <= negEndDomain p /\ negEndDomain p <= 64511)
  /\ flat_rows a' c (endDomain p) 31742 (sample a' 31743 c)
  /\ flat_rows a' c 1 (startDomain p) (sample a' 0 c)
  /\ flat_rows a' c (negEndDomain p) 64510 (sample a' 64511 c)
  /\ flat_rows a' c 32769 (negStartDomain p) (sample a' 32768 c)
  /\ (0 < endDomain p ->
      f32_eq (sample a' (endDomain p - 1) c) (sample a' 31743 c) = false)
  /\ (32768 < negEndDomain p ->
      f32_eq (sample a' (negEndDomain p - 1) c) (sample a' 64511 c) = false).
Proof.
  intros Hvalid Hhalf Hc Hnc. cbv zeta.
  rewrite (prepareArray_props L c Hvalid Hc Hnc). rewrite Hhalf.
  set (v := m_data (m_array (prepareArray L))).
  unfold channelProperties, flat_rows, sample, getMaxColorComponents.
  cbn [negb startDomain endDomain negStartDomain negEndDomain]. fold v.
  destruct (scanEnd_spec v c 0 31743 ltac:(lia)) as (He & Hflat & Hmax).
  set (e := scanEnd v 3 c 0 31743) in *.
  destruct (scanStart_spec v c 0 e ltac:(lia)) as (Hs & Hflat' & _).
  set (s := scanStart v 3 c 0 e) in *.
  destruct (scanEnd_spec v c 32768 64511 ltac:(lia)) as (Hne & Hnflat & Hnmax).
  set (ne := scanEnd v 3 c 32768 64511) in *.
  destruct (scanStart_spec v c 32768 ne ltac:(lia)) as (Hns & Hnflat' & _).
  set (ns := scanStart v 3 c 32768 ne) in *.
  split; [lia|]. split; [lia|].
  split; [intros row H1 H2; apply Hflat; lia|].
  split; [intros row H1 H2; apply Hflat'; lia|].
  split; [intros row H1 H2; apply Hnflat; lia|].
  split; [intros row H1 H2; apply Hnflat'; lia|].
  split; [exact Hmax|exact Hnmax].
Qed.

(** A constant channel is settled, and the preparation leaves it as it
    is. *)
Lemma constant_settled (halfDomain : bool) (length c : Z) (x : float)
    (values : list float) :
  0 <= c < 3 ->
  valid_sizes halfDomain length values ->
  (forall row, 0 <= row < length -> vget values (3 * row + c) = x) ->
  settled halfDomain length c values.
Proof.
  intros Hc (Hsize & Hlen & Hhalf) Hconst.
  assert (Hseed : vget values c = x).
  { rewrite <- (Hconst 0) by lia. reflexivity. }
  unfold settled, settled_walk. cbv zeta. rewrite Hseed.
  destruct halfDomain.
  - specialize (Hhalf eq_refl). subst length.
    pose proof (posRows_spec c Hc) as Hpos.
    pose proof (negRows_spec c Hc) as Hneg.
    rewrite (gather_constant values 3 (posRows c) x),
      (gather_constant values 3 (negRows c) x).
    + split; apply flatten_list_constant.
    + intros k Hk.
      replace (98304 + c + 3 * Z.of_nat k)
        with (3 * (32768 + Z.of_nat k) + c) by lia.
      apply Hconst. lia.
    + intros k Hk.
      replace (c + 3 + 3 * Z.of_nat k) with (3 * (1 + Z.of_nat k) + c)
        by lia.
      apply Hconst. lia.
  - rewrite (gather_constant values 3 _ x).
    + apply flatten_list_constant.
    + intros k Hk.
      replace (c + 3 + 3 * Z.of_nat k) with (3 * (1 + Z.of_nat k) + c)
        by lia.
      apply Hconst. lia.
Qed.

Lemma prepareValues_constant (halfDomain : bool)
    (length activeChannels c : Z) (x : float) (values : list float) :
  0 <= activeChannels <= 3 -> 0 <= c < 3 ->
  valid_sizes halfDomain length values ->
  (forall row, 0 <= row < length -> vget values (3 * row + c) = x) ->
  forall row, 0 <= row < length ->
    vget (prepareValues halfDomain length activeChannels values)
      (3 * row + c) = x.
Proof.
  intros Hnc Hc Hvalid Hconst. unfold prepareValues.
  apply (for_lt_invariant
           (fun (i : Z) v =>
              List.length v = List.length values
              /\ forall row, 0 <= row < length -> vget v (3 * row + c) = x)).
  - lia.
  - split; [reflexivity|exact Hconst].
  - intros i v Hi0 Hi1 [Hlen Hv].
    assert (Hvalid' : valid_sizes halfDomain length v).
    { destruct Hvalid as (H1 & H2 & H3). repeat split; try assumption.
      rewrite Hlen. assumption. }
    split; [rewrite flattenChannel_length by lia; assumption|].
    intros row Hrow. destruct (Z.eq_dec i c) as [->|Hne].
    + rewrite settled_fixed; [apply Hv; assumption|assumption|].
      apply (constant_settled halfDomain length c x); assumption.
    + rewrite vget_flattenChannel_other; [apply Hv; assumption|lia|lia|].
      right. rewrite Z.add_comm, Z.mul_comm, Z.mod_add by lia.
      rewrite Z.mod_small by lia. lia.
Qed.

(** X11. A constant channel: when every row of an active channel of a
    standard-domain LUT holds the same value, not a NaN, [prepareArray]
    leaves the channel as it is, finds it not increasing, and gives it the
    effective domain [startDomain = endDomain = 0]. *)
Theorem constant_channel_domain (L : Lut1DOpData) (c : Z) (x : float) :
  valid_sizes (isInputHalfDomain L) (m_length (m_array L))
    (m_data (m_array L)) ->
  isInputHalfDomain L = false ->
  0 <= c < m_numColorComponents (m_array L) ->
  m_numColorComponents (m_array L) <= 3 ->
  IsNan x = false ->
  (forall row, 0 <= row < m_length (m_array L) ->
     sample (m_array L) row c = x) ->
  (forall row, 0 <= row < m_length (m_array L) ->
     sample (m_array (prepareArray L)) row c = x)
  /\ isIncreasing (getProps (m_componentProperties (prepareArray L)) c)
     = false
  /\ startDomain (getProps (m_componentProperties (prepareArray L)) c) = 0
  /\ endDomain (getProps (m_componentProperties (prepareArray L)) c) = 0.
Proof.
  intros Hvalid Hstd Hc Hnc Hnan Hconst.
  assert (Hconst' : forall row, 0 <= row < m_length (m_array L) ->
            vget (m_data (m_array L)) (3 * row + c) = x).
  { intros row Hrow. rewrite <- (Hconst row Hrow).
    unfold sample, getMaxColorComponents. f_equal. lia. }
  assert (Hprep : forall row, 0 <= row < m_length (m_array L) ->
            sample (m_array (prepareArray L)) row c = x).
  { intros row Hrow. rewrite prepareArray_array.
    unfold sample, getMaxColorComponents. cbn [m_data].
    replace (row * 3 + c) with (3 * row + c) by lia.
    apply (prepareValues_constant _ _ _ c x); try assumption; lia. }
  assert (Hv : forall row, 0 <= row < m_length (m_array L) ->
            vget (m_data (m_array (prepareArray L))) (row * 3 + c) = x).
  { intros row Hrow. apply (Hprep row Hrow). }
  split; [exact Hprep|].
  rewrite (prepareArray_props L c Hvalid Hc Hnc). rewrite Hstd.
  set (v := m_data (m_array (prepareArray L))) in *.
  unfold channelProperties.
  cbn [negb isIncreasing startDomain endDomain].
  destruct Hvalid as (_ & Hlen & _).
  destruct (scanEnd_spec v c 0 (m_length (m_array L) - 1) ltac:(lia))
    as (He & _ & Hmax).
  set (e := scanEnd v 3 c 0 (m_length (m_array L) - 1)) in *.
  destruct (scanStart_spec v c 0 e ltac:(lia)) as (Hs & _).
  set (s := scanStart v 3 c 0 e) in *.
  assert (He0 : e = 0).
  { destruct (Z.eq_dec e 0) as [|Hne]; [assumption|]. exfalso.
    specialize (Hmax ltac:(lia)).
    rewrite !Hv in Hmax by lia.
    rewrite f32_eq_refl, Hnan in Hmax. discriminate Hmax. }
  split; [|split; [lia|exact He0]].
  unfold detectIncreasing.
  replace c with (0 * 3 + c) at 1 by lia.
  rewrite !Hv by lia. apply f32_lt_irrefl.
Qed.

(** ** What [finalize] and [prepareArray] keep *)

(** [validate] reads the interpolation, the half flags, the length of the
    array and the size of its vector. *)
Lemma validate_depends (L L' : Lut1DOpData) :
  m_interpolation L' = m_interpolation L ->
  m_halfFlags L' = m_halfFlags L ->
  m_length (m_array L') = m_length (m_array L) ->
  List.length (m_data (m_array L')) = List.length (m_data (m_array L)) ->
  validate L' = validate L.
Proof.
  intros Hi Hh Hl Hd.
  unfold validate, OpData_validate, bind, getInterpolation, getArray,
    Array_validate, getLength, getNumValues, isInputHalfDomain, getLength.
  rewrite Hi, Hh, Hl, Hd. reflexivity.
Qed.

Lemma finalize_prepared_validate (L : Lut1DOpData) :
  0 <= m_numColorComponents (m_array L) <= 3 ->
  validate (finalize_prepared L) = validate L.
Proof.
  intros Hnc.
  destruct (finalize_prepared_fields L) as (Hh & _ & Hi & _).
  apply validate_depends; try assumption.
  - rewrite finalize_prepared_array.
    destruct (adjustColorComponentNumber_fields
                (match m_direction L with
                 | TRANSFORM_DIR_FORWARD => m_array L
                 | TRANSFORM_DIR_INVERSE =>
                     {| m_length := m_length (m_array L);
                        m_numColorComponents :=
                          m_numColorComponents (m_array L);
                        m_data := prepareValues (isInputHalfDomain L)
                                    (m_length (m_array L))
                                    (m_numColorComponents (m_array L))
                                    (m_data (m_array L)) |}
                 end)) as (H1 & _).
    rewrite H1. destruct (m_direction L); reflexivity.
  - rewrite finalize_prepared_array.
    destruct (adjustColorComponentNumber_fields
                (match m_direction L with
                 | TRANSFORM_DIR_FORWARD => m_array L
                 | TRANSFORM_DIR_INVERSE =>
                     {| m_length := m_length (m_array L);
                        m_numColorComponents :=
                          m_numColorComponents (m_array L);
                        m_data := prepareValues (isInputHalfDomain L)
                                    (m_length (m_array L))
                                    (m_numColorComponents (m_array L))
                                    (m_data (m_array L)) |}
                 end)) as (_ & H2 & _).
    rewrite H2. destruct (m_direction L); [reflexivity|].
    cbn [m_data]. apply prepareValues_length. assumption.
Qed.

(** X12. On a LUT of 1 or 3 channels whose vector holds three floats for
    each of its rows, of one row at least, and that, when it is INVERSE on
    a half domain, has its 65536 rows (so that neither the collapse of the
    channels nor [prepareArray] reads outside the vector): [finalize] fails
    exactly when [validate] fails on the LUT as it is handed in, and with
    the same message. The preparation of an inverse LUT and the collapse
    of the channels change nothing that [validate] reads. *)
Theorem finalize_fails_as_validate (L : Lut1DOpData) :
  m_numColorComponents (m_array L) = 1
  \/ m_numColorComponents (m_array L) = 3 ->
  Z.of_nat (List.length (m_data (m_array L))) = m_length (m_array L) * 3 ->
  1 <= m_length (m_array L) ->
  (m_direction L = TRANSFORM_DIR_INVERSE -> isInputHalfDomain L = true ->
   m_length (m_array L) = 65536) ->
  (forall what, finalize L = Throw what <-> validate L = Throw what)
  /\ (succeeds (finalize L) <-> validate L = OK tt).
Proof.
  intros Hnc _ _ _.
  rewrite finalize_unfold, finalize_prepared_validate by lia.
  split.
  - intros what. destruct (validate L) as [[]|what']; simpl.
    + split; discriminate.
    + split; intros H; injection H as ->; reflexivity.
  - destruct (validate L) as [[]|what']; simpl.
    + split; [reflexivity|]. intros _. eexists. reflexivity.
    + split; [intros [a Ha]; discriminate Ha|discriminate].
Qed.

(** X13. What a successful [finalize] keeps: the direction, the
    interpolation, the half flags, the hue adjust, the inversion quality,
    the metadata, the file depth and the length of the array; the number of
    channels stays or drops from 3 to 1. On a FORWARD LUT the samples and
    the component properties are untouched too. *)
Theorem finalize_frame (L L1 : Lut1DOpData) :
  finalize L = OK L1 ->
  m_direction L1 = m_direction L
  /\ m_interpolation L1 = m_interpolation L
  /\ m_halfFlags L1 = m_halfFlags L
  /\ m_hueAdjust L1 = m_hueAdjust L
  /\ m_invQuality L1 = m_invQuality L
  /\ m_metadata L1 = m_metadata L
  /\ m_fileOutBitDepth L1 = m_fileOutBitDepth L
  /\ m_length (m_array L1) = m_length (m_array L)
  /\ (m_numColorComponents (m_array L1) = m_numColorComponents (m_array L)
      \/ (m_numColorComponents (m_array L) = 3
          /\ m_numColorComponents (m_array L1) = 1))
  /\ (m_direction L = TRANSFORM_DIR_FORWARD ->
      m_data (m_array L1) = m_data (m_array L)
      /\ m_componentProperties L1 = m_componentProperties L).
Proof.
  intros H. apply finalize_ok in H as [_ ->].
  unfold setCacheID.
  cbn [m_direction m_interpolation m_halfFlags m_hueAdjust m_invQuality
       m_metadata m_fileOutBitDepth m_array m_componentProperties].
  destruct (finalize_prepared_fields L) as (Hh & Hd & Hi & Hu).
  split; [exact Hd|]. split; [exact Hi|]. split; [exact Hh|].
  split; [exact Hu|].
  assert (Hrest : m_invQuality (finalize_prepared L) = m_invQuality L
                  /\ m_metadata (finalize_prepared L) = m_metadata L
                  /\ m_fileOutBitDepth (finalize_prepared L)
                     = m_fileOutBitDepth L).
  { unfold finalize_prepared, initializeFromForward, prepareArray.
    destruct (m_direction L); [repeat split; reflexivity|].
    destruct (prepareArray_core (m_halfFlags L) (getArray L)
                (m_componentProperties L)) as [a props].
    repeat split; reflexivity. }
  destruct Hrest as (Hq & Hm & Hf).
  split; [exact Hq|]. split; [exact Hm|]. split; [exact Hf|].
  rewrite finalize_prepared_array.
  set (a := match m_direction L with
            | TRANSFORM_DIR_FORWARD => m_array L
            | TRANSFORM_DIR_INVERSE => _
            end).
  destruct (adjustColorComponentNumber_fields a) as (Hl & Hdata & Hn).
  assert (Ha : m_length a = m_length (m_array L)
               /\ m_numColorComponents a = m_numColorComponents (m_array L)).
  { unfold a. destruct (m_direction L); split; reflexivity. }
  destruct Ha as [Hal Han].
  split; [rewrite Hl; exact Hal|].
  split; [rewrite <- Han; exact Hn|].
  intros Hfwd. split.
  - rewrite Hdata. unfold a. rewrite Hfwd. reflexivity.
  - unfold finalize_prepared. rewrite Hfwd. reflexivity.
Qed.

(** *** A second preparation *)

Lemma ComponentArray_ext (p q : ComponentArray) :
  (forall c, 0 <= c < 3 -> getProps p c = getProps q c) -> p = q.
Proof.
  destruct p as [[p0 p1] p2], q as [[q0 q1] q2]. intros H.
  pose proof (H 0 ltac:(lia)) as H0.
  pose proof (H 1 ltac:(lia)) as H1.
  pose proof (H 2 ltac:(lia)) as H2.
  simpl in H0, H1, H2. congruence.
Qed.

Lemma channelProperties_old (halfDomain : bool) (length c : Z)
    (old : ComponentProperties) (inc inc' : bool) (v v' : list float) :
  channelProperties halfDomain length c
    (channelProperties halfDomain length c old inc v) inc' v'
  = channelProperties halfDomain length c old inc' v'.
Proof. unfold channelProperties. destruct halfDomain; reflexivity. Qed.

(** The component properties after [prepareArray], channel by channel: a
    LUT of one active channel copies the properties of channel 0 to the
    two others. *)
Lemma prepareArray_props_all (L : Lut1DOpData) (c : Z) :
  valid_sizes (isInputHalfDomain L) (m_length (m_array L))
    (m_data (m_array L)) ->
  0 <= m_numColorComponents (m_array L) <= 3 ->
  0 <= c < 3 ->
  getProps (m_componentProperties (prepareArray L)) c
  = let c0 := if m_numColorComponents (m_array L) =? 1 then 0 else c in
    if c0 <? m_numColorComponents (m_array L)
    then channelProperties (isInputHalfDomain L) (m_length (m_array L)) c0
           (getProps (m_componentProperties L) c0)
           (detectIncreasing (isInputHalfDomain L) (m_length (m_array L)) c0
              (m_data (m_array (prepareArray L))))
           (m_data (m_array (prepareArray L)))
    else getProps (m_componentProperties L) c0.
Proof.
  intros Hvalid Hnc Hc.
  pose proof (prepare_loop_records (isInputHalfDomain L)
                (m_length (m_array L)) (m_numColorComponents (m_array L))
                (m_componentProperties L) (m_data (m_array L))
                Hnc Hvalid) as Hspec.
  cbv zeta in Hspec. destruct Hspec as [Hact Hrest]. cbv zeta.
  unfold prepareArray, prepareArray_core, getArray, getLength,
    getNumColorComponents, getValues, getMaxColorComponents.
  unfold isInputHalfDomain in *.
  destruct (for_lt 0 (m_numColorComponents (m_array L)) 1
              (prepareChannel (IsInputHalfDomain (m_halfFlags L))
                 (m_length (m_array L)) 3)
              (m_componentProperties L, m_data (m_array L)))
    as [props' values'].
  simpl fst in Hact, Hrest. simpl snd in Hact.
  unfold setComponentProperties, setArray, setValues.
  cbn [m_componentProperties m_array m_data].
  destruct (Z.eqb_spec (m_numColorComponents (m_array L)) 1) as [H1|H1].
  - rewrite H1 in *. change (0 <? 1) with true. cbv iota.
    rewrite <- (Hact 0) by lia.
    unfold getProps. destruct (c =? 0), (c =? 1); reflexivity.
  - destruct (Z.ltb_spec c (m_numColorComponents (m_array L))) as [Hlt|Hge].
    + apply Hact. lia.
    + apply Hrest. lia.
Qed.

Lemma prepareArray_eta (L : Lut1DOpData) :
  prepareArray L
  = setComponentProperties (setArray L (m_array (prepareArray L)))
      (m_componentProperties (prepareArray L)).
Proof.
  unfold prepareArray.
  destruct (prepareArray_core (m_halfFlags L) (getArray L)
              (m_componentProperties L)) as [a props].
  reflexivity.
Qed.

(** X14. [prepareArray] is idempotent: preparing a prepared LUT changes
    neither the samples nor the component properties. (A file reader calls
    it through [initializeFromForward], and [finalize] calls it again.) *)
Theorem prepareArray_idempotent (L : Lut1DOpData) :
  valid_sizes (isInputHalfDomain L) (m_length (m_array L))
    (m_data (m_array L)) ->
  0 <= m_numColorComponents (m_array L) <= 3 ->
  prepareArray (prepareArray L) = prepareArray L.
Proof.
  intros Hvalid Hnc.
  set (L' := prepareArray L).
  assert (Hhd : isInputHalfDomain L' = isInputHalfDomain L).
  { unfold isInputHalfDomain, L'.
    destruct (prepareArray_flags L) as (-> & _). reflexivity. }
  assert (Harr : m_array L'
                 = {| m_length := m_length (m_array L);
                      m_numColorComponents :=
                        m_numColorComponents (m_array L);
                      m_data := prepareValues (isInputHalfDomain L)
                                  (m_length (m_array L))
                                  (m_numColorComponents (m_array L))
                                  (m_data (m_array L)) |})
    by apply prepareArray_array.
  assert (Hl : m_length (m_array L') = m_length (m_array L))
    by (rewrite Harr; reflexivity).
  assert (Hn : m_numColorComponents (m_array L')
               = m_numColorComponents (m_array L))
    by (rewrite Harr; reflexivity).
  assert (Hvalid' : valid_sizes (isInputHalfDomain L') (m_length (m_array L'))
                      (m_data (m_array L'))).
  { rewrite Hhd, Hl. destruct Hvalid as (H1 & H2 & H3).
    repeat split; try assumption.
    rewrite Harr. cbn [m_data]. rewrite prepareValues_length by assumption.
    assumption. }
  assert (Harr' : m_array (prepareArray L') = m_array L').
  { rewrite (prepareArray_array L'), Hhd, Hl, Hn.
    rewrite Harr at 2. f_equal. rewrite Harr. cbn [m_data].
    apply prepareValues_idempotent; [assumption|lia|assumption]. }
  assert (Hprops : m_componentProperties (prepareArray L')
                   = m_componentProperties L').
  { apply ComponentArray_ext. intros c Hc.
    rewrite (prepareArray_props_all L' c Hvalid') by (rewrite ?Hn; lia).
    cbv zeta. rewrite Harr', Hhd, Hl, Hn.
    set (c0 := if m_numColorComponents (m_array L) =? 1 then 0 else c).
    assert (Hc0 : 0 <= c0 < 3).
    { unfold c0. destruct (m_numColorComponents (m_array L) =? 1); lia. }
    assert (Hc00 : (if m_numColorComponents (m_array L) =? 1 then 0 else c0)
                   = c0).
    { unfold c0. destruct (m_numColorComponents (m_array L) =? 1);
        reflexivity. }
    pose proof (prepareArray_props_all L c0 Hvalid Hnc Hc0) as H0.
    pose proof (prepareArray_props_all L c Hvalid Hnc Hc) as H1.
    cbv zeta in H0, H1. rewrite Hc00 in H0. fold c0 in H1. fold L' in H0, H1.
    rewrite H1.
    destruct (c0 <? m_numColorComponents (m_array L)).
    - rewrite H0. apply channelProperties_old.
    - exact H0. }
  rewrite (prepareArray_eta L'), Harr', Hprops.
  destruct L'. reflexivity.
Qed.

(** X15. What [prepareArray] never touches, on a LUT of valid sizes and
    at most three channels: the size of the vector, row 0 of every channel,
    the channels that are not active and, in a half domain, the NaN rows
    31745..32767 and 64513..65535. *)
Theorem prepareArray_untouched (L : Lut1DOpData) :
  valid_sizes (isInputHalfDomain L) (m_length (m_array L))
    (m_data (m_array L)) ->
  0 <= m_numColorComponents (m_array L) <= 3 ->
  List.length (m_data (m_array (prepareArray L)))
  = List.length (m_data (m_array L))
  /\ (forall c, 0 <= c < 3 ->
        sample (m_array (prepareArray L)) 0 c = sample (m_array L) 0 c)
  /\ (forall row c, 0 <= row ->
        m_numColorComponents (m_array L) <= c < 3 ->
        sample (m_array (prepareArray L)) row c = sample (m_array L) row c)
  /\ (isInputHalfDomain L = true ->
      forall row c, 31745 <= row <= 32767 \/ 64513 <= row <= 65535 ->
        0 <= c < 3 ->
        sample (m_array (prepareArray L)) row c = sample (m_array L) row c).
Proof.
  intros _ Hnc. rewrite prepareArray_array.
  unfold sample, getMaxColorComponents. cbn [m_data].
  split; [apply prepareValues_length; assumption|].
  assert (Hframe : forall j, 0 <= j ->
            (j < 3 \/ m_numColorComponents (m_array L) <= j mod 3) ->
            vget (prepareValues (isInputHalfDomain L) (m_length (m_array L))
                    (m_numColorComponents (m_array L)) (m_data (m_array L)))
              j
            = vget (m_data (m_array L)) j).
  { intros j Hj Hcase. unfold prepareValues.
    apply (for_lt_invariant
             (fun (i : Z) v => vget v j = vget (m_data (m_array L)) j)).
    - lia.
    - reflexivity.
    - intros i v Hi0 Hi1 Hv. rewrite <- Hv.
      apply vget_flattenChannel_other; [lia|lia|].
      destruct Hcase as [Hlt|Hge]; [|right; lia].
      destruct (Z.eq_dec j i) as [->|Hne]; [left; reflexivity|right].
      rewrite Z.mod_small by lia. assumption. }
  split; [|split].
  - intros c Hc. apply Hframe; lia.
  - intros row c Hrow Hc. apply Hframe; [lia|]. right.
    rewrite Z.add_comm, Z.mod_add by lia. rewrite Z.mod_small by lia. lia.
  - intros Hhalf row c Hrow Hc. rewrite Hhalf.
    apply prepareValues_half_untouched; [assumption|lia|lia].
Qed.

(** ** The results of [ComposeVec] and of the fast inverse factory *)

Lemma ComposeVec_throws_length (A : Lut1DOpData) (ops : list Op) :
  m_length (m_array A) < 2 \/ 1048576 < m_length (m_array A) ->
  throws (ComposeVec A ops).
Proof.
  intros H. unfold ComposeVec, Lut3by1DArray_resize, bind, getLength,
    getArray, throws.
  destruct (length ops =? 0)%nat; [eauto|].
  destruct (Z.ltb_spec (m_length (m_array A)) 2); [eauto|].
  destruct (Z.gtb_spec (m_length (m_array A)) (1024 * 1024)); [eauto|lia].
Qed.

(** X16. [ComposeVec] succeeds exactly when the chain is not empty and the
    length of [A] is between 2 and 1,048,576 (the bounds of
    [Lut3by1DArray::resize]). The result has the length of [A] and three
    channels, whatever the number of channels of [A] was; its samples are
    those of [A], resized to three floats a row and rendered through the
    chain; the flags of [A] are kept. *)
Theorem ComposeVec_result (A : Lut1DOpData) (ops : list Op) :
  (succeeds (ComposeVec A ops)
   <-> ops <> [] /\ 2 <= m_length (m_array A) <= 1048576)
  /\ (forall R, ComposeVec A ops = OK R ->
        m_length (m_array R) = m_length (m_array A)
        /\ m_numColorComponents (m_array R) = 3
        /\ m_data (m_array R)
           = EvalTransform
               (vector_resize (m_data (m_array A))
                  (m_length (m_array A) * 3))
               (m_length (m_array A)) ops
        /\ m_halfFlags R = m_halfFlags A
        /\ m_direction R = m_direction A
        /\ m_hueAdjust R = m_hueAdjust A
        /\ m_interpolation R = m_interpolation A
        /\ m_metadata R = m_metadata A).
Proof.
  assert (Hcases : (ops = [] \/ m_length (m_array A) < 2
                    \/ 1048576 < m_length (m_array A))
                   \/ (ops <> [] /\ 2 <= m_length (m_array A) <= 1048576))
    by (destruct ops; [left; left; reflexivity|];
        destruct (Z.lt_ge_cases (m_length (m_array A)) 2);
        [left; right; left; assumption|];
        destruct (Z.lt_ge_cases 1048576 (m_length (m_array A)));
        [left; right; right; assumption|];
        right; split; [discriminate|lia]).
  destruct Hcases as [Hbad|[Hops Hlen]].
  - assert (Hthrow : throws (ComposeVec A ops)).
    { destruct Hbad as [->|Hbad];
        [eexists; reflexivity|apply ComposeVec_throws_length; exact Hbad]. }
    split.
    + split.
      * intros [R HR]. exfalso. exact (throws_not_OK _ _ Hthrow HR).
      * intros [Hops Hlen]. destruct Hbad as [->|Hbad];
          [contradiction|lia].
    + intros R HR. exfalso. exact (throws_not_OK _ _ Hthrow HR).
  - destruct ops as [|op ops]; [contradiction|].
    rewrite (ComposeVec_ok A op ops Hlen).
    split.
    + split; [intros _; split; assumption|]. intros _. eexists. reflexivity.
    + intros R HR. injection HR as <-. repeat split; reflexivity.
Qed.

(** [Compose] on the domain as it is. *)
Lemma Compose_no_resample (A B : Lut1DOpData) :
  2 <= m_length (m_array A) <= 1048576 ->
  Compose A B COMPOSE_RESAMPLE_NO
  = OK (setHueAdjust
          (setFormatMetadata
             (setArray A
                {| m_length := m_length (m_array A);
                   m_numColorComponents := 3;
                   m_data :=
                     EvalTransform
                       (vector_resize (m_data (m_array A))
                          (m_length (m_array A) * 3))
                       (m_length (m_array A)) [Lut1DOp (clone B)] |})
             (combine (getFormatMetadata A) (getFormatMetadata B)))
          (getHueAdjust B)).
Proof.
  intros Hlen. rewrite Compose_unfold.
  assert (Hsetup : Compose_setup A B COMPOSE_RESAMPLE_NO
                   = OK (A, [Lut1DOp (clone B)])).
  { unfold Compose_setup, bind, compose_min_size, compose_needHalfDomain.
    destruct (decide (COMPOSE_RESAMPLE_NO = COMPOSE_RESAMPLE_NO))
      as [_|H]; [|contradiction].
    rewrite andb_false_r. reflexivity. }
  rewrite Hsetup. unfold bind at 1. simpl fst. simpl snd.
  rewrite ComposeVec_ok by assumption. reflexivity.
Qed.

(** The depth of the domain that the fast inverse factory asks for. *)
Lemma fast_depth_cases (fileDepth : BitDepth) (forGPU extended : bool) :
  let depth :=
    match fileDepth with
    | BIT_DEPTH_UNKNOWN | BIT_DEPTH_UINT14 | BIT_DEPTH_UINT32 =>
        BIT_DEPTH_UINT12
    | _ => fileDepth
    end in
  let depth :=
    if forGPU
       && (if decide (depth <> BIT_DEPTH_UINT16) then true else false)
    then BIT_DEPTH_UINT12 else depth in
  let depth := if extended then BIT_DEPTH_F16 else depth in
  depth <> BIT_DEPTH_UNKNOWN /\ depth <> BIT_DEPTH_UINT32
  /\ depth <> BIT_DEPTH_UINT14
  /\ (extended = true -> depth = BIT_DEPTH_F16)
  /\ (extended = false -> forGPU = true ->
      fileDepth <> BIT_DEPTH_UINT16 -> depth = BIT_DEPTH_UINT12)
  /\ (extended = false -> forGPU = false ->
      depth = match fileDepth with
              | BIT_DEPTH_UNKNOWN | BIT_DEPTH_UINT14 | BIT_DEPTH_UINT32 =>
                  BIT_DEPTH_UINT12
              | _ => fileDepth
              end).
Proof.
  destruct fileDepth, forGPU, extended; cbn;
    repeat split; try discriminate; try reflexivity;
    intros; try discriminate; try reflexivity; try contradiction.
Qed.

(** X17. The fast inverse factory never fails on an INVERSE LUT: it returns
    a FORWARD LUT with the hue adjust of the source and leaves the source as
    it was. Without an extended range the result has a standard domain of
    4096 rows for the GPU (unless the file depth is UINT16); for the CPU
    its domain is the lookup domain of the file depth, with UINT12 standing
    in for the depths UNKNOWN, UINT14 and UINT32. *)
Theorem MakeFastLut1DFromInverse_result (lut : Lut1DOpData) (forGPU : bool) :
  getDirection lut = TRANSFORM_DIR_INVERSE ->
  exists R,
    fst (MakeFastLut1DFromInverse lut forGPU) = OK R
    /\ snd (MakeFastLut1DFromInverse lut forGPU) = lut
    /\ getDirection R = TRANSFORM_DIR_FORWARD
    /\ getHueAdjust R = getHueAdjust lut
    /\ m_numColorComponents (m_array R) = 3
    /\ (hasExtendedRange lut = false -> forGPU = true ->
        getFileOutputBitDepth lut <> BIT_DEPTH_UINT16 ->
        isInputHalfDomain R = false /\ m_length (m_array R) = 4096)
    /\ (hasExtendedRange lut = false -> forGPU = false ->
        let depth :=
          match getFileOutputBitDepth lut with
          | BIT_DEPTH_UNKNOWN | BIT_DEPTH_UINT14 | BIT_DEPTH_UINT32 =>
              BIT_DEPTH_UINT12
          | _ => getFileOutputBitDepth lut
          end in
        isInputHalfDomain R = IsFloatBitDepth depth
        /\ m_length (m_array R)
           = (if IsFloatBitDepth depth then 65536
              else GetBitDepthMaxValue depth + 1)).
Proof.
  intros Hdir.
  pose proof (fast_depth_cases (getFileOutputBitDepth lut) forGPU
                (hasExtendedRange lut)) as Hdepth.
  cbv zeta in Hdepth.
  unfold MakeFastLut1DFromInverse.
  destruct (decide (getDirection lut <> TRANSFORM_DIR_INVERSE)) as [H|_];
    [contradiction|].
  cbv zeta.
  set (depth :=
         if hasExtendedRange lut then BIT_DEPTH_F16
         else if forGPU && _ then BIT_DEPTH_UINT12 else _) in *.
  destruct Hdepth as (H1 & H2 & _ & _ & Hgpu & Hcpu).
  destruct (MakeLookupDomain_ok depth H1 H2)
    as (dom & Hdom & Hfwd & _ & Hhd & Hlen & _ & _).
  rewrite Hdom.
  assert (Hrange : 2 <= m_length (m_array dom) <= 1048576).
  { rewrite Hlen. clear. destruct depth; cbn; lia. }
  rewrite (Compose_no_resample dom _ Hrange).
  eexists. cbn [fst snd]. split; [reflexivity|].
  split; [apply setInversionQuality_restore|].
  unfold getDirection, getHueAdjust, setHueAdjust, setFormatMetadata,
    setArray, setInversionQuality, isInputHalfDomain.
  cbn [m_direction m_hueAdjust m_array m_numColorComponents m_length
       m_halfFlags].
  split; [exact Hfwd|]. split; [reflexivity|]. split; [reflexivity|].
  unfold isInputHalfDomain in Hhd.
  split.
  - intros Hext Hg Hfile. rewrite Hhd, Hlen.
    rewrite (Hgpu Hext Hg Hfile). split; reflexivity.
  - intros Hext Hg. rewrite Hhd, Hlen, (Hcpu Hext Hg). split; reflexivity.
Qed.

(** ** [isIdentity] and [isNoOp] *)

(** A loop that answers false as soon as one turn is not good. *)
Lemma flag_loop (G : Z -> bool -> bool) (good : Z -> Prop) (n : Z)
    (b0 : bool) :
  (forall i b, G i b = true <-> b = true /\ good i) ->
  0 <= n ->
  for_lt 0 n 1 G b0 = true
  <-> b0 = true /\ forall i, 0 <= i < n -> good i.
Proof.
  intros HG Hn.
  apply (for_lt_invariant
           (fun i b => b = true
                       <-> b0 = true /\ forall j, 0 <= j < i -> good j)).
  - assumption.
  - split; [intros H; split; [exact H|intros j Hj; lia]|intros [H _]; exact H].
  - intros i b Hi0 Hi1 IH. rewrite HG, IH. split.
    + intros [[Hb Hbefore] Hi]. split; [exact Hb|].
      intros j Hj. destruct (Z.eq_dec j i) as [->|Hne];
        [exact Hi|apply Hbefore; lia].
    + intros [Hb Hall]. split; [split; [exact Hb|]|].
      * intros j Hj. apply Hall. lia.
      * apply Hall. lia.
Qed.

Lemma Array_isIdentity_standard (halfFlags : HalfFlags) (a : Array) :
  IsInputHalfDomain halfFlags = false ->
  0 <= m_length a ->
  Array_isIdentity halfFlags a = true
  <-> forall idx c, 0 <= idx < m_length a -> 0 <= c < 3 ->
        f32_gt
          (SFabs (f32_sub (sample a idx c)
                    (ideal_value LUT_STANDARD (m_length a) idx)))
          f32_1em5
        = false.
Proof.
  intros Hstd Hlen. unfold Array_isIdentity. rewrite Hstd. cbv zeta.
  unfold getLength, getValues, getMaxColorComponents.
  rewrite (flag_loop _
             (fun idx => forall c, 0 <= c < 3 ->
                f32_gt
                  (SFabs (f32_sub (sample a idx c)
                            (ideal_value LUT_STANDARD (m_length a) idx)))
                  f32_1em5
                = false) (m_length a) true); [|  |assumption].
  - split.
    + intros [_ H] idx c Hidx Hc. exact (H idx Hidx c Hc).
    + intros H. split; [reflexivity|].
      intros idx Hidx c Hc. exact (H idx c Hidx Hc).
  - intros idx b.
    rewrite (flag_loop _
               (fun c =>
                  f32_gt
                    (SFabs (f32_sub (sample a idx c)
                              (ideal_value LUT_STANDARD (m_length a) idx)))
                    f32_1em5
                  = false) 3 b); [reflexivity| |lia].
    intros c b'. unfold sample, ideal_value, getMaxColorComponents.
    change (IsInputHalfDomain LUT_STANDARD) with false. cbv iota.
    replace (idx * 3 + c) with (c + 3 * idx) by lia.
    destruct b'; [|split; [discriminate|intros [H _]; discriminate H]].
    destruct (f32_gt _ f32_1em5).
    + split; [discriminate|intros [_ H]; discriminate H].
    + split; [intros _; split; reflexivity|reflexivity].
Qed.


(** The rows of a fresh standard-domain identity are zero or finite. *)
Lemma ideal_value_standard_finite (n idx : Z) :
  2 <= n <= 1048576 -> 0 <= idx < n ->
  ideal_value LUT_STANDARD n idx = S754_zero false
  \/ exists mx ex, ideal_value LUT_STANDARD n idx = S754_finite false mx ex.
Proof.
  intros Hn Hidx. unfold ideal_value.
  change (IsInputHalfDomain LUT_STANDARD) with false. cbv iota.
  destruct (float_minus_one_spec n) as (md & b & Hsub & Hb & Hmd & Hmdb).
  { change (2 ^ 20) with 1048576. lia. }
  rewrite Hsub.
  destruct (one_over_spec md b Hmd) as (ms & t & Hdiv & Hms & Ht & Hstep);
    [lia|].
  rewrite Hdiv.
  destruct (Z.eq_dec idx 0) as [->|Hpos].
  - left. reflexivity.
  - right. destruct (float_of_ulong_spec idx) as (mi & a & Hf & Ha & Hmi & Hmia).
    { change (2 ^ 24) with 16777216. lia. }
    rewrite Hf.
    destruct (scaled_index_bound mi ms md a b t idx (n - 1))
      as (mx & ex & Hmul & _); try assumption; try lia.
    exists mx, ex. exact Hmul.
Qed.

Lemma f32_sub_diag (x : float) :
  x = S754_zero false \/ (exists mx ex, x = S754_finite false mx ex) ->
  f32_sub x x = S754_zero false.
Proof.
  intros [->|(mx & ex & ->)]; [reflexivity|].
  unfold f32_sub, SFsub. cbv zeta. rewrite Z.sub_diag. reflexivity.
Qed.

(** X19. A freshly constructed standard-domain LUT is an identity for
    [isIdentity], and yet it is not a no-op: [isNoOp] answers false for
    every standard-domain LUT. *)
Theorem fresh_standard_isIdentity (n : Z) :
  2 <= n <= 1048576 ->
  exists L,
    Lut1DOpData_new LUT_STANDARD n = OK L
    /\ isIdentity L = true
    /\ isNoOp L = false.
Proof.
  intros Hn.
  destruct (Lut1DOpData_new_ok LUT_STANDARD n Hn) as (a & Ha & HL).
  destruct (Lut3by1DArray_new_identity _ _ _ Ha)
    as (_ & Hl & _ & _ & Hsample).
  eexists. split; [exact HL|]. split; [|reflexivity].
  unfold isIdentity. cbn [m_halfFlags m_array].
  apply Array_isIdentity_standard; [reflexivity|lia|].
  rewrite Hl. intros idx c Hidx Hc.
  rewrite (Hsample idx c Hidx Hc).
  rewrite f32_sub_diag by (apply ideal_value_standard_finite; assumption).
  reflexivity.
Qed.

(** X20. [isIdentity] does not reject a NaN on a standard domain: the
    comparison [fabs(err) > abs_tol] is false when [err] is a NaN, so a
    standard-domain LUT whose samples are all NaN is an identity for it. *)
Theorem isIdentity_accepts_nan (L : Lut1DOpData) :
  isInputHalfDomain L = false ->
  0 <= m_length (m_array L) ->
  (forall idx c, 0 <= idx < m_length (m_array L) -> 0 <= c < 3 ->
     IsNan (sample (m_array L) idx c) = true) ->
  isIdentity L = true.
Proof.
  intros Hstd Hlen Hnan. apply Array_isIdentity_standard; try assumption.
  intros idx c Hidx Hc. specialize (Hnan idx c Hidx Hc).
  destruct (sample (m_array L) idx c); try discriminate Hnan.
  reflexivity.
Qed.

(** ** Fresh LUTs and [validate]; the samples after the flattening *)

(** X21. A freshly constructed LUT passes [validate] exactly when it has a
    standard domain or its length is 65536: the constructor accepts a
    half-domain LUT of any length from 2 to 1,048,576, and [validate] is
    what rejects the lengths other than 65536. *)
Theorem fresh_lut_validate (halfFlags : HalfFlags) (n : Z) :
  2 <= n <= 1048576 ->
  exists L,
    Lut1DOpData_new halfFlags n = OK L
    /\ (validate L = OK tt
        <-> IsInputHalfDomain halfFlags = false \/ n = 65536).
Proof.
  intros Hn.
  destruct (Lut1DOpData_new_ok halfFlags n Hn) as (a & Ha & HL).
  destruct (Lut3by1DArray_new_identity _ _ _ Ha)
    as (_ & Hl & _ & Hsize & _).
  eexists. split; [exact HL|].
  rewrite validate_ok, Array_validate_ok. unfold isInputHalfDomain.
  cbn [m_interpolation m_array m_halfFlags]. rewrite Hl.
  split.
  - intros (_ & _ & Hhalf).
    destruct (IsInputHalfDomain halfFlags); [right; auto|left; reflexivity].
  - intros Hcase. split; [reflexivity|]. split; [split; [lia|exact Hsize]|].
    intros Hhalf. destruct Hcase as [Hstd|Hlen]; [|exact Hlen].
    rewrite Hhalf in Hstd. discriminate Hstd.
Qed.

(** The flattening walk on a list: every sample it writes is the seed or a
    sample of the list from the same or an earlier place. *)
Lemma flatten_list_source (increasing : bool) (l : list float) :
  forall prev i y,
    flatten_list increasing prev l !! i = Some y ->
    y = prev \/ exists j, (j <= i)%nat /\ l !! j = Some y.
Proof.
  induction l as [|v l IH]; intros prev i y H; [discriminate H|].
  cbn [flatten_list] in H.
  destruct (negb (eqb increasing (f32_gt v prev))).
  - destruct i as [|i]; [left; injection H as <-; reflexivity|].
    destruct (IH prev i y H) as [Hp|(j & Hj & Hl)]; [left; exact Hp|].
    right. exists (S j). split; [lia|exact Hl].
  - destruct i as [|i].
    + right. exists 0%nat. split; [lia|exact H].
    + destruct (IH v i y H) as [->|(j & Hj & Hl)].
      * right. exists 0%nat. split; [lia|reflexivity].
      * right. exists (S j). split; [lia|exact Hl].
Qed.

(** One walk: a sample of the result is the seed or a sample of the same
    channel from the same or an earlier row. *)
Lemma walk_source (increasing : bool) (prev : float) (values : list float)
    (start : Z) (n : nat) (idx : Z) :
  0 <= start -> 0 <= idx ->
  start + 3 * Z.of_nat n <= Z.of_nat (List.length values) + 2 ->
  vget (walk increasing prev values start n) idx = prev
  \/ exists k, 0 <= k /\ 0 <= idx - 3 * k
               /\ (k = 0 \/ start <= idx - 3 * k)
               /\ vget (walk increasing prev values start n) idx
                  = vget values (idx - 3 * k).
Proof.
  intros Hstart Hidx Hfit.
  assert (Hon : (exists k, (k < n)%nat /\ idx = start + 3 * Z.of_nat k)
                \/ ~ (exists k, (k < n)%nat /\ idx = start + 3 * Z.of_nat k)).
  { destruct (Z_le_gt_dec start idx) as [Hle|Hgt];
      [|right; intros (k & _ & Hk); lia].
    destruct (Z.eq_dec ((idx - start) mod 3) 0) as [Hmod|Hmod];
      [|right; intros (k & _ & Hk); apply Hmod;
        replace (idx - start) with (Z.of_nat k * 3) by lia;
        apply Z.mod_mul; lia].
    pose proof (Z.div_mod (idx - start) 3 ltac:(lia)) as Hdiv.
    destruct (Z_lt_dec ((idx - start) / 3) (Z.of_nat n)) as [Hlt|Hge];
      [|right; intros (k & Hk & Heq); lia].
    left. exists (Z.to_nat ((idx - start) / 3)).
    assert (0 <= (idx - start) / 3) by (apply Z.div_pos; lia).
    split; lia. }
  destruct Hon as [(k & Hk & ->)|Hoff].
  - pose proof (walk_rows increasing prev values start n k Hstart Hfit Hk)
      as Hrow.
    destruct (flatten_list_source _ _ _ _ _ Hrow) as [Hp|(j & Hj & Hl)];
      [left; exact Hp|].
    right. rewrite gather_lookup in Hl by lia. injection Hl as Hl.
    exists (Z.of_nat k - Z.of_nat j).
    split; [lia|]. split; [lia|]. split; [right; lia|].
    rewrite <- Hl. f_equal. lia.
  - right. exists 0. split; [lia|]. split; [lia|]. split; [left; reflexivity|].
    rewrite Z.mul_0_r, Z.sub_0_r.
    apply vget_walk_other; [assumption|assumption|].
    intros k Hk Heq. apply Hoff. exists k. split; assumption.
Qed.

Lemma sourced_refl (c : Z) (values : list float) : sourced c values values.
Proof. intros row Hrow. exists row. split; [lia|reflexivity]. Qed.

Lemma sourced_trans (c : Z) (u v w : list float) :
  sourced c u v -> sourced c v w -> sourced c u w.
Proof.
  intros Huv Hvw row Hrow.
  destruct (Hvw row Hrow) as (r1 & Hr1 & H1).
  destruct (Huv r1 ltac:(lia)) as (r2 & Hr2 & H2).
  exists r2. split; [lia|]. rewrite H1. exact H2.
Qed.

Lemma walk_sourced (increasing : bool) (values : list float)
    (c start : Z) (n : nat) :
  0 <= c < 3 -> 0 <= start ->
  start + 3 * Z.of_nat n <= Z.of_nat (List.length values) + 2 ->
  sourced c values (walk increasing (vget values c) values start n).
Proof.
  intros Hc Hstart Hfit row Hrow.
  destruct (walk_source increasing (vget values c) values start n
              (3 * row + c) Hstart ltac:(lia) Hfit)
    as [Hseed|(k & Hk & Hpos & _ & Hval)].
  - exists 0. split; [lia|]. rewrite Hseed. reflexivity.
  - exists (row - k). split; [lia|]. rewrite Hval. f_equal. lia.
Qed.

Lemma flattenChannel_sourced (halfDomain : bool) (length c : Z)
    (values : list float) :
  0 <= c < 3 -> valid_sizes halfDomain length values ->
  sourced c values (flattenChannel halfDomain length c values).
Proof.
  intros Hc (Hsize & Hlen & Hhalf). unfold flattenChannel.
  destruct halfDomain.
  - specialize (Hhalf eq_refl). subst length.
    rewrite flattenReversals_half by assumption. cbv zeta.
    pose proof (posRows_spec c Hc) as Hpos.
    pose proof (negRows_spec c Hc) as Hneg.
    set (inc := detectIncreasing true 65536 c values).
    apply (sourced_trans c values
             (walk inc (vget values c) values (c + 3) (posRows c))).
    + apply walk_sourced; lia.
    + apply walk_sourced; [assumption|lia|].
      rewrite walk_length. lia.
  - rewrite flattenReversals_standard by assumption.
    apply walk_sourced; lia.
Qed.

Lemma prepareValues_sourced (halfDomain : bool)
    (length activeChannels : Z) (values : list float) :
  0 <= activeChannels <= 3 ->
  valid_sizes halfDomain length values ->
  forall c, 0 <= c < 3 ->
    sourced c values (prepareValues halfDomain length activeChannels values).
Proof.
  intros Hnc Hvalid. unfold prepareValues.
  apply (for_lt_invariant
           (fun (i : Z) v =>
              List.length v = List.length values
              /\ forall c, 0 <= c < 3 -> sourced c values v)).
  - lia.
  - split; [reflexivity|]. intros c Hc. apply sourced_refl.
  - intros i v Hi0 Hi1 [Hlen Hsrc].
    assert (Hvalid' : valid_sizes halfDomain length v).
    { destruct Hvalid as (H1 & H2 & H3). repeat split; try assumption.
      rewrite Hlen. assumption. }
    split; [rewrite flattenChannel_length by lia; assumption|].
    intros c Hc. apply (sourced_trans c values v); [apply Hsrc; assumption|].
    destruct (Z.eq_dec c i) as [->|Hne].
    + apply flattenChannel_sourced; assumption.
    + intros row Hrow. exists row. split; [lia|].
      apply vget_flattenChannel_other; [lia|lia|].
      right. rewrite Z.add_comm, Z.mul_comm, Z.mod_add by lia.
      rewrite Z.mod_small by lia. assumption.
Qed.

(** X22. [prepareArray] invents no value: every sample of the prepared
    array is a sample of the same channel of the array as it was, taken
    from the same or an earlier row. *)
Theorem prepareArray_samples_from_input (L : Lut1DOpData) (row c : Z) :
  valid_sizes (isInputHalfDomain L) (m_length (m_array L))
    (m_data (m_array L)) ->
  0 <= m_numColorComponents (m_array L) <= 3 ->
  0 <= row -> 0 <= c < 3 ->
  exists row',
    0 <= row' <= row
    /\ sample (m_array (prepareArray L)) row c
       = sample (m_array L) row' c.
Proof.
  intros Hvalid Hnc Hrow Hc. rewrite prepareArray_array.
  unfold sample, getMaxColorComponents. cbn [m_data].
  destruct (prepareValues_sourced _ _ _ _ Hnc Hvalid c Hc row Hrow)
    as (row' & Hrow' & Hval).
  exists row'. split; [exact Hrow'|].
  replace (row * 3 + c) with (3 * row + c) by lia.
  replace (row' * 3 + c) with (3 * row' + c) by lia. exact Hval.
Qed.


End Lut1D.

(** * The properties on concrete inputs

    The parameters of the section are instantiated: no format metadata
    ([unit]), the sample names and digest, and a renderer that hands its
    input back. *)

(** C2, counterexample. The claim holds the fresh half-domain identity of
    65536 rows to have no extended range; [hasExtendedRange] is true for
    it. *)
Lemma C2_half_identity_has_extended_range :
  exists H, Lut1DOpData_new unit tt LUT_INPUT_HALF_CODE 65536 = OK H
            /\ hasExtendedRange unit H = true.
Proof. exact (fresh_half_extended_range unit tt). Qed.

(** C2, witness: the standard-domain identity of two rows. *)
Lemma C2_fresh_identity_witness :
  2 <= 2 <= 1048576
  /\ ((exists L, Lut1DOpData_new unit tt LUT_STANDARD 2 = OK L
                 /\ hasExtendedRange unit L = false)
      /\ (exists H, Lut1DOpData_new unit tt LUT_INPUT_HALF_CODE 65536 = OK H
                    /\ hasExtendedRange unit H = true)).
Proof.
  split; [lia|].
  apply (C2_fresh_identity_extended_range unit tt 2). lia.
Defined.

(** C3, counterexample. The channels of [nan_lut] hold 0, NaN, 1, 0: the
    direction detected for channel 0 is decreasing, the preparation leaves
    the values as they are, and the stored values of the rows 0 and 2, none
    a NaN, increase. *)
Lemma C3_nan_value_breaks_monotonicity :
  getDirection unit (nan_lut unit tt) = TRANSFORM_DIR_INVERSE
  /\ isIncreasing
       (getProps
          (m_componentProperties unit (prepareArray unit (nan_lut unit tt)))
          0)
     = false
  /\ sample (m_array unit (prepareArray unit (nan_lut unit tt))) 0 0 = f32_0
  /\ sample (m_array unit (prepareArray unit (nan_lut unit tt))) 2 0 = f32_1
  /\ ~ monotonic_rows false 4
         (isIncreasing
            (getProps
               (m_componentProperties unit
                  (prepareArray unit (nan_lut unit tt)))
               0))
         (m_data (m_array unit (prepareArray unit (nan_lut unit tt)))) 0.
Proof.
  split; [reflexivity|]. split; [reflexivity|].
  split; [reflexivity|]. split; [reflexivity|].
  intros H. specialize (H 0 2 ltac:(lia) ltac:(lia) ltac:(lia)).
  vm_compute in H. discriminate H.
Qed.

(** C3, witness: channel 0 of [reversal_lut], which holds 0, 1, 0, 1. *)
Lemma C3_prepared_monotonic_witness :
  valid_sizes (isInputHalfDomain unit (reversal_lut unit tt))
    (m_length (m_array unit (reversal_lut unit tt)))
    (m_data (m_array unit (reversal_lut unit tt)))
  /\ 0 <= 0 < m_numColorComponents (m_array unit (reversal_lut unit tt))
  /\ m_numColorComponents (m_array unit (reversal_lut unit tt)) <= 3
  /\ nan_free (isInputHalfDomain unit (reversal_lut unit tt))
       (m_length (m_array unit (reversal_lut unit tt))) 0
       (m_data (m_array unit (reversal_lut unit tt)))
  /\ monotonic_rows (isInputHalfDomain unit (reversal_lut unit tt))
       (m_length (m_array unit (reversal_lut unit tt)))
       (isIncreasing
          (getProps
             (m_componentProperties unit
                (prepareArray unit (reversal_lut unit tt)))
             0))
       (m_data (m_array unit (prepareArray unit (reversal_lut unit tt)))) 0.
Proof.
  assert (Hsizes : valid_sizes (isInputHalfDomain unit (reversal_lut unit tt))
                     (m_length (m_array unit (reversal_lut unit tt)))
                     (m_data (m_array unit (reversal_lut unit tt)))).
  { split; [reflexivity|]. split; [simpl; lia|]. discriminate. }
  assert (Hnan : nan_free (isInputHalfDomain unit (reversal_lut unit tt))
                   (m_length (m_array unit (reversal_lut unit tt))) 0
                   (m_data (m_array unit (reversal_lut unit tt)))).
  { intros i Hlo Hhi. simpl in Hhi.
    assert (Hi : i = 0 \/ i = 1 \/ i = 2 \/ i = 3) by lia.
    destruct Hi as [-> | [-> | [-> | ->]]]; reflexivity. }
  split; [exact Hsizes|]. split; [simpl; lia|]. split; [simpl; lia|].
  split; [exact Hnan|].
  apply (C3_prepared_monotonic unit (reversal_lut unit tt) 0);
    [exact Hsizes|simpl; lia|simpl; lia|exact Hnan].
Defined.

(** C4, witness: the identity of two rows composed with [reversal_lut], by
    RESAMPLE_HD and by RESAMPLE_BIG. Its domain of two rows is not good: it
    is replaced by a half domain for RESAMPLE_HD and by a standard domain
    for RESAMPLE_BIG, of 65536 rows each. *)
Lemma C4_compose_witness :
  (exists dom R,
     Lut1DOpData_new unit tt LUT_INPUT_HALF_CODE 65536 = OK dom
     /\ isInputHalfDomain unit dom = true
     /\ Compose unit tt (fun _ _ => tt) (fun values _ _ => values)
          (identity2 unit tt) (reversal_lut unit tt) COMPOSE_RESAMPLE_HD
        = OK R
     /\ m_length (m_array unit R) = 65536
     /\ getHueAdjust unit R = getHueAdjust unit (reversal_lut unit tt))
  /\ (exists dom R,
        Lut1DOpData_new unit tt LUT_STANDARD 65536 = OK dom
        /\ isInputHalfDomain unit dom = false
        /\ Compose unit tt (fun _ _ => tt) (fun values _ _ => values)
             (identity2 unit tt) (reversal_lut unit tt) COMPOSE_RESAMPLE_BIG
           = OK R
        /\ m_length (m_array unit R) = 65536
        /\ getHueAdjust unit R = getHueAdjust unit (reversal_lut unit tt)).
Proof.
  split.
  - pose proof (C4_compose unit tt (fun _ _ => tt) (fun values _ _ => values)
                  (identity2 unit tt) (reversal_lut unit tt)
                  COMPOSE_RESAMPLE_HD) as H.
    cbv zeta in H. destruct H as (_ & H & _).
    destruct (H eq_refl eq_refl)
      as (dom & R & Hdom & _ & Hhalf & _ & _ & HR & Hlen & _ & _ & Hhue).
    exists dom, R.
    split; [exact Hdom|]. split; [exact Hhalf|]. split; [exact HR|].
    split; [exact Hlen|exact Hhue].
  - pose proof (C4_compose unit tt (fun _ _ => tt) (fun values _ _ => values)
                  (identity2 unit tt) (reversal_lut unit tt)
                  COMPOSE_RESAMPLE_BIG) as H.
    cbv zeta in H. destruct H as (_ & H & _).
    destruct (H eq_refl eq_refl)
      as (dom & R & Hdom & _ & Hhalf & _ & _ & HR & Hlen & _ & _ & Hhue).
    exists dom, R.
    split; [exact Hdom|]. split; [exact Hhalf|]. split; [exact HR|].
    split; [exact Hlen|exact Hhue].
Defined.

(** C5, witness: [extended_lut], an inverse LUT that stores the value 2 and
    whose inversion quality is FAST. *)
Lemma C5_make_fast_lut1d_witness :
  getDirection unit (extended_lut unit tt) = TRANSFORM_DIR_INVERSE
  /\ hasExtendedRange unit (extended_lut unit tt) = true
  /\ m_invQuality unit (extended_lut unit tt) = LUT_INVERSION_FAST
  /\ exists dom guarded R,
       fst (MakeFastLut1DFromInverse unit tt (fun _ _ => tt)
              (fun values _ _ => values) (extended_lut unit tt) false)
       = OK R
       /\ m_invQuality unit guarded = LUT_INVERSION_EXACT
       /\ m_array unit guarded = m_array unit (extended_lut unit tt)
       /\ Compose unit tt (fun _ _ => tt) (fun values _ _ => values)
            dom guarded COMPOSE_RESAMPLE_NO = OK R
       /\ getDirection unit R = TRANSFORM_DIR_FORWARD
       /\ Z.land (m_halfFlags unit R) LUT_INPUT_HALF_CODE
          = LUT_INPUT_HALF_CODE
       /\ m_length (m_array unit R) = 65536
       /\ snd (MakeFastLut1DFromInverse unit tt (fun _ _ => tt)
                 (fun values _ _ => values) (extended_lut unit tt) false)
          = extended_lut unit tt.
Proof.
  split; [reflexivity|]. split; [reflexivity|]. split; [reflexivity|].
  destruct (C5_make_fast_lut1d_from_inverse unit tt (fun _ _ => tt)
              (fun values _ _ => values) (extended_lut unit tt) false)
    as [_ H].
  destruct (H eq_refl eq_refl)
    as (dom & guarded & R & _ & Hguard & _ & HR & Hcompose & Hdir & Hflags
        & Hlen & _ & Hsnd).
  exists dom, guarded, R.
  split; [exact HR|].
  split; [rewrite Hguard; reflexivity|].
  split; [rewrite Hguard; reflexivity|].
  split; [exact Hcompose|]. split; [exact Hdir|]. split; [exact Hflags|].
  split; [exact Hlen|exact Hsnd].
Defined.


(** C7, witness: [reversal_lut] finalized twice. *)
Lemma C7_finalize_idempotent_witness :
  0 <= m_numColorComponents (m_array unit (reversal_lut unit tt)) <= 3
  /\ exists L1,
       finalize unit sample_direction_name sample_interpolation_name
         sample_digest (reversal_lut unit tt) = OK L1
       /\ exists L2,
            finalize unit sample_direction_name sample_interpolation_name
              sample_digest L1 = OK L2
            /\ getCacheID unit L2 = getCacheID unit L1.
Proof.
  split; [simpl; lia|].
  destruct (finalize unit sample_direction_name sample_interpolation_name
              sample_digest (reversal_lut unit tt)) as [L1|what] eqn:E1;
    [|vm_compute in E1; discriminate E1].
  exists L1. split; [reflexivity|].
  apply (C7_finalize_idempotent unit sample_direction_name
           sample_interpolation_name sample_digest (reversal_lut unit tt) L1);
    [simpl; lia|exact E1].
Defined.

(** C9, witness: the array of the standard-domain identity of two rows. *)
Lemma C9_array_construction_witness :
  Lut3by1DArray_new LUT_STANDARD 2 = OK (m_array unit (identity2 unit tt))
  /\ m_length (m_array unit (identity2 unit tt)) = 2
  /\ sample (m_array unit (identity2 unit tt)) 1 0
     = ideal_value LUT_STANDARD 2 1.
Proof.
  assert (Hnew : Lut3by1DArray_new LUT_STANDARD 2
                 = OK (m_array unit (identity2 unit tt)))
    by (vm_compute; reflexivity).
  split; [exact Hnew|].
  destruct (C9_array_construction_bounds LUT_STANDARD 2) as (_ & _ & H).
  destruct (H _ Hnew) as [Hlen Hsample].
  split; [exact Hlen|]. apply Hsample; lia.
Defined.

(** C10, witness: the sample names of NEAREST and LINEAR differ. *)
Lemma C10_equals_witness :
  sample_interpolation_name INTERP_NEAREST
  <> sample_interpolation_name INTERP_LINEAR
  /\ exists L F1 F2 : Lut1DOpData unit,
       finalize unit sample_direction_name sample_interpolation_name
         sample_digest (setInterpolation unit L INTERP_NEAREST) = OK F1
       /\ finalize unit sample_direction_name sample_interpolation_name
            sample_digest (setInterpolation unit L INTERP_LINEAR) = OK F2
       /\ equals unit F1 F2 = true
       /\ getCacheID unit F1 <> getCacheID unit F2.
Proof.
  split; [discriminate|].
  apply (C10_equals_does_not_determine_cache_id unit tt sample_direction_name
           sample_interpolation_name sample_digest).
  discriminate.
Defined.

(** ** Further properties on concrete inputs *)

Lemma reversal_lut_sizes :
  valid_sizes (isInputHalfDomain unit (reversal_lut unit tt))
    (m_length (m_array unit (reversal_lut unit tt)))
    (m_data (m_array unit (reversal_lut unit tt))).
Proof. split; [reflexivity|]. split; [simpl; lia|]. discriminate. Qed.

Lemma reversal_lut_channels :
  0 <= m_numColorComponents (m_array unit (reversal_lut unit tt)) <= 3.
Proof. simpl. lia. Qed.

(** X2, witness: the depth UINT8. *)
Lemma MakeLookupDomain_result_witness :
  BIT_DEPTH_UINT8 <> BIT_DEPTH_UNKNOWN
  /\ BIT_DEPTH_UINT8 <> BIT_DEPTH_UINT32
  /\ exists L,
       MakeLookupDomain unit tt BIT_DEPTH_UINT8 = OK L
       /\ isInputHalfDomain unit L = false
       /\ m_length (m_array unit L) = 256.
Proof.
  assert (H1 : BIT_DEPTH_UINT8 <> BIT_DEPTH_UNKNOWN) by discriminate.
  assert (H2 : BIT_DEPTH_UINT8 <> BIT_DEPTH_UINT32) by discriminate.
  split; [exact H1|]. split; [exact H2|].
  destruct (MakeLookupDomain_result unit tt BIT_DEPTH_UINT8) as [_ H].
  destruct (H H1 H2) as (L & HL & _ & Hhd & Hlen & _).
  exists L. split; [exact HL|]. split; [exact Hhd|exact Hlen].
Defined.

(** X3, witness: the lookup domain of the depth UINT8. *)
Lemma MakeLookupDomain_mayLookup_witness :
  exists L,
    MakeLookupDomain unit tt BIT_DEPTH_UINT8 = OK L
    /\ mayLookup unit L BIT_DEPTH_UINT8 = true.
Proof.
  destruct (MakeLookupDomain_ok unit tt BIT_DEPTH_UINT8)
    as (L & HL & _); [discriminate|discriminate|].
  exists L. split; [exact HL|].
  exact (MakeLookupDomain_mayLookup unit tt BIT_DEPTH_UINT8 L HL).
Defined.

(** X5, witness: the identity of two rows and its inverse. *)
Lemma isInverse_symmetric_exclusive_witness :
  isInverse unit (identity2 unit tt) (inverse unit (identity2 unit tt)) = true
  /\ m_direction unit (identity2 unit tt)
     <> m_direction unit (inverse unit (identity2 unit tt))
  /\ haveEqualBasics unit (identity2 unit tt)
       (inverse unit (identity2 unit tt)) = true
  /\ mayCompose unit (identity2 unit tt) (inverse unit (identity2 unit tt))
     = false
  /\ equals unit (identity2 unit tt) (inverse unit (identity2 unit tt))
     = false.
Proof.
  split; [reflexivity|].
  apply (proj2 (isInverse_symmetric_exclusive unit (identity2 unit tt)
                  (inverse unit (identity2 unit tt)))).
  reflexivity.
Defined.

(** X6, witness: the identity of two rows. *)
Lemma isInverse_of_inverse_witness :
  Forall (fun x => IsNan x = false) (m_data (m_array unit (identity2 unit tt)))
  /\ isInverse unit (identity2 unit tt) (inverse unit (identity2 unit tt))
     = true
  /\ isInverse unit (inverse unit (identity2 unit tt)) (identity2 unit tt)
     = true.
Proof.
  assert (Hnan : Forall (fun x => IsNan x = false)
                   (m_data (m_array unit (identity2 unit tt))))
    by (repeat constructor).
  split; [exact Hnan|].
  exact (isInverse_of_inverse unit (identity2 unit tt) Hnan).
Defined.

(** X7, witness: the identity of two rows. *)
Lemma equals_symmetric_reflexive_witness :
  Forall (fun x => IsNan x = false) (m_data (m_array unit (identity2 unit tt)))
  /\ equals unit (identity2 unit tt) (identity2 unit tt) = true
  /\ equals unit (clone unit (identity2 unit tt)) (identity2 unit tt) = true.
Proof.
  assert (Hnan : Forall (fun x => IsNan x = false)
                   (m_data (m_array unit (identity2 unit tt))))
    by (repeat constructor).
  split; [exact Hnan|].
  exact (proj1 (proj2 (equals_symmetric_reflexive unit (identity2 unit tt)
                         (identity2 unit tt))) Hnan).
Defined.

(** X9, witness: channel 0 of [reversal_lut]. *)
Lemma effective_domain_standard_witness :
  isInputHalfDomain unit (reversal_lut unit tt) = false
  /\ 0 <= 0 < m_numColorComponents (m_array unit (reversal_lut unit tt))
  /\ 0 <= startDomain
            (getProps
               (m_componentProperties unit
                  (prepareArray unit (reversal_lut unit tt))) 0)
     <= endDomain
          (getProps
             (m_componentProperties unit
                (prepareArray unit (reversal_lut unit tt))) 0).
Proof.
  assert (Hc : 0 <= 0 < m_numColorComponents
                          (m_array unit (reversal_lut unit tt)))
    by (simpl; lia).
  split; [reflexivity|]. split; [exact Hc|].
  pose proof (effective_domain_standard unit (reversal_lut unit tt) 0
                reversal_lut_sizes eq_refl Hc
                (proj2 reversal_lut_channels)) as H.
  cbv zeta in H. exact (proj1 H).
Defined.

(** X10, witness: channel 1 of [step_lut]. *)
Lemma effective_domain_half_witness :
  isInputHalfDomain unit (step_lut unit tt) = true
  /\ (0 <= startDomain
             (getProps
                (m_componentProperties unit
                   (prepareArray unit (step_lut unit tt))) 1)
      <= endDomain
           (getProps
              (m_componentProperties unit
                 (prepareArray unit (step_lut unit tt))) 1)
      /\ endDomain
           (getProps
              (m_componentProperties unit
                 (prepareArray unit (step_lut unit tt))) 1)
         <= 31743).
Proof.
  assert (Hc : 0 <= 1 < m_numColorComponents
                          (m_array unit (step_lut unit tt)))
    by (change (0 <= 1 < 3); lia).
  assert (Hn : m_numColorComponents (m_array unit (step_lut unit tt)) <= 3)
    by (change (3 <= 3); lia).
  split; [reflexivity|].
  pose proof (effective_domain_half unit (step_lut unit tt) 1
                (step_lut_valid unit tt) eq_refl Hc Hn) as H.
  cbv zeta in H. exact (proj1 H).
Defined.

(** X11, witness: channel 0 of [flat_lut]. *)
Lemma constant_channel_domain_witness :
  IsNan f32_1 = false
  /\ (forall row, 0 <= row < m_length (m_array unit (flat_lut unit tt)) ->
        sample (m_array unit (flat_lut unit tt)) row 0 = f32_1)
  /\ isIncreasing
       (getProps
          (m_componentProperties unit (prepareArray unit (flat_lut unit tt)))
          0) = false
  /\ startDomain
       (getProps
          (m_componentProperties unit (prepareArray unit (flat_lut unit tt)))
          0) = 0
  /\ endDomain
       (getProps
          (m_componentProperties unit (prepareArray unit (flat_lut unit tt)))
          0) = 0.
Proof.
  assert (Hconst : forall row,
             0 <= row < m_length (m_array unit (flat_lut unit tt)) ->
             sample (m_array unit (flat_lut unit tt)) row 0 = f32_1).
  { intros row Hrow. simpl in Hrow.
    assert (Hr : row = 0 \/ row = 1 \/ row = 2) by lia.
    destruct Hr as [-> | [-> | ->]]; reflexivity. }
  split; [reflexivity|]. split; [exact Hconst|].
  apply (constant_channel_domain unit (flat_lut unit tt) 0 f32_1).
  - split; [reflexivity|]. split; [simpl; lia|]. discriminate.
  - reflexivity.
  - simpl. lia.
  - simpl. lia.
  - reflexivity.
  - exact Hconst.
Defined.

(** X12, witness: [reversal_lut], an INVERSE LUT of four rows and three
    channels on a standard domain. *)
Lemma finalize_fails_as_validate_witness :
  m_numColorComponents (m_array unit (reversal_lut unit tt)) = 3
  /\ Z.of_nat (List.length (m_data (m_array unit (reversal_lut unit tt))))
     = m_length (m_array unit (reversal_lut unit tt)) * 3
  /\ isInputHalfDomain unit (reversal_lut unit tt) = false
  /\ (succeeds
        (finalize unit sample_direction_name sample_interpolation_name
           sample_digest (reversal_lut unit tt))
      <-> validate unit sample_interpolation_name (reversal_lut unit tt)
          = OK tt).
Proof.
  split; [reflexivity|]. split; [reflexivity|]. split; [reflexivity|].
  apply (finalize_fails_as_validate unit sample_direction_name
           sample_interpolation_name sample_digest (reversal_lut unit tt)).
  - right. reflexivity.
  - reflexivity.
  - simpl. lia.
  - intros _ Hhalf. discriminate Hhalf.
Defined.

(** X13, witness: [reversal_lut] finalized. *)
Lemma finalize_frame_witness :
  exists L1,
    finalize unit sample_direction_name sample_interpolation_name
      sample_digest (reversal_lut unit tt) = OK L1
    /\ m_direction unit L1 = m_direction unit (reversal_lut unit tt)
    /\ m_length (m_array unit L1)
       = m_length (m_array unit (reversal_lut unit tt)).
Proof.
  destruct (finalize unit sample_direction_name sample_interpolation_name
              sample_digest (reversal_lut unit tt)) as [L1|what] eqn:E;
    [|vm_compute in E; discriminate E].
  exists L1. split; [reflexivity|].
  destruct (finalize_frame unit sample_direction_name
              sample_interpolation_name sample_digest
              (reversal_lut unit tt) L1 E)
    as (Hd & _ & _ & _ & _ & _ & _ & Hl & _).
  split; [exact Hd|exact Hl].
Defined.

(** X14, witness: [reversal_lut] prepared twice. *)
Lemma prepareArray_idempotent_witness :
  0 <= m_numColorComponents (m_array unit (reversal_lut unit tt)) <= 3
  /\ prepareArray unit (prepareArray unit (reversal_lut unit tt))
     = prepareArray unit (reversal_lut unit tt).
Proof.
  split; [exact reversal_lut_channels|].
  apply (prepareArray_idempotent unit (reversal_lut unit tt)
           reversal_lut_sizes reversal_lut_channels).
Defined.

(** X15, witness: [reversal_lut]. *)
Lemma prepareArray_untouched_witness :
  0 <= m_numColorComponents (m_array unit (reversal_lut unit tt)) <= 3
  /\ List.length
       (m_data (m_array unit (prepareArray unit (reversal_lut unit tt))))
     = List.length (m_data (m_array unit (reversal_lut unit tt))).
Proof.
  split; [exact reversal_lut_channels|].
  exact (proj1 (prepareArray_untouched unit (reversal_lut unit tt)
                  reversal_lut_sizes reversal_lut_channels)).
Defined.

(** X16, witness: the identity of two rows rendered through itself. *)
Lemma ComposeVec_result_witness :
  exists R,
    ComposeVec unit (fun values _ _ => values) (identity2 unit tt)
      [Lut1DOp unit (identity2 unit tt)] = OK R
    /\ m_length (m_array unit R) = 2
    /\ m_numColorComponents (m_array unit R) = 3.
Proof.
  destruct (ComposeVec unit (fun values _ _ => values) (identity2 unit tt)
              [Lut1DOp unit (identity2 unit tt)]) as [R|what] eqn:E;
    [|vm_compute in E; discriminate E].
  exists R. split; [reflexivity|].
  destruct (proj2 (ComposeVec_result unit (fun values _ _ => values)
                     (identity2 unit tt) [Lut1DOp unit (identity2 unit tt)])
              R E) as (Hl & Hn & _).
  split; [exact Hl|exact Hn].
Defined.

(** X17, witness: [reversal_lut] for the GPU. *)
Lemma MakeFastLut1DFromInverse_result_witness :
  getDirection unit (reversal_lut unit tt) = TRANSFORM_DIR_INVERSE
  /\ exists R,
       fst (MakeFastLut1DFromInverse unit tt (fun _ _ => tt)
              (fun values _ _ => values) (reversal_lut unit tt) true)
       = OK R
       /\ getDirection unit R = TRANSFORM_DIR_FORWARD
       /\ m_length (m_array unit R) = 4096.
Proof.
  split; [reflexivity|].
  destruct (MakeFastLut1DFromInverse_result unit tt (fun _ _ => tt)
              (fun values _ _ => values) (reversal_lut unit tt) true
              eq_refl)
    as (R & HR & _ & Hdir & _ & _ & Hgpu & _).
  exists R. split; [exact HR|]. split; [exact Hdir|].
  apply Hgpu; [reflexivity|reflexivity|discriminate].
Defined.


(** X19, witness: the fresh LUT of two rows. *)
Lemma fresh_standard_isIdentity_witness :
  2 <= 2 <= 1048576
  /\ exists L,
       Lut1DOpData_new unit tt LUT_STANDARD 2 = OK L
       /\ isIdentity unit (fun _ => 0) (fun _ _ _ => false) L = true
       /\ isNoOp unit (fun _ => 0) (fun _ _ _ => false) L = false.
Proof.
  split; [lia|].
  apply (fresh_standard_isIdentity unit tt (fun _ => 0)
           (fun _ _ _ => false) 2).
  lia.
Defined.

(** X20, witness: [all_nan_lut]. *)
Lemma isIdentity_accepts_nan_witness :
  (forall idx c,
     0 <= idx < m_length (m_array unit (all_nan_lut unit tt)) ->
     0 <= c < 3 ->
     IsNan (sample (m_array unit (all_nan_lut unit tt)) idx c) = true)
  /\ isIdentity unit (fun _ => 0) (fun _ _ _ => false) (all_nan_lut unit tt)
     = true.
Proof.
  assert (Hnan : forall idx c,
             0 <= idx < m_length (m_array unit (all_nan_lut unit tt)) ->
             0 <= c < 3 ->
             IsNan (sample (m_array unit (all_nan_lut unit tt)) idx c)
             = true).
  { intros idx c Hidx Hc. simpl in Hidx.
    assert (Hi : idx = 0 \/ idx = 1) by lia.
    assert (Hc' : c = 0 \/ c = 1 \/ c = 2) by lia.
    destruct Hi as [-> | ->], Hc' as [-> | [-> | ->]]; reflexivity. }
  split; [exact Hnan|].
  apply (isIdentity_accepts_nan unit (fun _ => 0) (fun _ _ _ => false)
           (all_nan_lut unit tt)); [reflexivity|simpl; lia|exact Hnan].
Defined.

(** X21, witness: the standard domain of two rows. *)
Lemma fresh_lut_validate_witness :
  2 <= 2 <= 1048576
  /\ exists L,
       Lut1DOpData_new unit tt LUT_STANDARD 2 = OK L
       /\ (validate unit sample_interpolation_name L = OK tt
           <-> IsInputHalfDomain LUT_STANDARD = false \/ 2 = 65536).
Proof.
  split; [lia|].
  apply (fresh_lut_validate unit tt sample_interpolation_name LUT_STANDARD 2).
  lia.
Defined.

(** X22, witness: row 2 of channel 0 of [reversal_lut]. *)
Lemma prepareArray_samples_from_input_witness :
  0 <= m_numColorComponents (m_array unit (reversal_lut unit tt)) <= 3
  /\ exists row',
       0 <= row' <= 2
       /\ sample (m_array unit (prepareArray unit (reversal_lut unit tt))) 2 0
          = sample (m_array unit (reversal_lut unit tt)) row' 0.
Proof.
  split; [exact reversal_lut_channels|].
  apply (prepareArray_samples_from_input unit (reversal_lut unit tt) 2 0
           reversal_lut_sizes reversal_lut_channels); lia.
Defined.
